(** * wizwalker.client: the Client orchestration layer

    A shallow embedding of [wizwalker/client.py].  Every method of [Client]
    is a program in a small free monad [Prog] whose nodes are the calls the
    Python code makes: attribute reads and writes on Python objects, object
    construction, lock operations, and the calls into the collaborators
    (the hook subsystem, pymem, user32, asyncio, wizwalker.utils).
    Exceptions are the [Throw] leaves; [try]/[except]/[finally] and
    [async with] are combinators on programs.  A program is run against an
    object store and an arbitrary environment that answers the collaborator
    calls, either sequentially ([exec]) or as one of several asyncio tasks
    ([run_schedule]). *)

From Stdlib Require Import ZArith List Bool Lia Floats.
From stdpp Require Import strings gmap.

Set Implicit Arguments.
Set Default Proof Using "Type".
Open Scope Z_scope.

(** ** Python values and exceptions *)

(** Identity of a Python object. *)
Definition ref := nat.

(** What an attribute of [Client] can hold: [None], an int, or a reference
    to another object. *)
Inductive value : Type :=
| VNone
| VInt (n : Z)
| VRef (r : ref).
Arguments VRef r%_nat.

Inductive exn : Type :=
| ReadingEnumFailed
| RuntimeError (msg : string)
| AttributeError
| ZeroDivisionError
| OtherError (tag : nat).

Inductive result (A : Type) : Type :=
| Ok (a : A)
| Err (e : exn).
Arguments Ok {A} a.
Arguments Err {A} e.

(** Modelled from the spec: the declaration of [DuelPhase] is in
    wizwalker.memory; the spec gives it a terminal [ended] variant and one or
    more non-terminal variants. *)
Inductive DuelPhase : Type :=
| ended
| in_progress (stage : nat).

Definition DuelPhase_is (a b : DuelPhase) : bool :=
  match a, b with
  | ended, ended => true
  | in_progress i, in_progress j => Nat.eqb i j
  | _, _ => false
  end.

(** Modelled from the spec: the keycode table is in the wizwalker package;
    [goto] only names the forward key [Keycode.W]. *)
Inductive Keycode : Type :=
| W
| key (code : Z).

(** [utils.XYZ]: three Python floats (IEEE 754 binary64). *)
Record XYZ : Type := mkXYZ { x : float; y : float; z : float }.

(** Modelled from the spec: [XYZ.__sub__] is in wizwalker.utils; the spec
    defines the subtraction of two points as the Euclidean norm of their
    component-wise difference, z included. *)
Definition XYZ_sub (a b : XYZ) : float :=
  let dx := PrimFloat.sub (x a) (x b) in
  let dy := PrimFloat.sub (y a) (y b) in
  let dz := PrimFloat.sub (z a) (z b) in
  PrimFloat.sqrt
    (PrimFloat.add (PrimFloat.add (PrimFloat.mul dx dx) (PrimFloat.mul dy dy))
                   (PrimFloat.mul dz dz)).

(** The two delivery primitives of user32. *)
Inductive send_method : Type :=
| SendMessageW
| PostMessageW.

(** The classes [Client] instantiates. *)
Inductive class : Type :=
| Client
| Pymem
| HookHandler
| PlayerStats
| PlayerActorBody
| PlayerDuel
| CurrentQuestPosition
| Lock.

(** ** Calls *)

(** Everything a method of [Client] does besides computing: the first five
    constructors are interpreted on the object store, the others are
    answered by the environment. *)
Inductive call : Type :=
| New (cls : class) (args : list value)
| LookupAttr (o : value) (name : string)
| SetAttr (o : value) (name : string) (v : value)
| Acquire (l : value)
| Release (l : value)
| process_handle (pymem : value)
| check_if_process_running (handle : value)
| get_pid_from_handle (window_handle : value)
| open_process_from_id (pymem : value) (pid : value)
| hook_close (hook_handler : value)
| activate_all_hooks (hook_handler : value)
| duel_phase (duel : value)
| instance_login (window_handle : value) (username password : string)
| timed_send_key (window_handle : value) (k : Keycode) (seconds : float)
| send_message (m : send_method) (window_handle : value) (msg wparam lparam : Z)
| ClientToScreen (window_handle : value) (px py : Z)
| write_mouse_position (hook_handler : value) (px py : Z)
| sleep (seconds : float)
| position (body : value)
| write_yaw (body : value) (yaw : float)
| write_position (body : value) (xyz : XYZ).

(** What a call returns when it does not raise.  [ClientToScreen] returns
    its BOOL and the point it overwrote. *)
Definition resp (c : call) : Type :=
  match c with
  | New _ _ => value
  | LookupAttr _ _ => option value
  | SetAttr _ _ _ => unit
  | Acquire _ => unit
  | Release _ => unit
  | process_handle _ => value
  | check_if_process_running _ => bool
  | get_pid_from_handle _ => Z
  | open_process_from_id _ _ => unit
  | hook_close _ => unit
  | activate_all_hooks _ => unit
  | duel_phase _ => DuelPhase
  | instance_login _ _ _ => unit
  | timed_send_key _ _ _ => unit
  | send_message _ _ _ _ _ => Z
  | ClientToScreen _ _ _ => Z * (Z * Z)
  | write_mouse_position _ _ _ => value
  | sleep _ => unit
  | position _ => XYZ
  | write_yaw _ _ => unit
  | write_position _ _ => unit
  end.

(** The calls that are awaited on a collaborator's coroutine: the points
    where asyncio may run another task.  [Acquire] is treated apart. *)
Definition awaited (c : call) : bool :=
  match c with
  | hook_close _ | activate_all_hooks _ | duel_phase _ | timed_send_key _ _ _
  | write_mouse_position _ _ _ | sleep _ | position _ | write_yaw _ _
  | write_position _ _ => true
  | _ => false
  end.

(** ** Programs *)

Inductive Prog (R : Type) : Type :=
| Ret (r : R)
| Throw (e : exn)
| Vis (c : call) (k : result (resp c) -> Prog R).
Arguments Ret {R} r.
Arguments Throw {R} e.
Arguments Vis {R} c k.

Fixpoint bind {A B : Type} (p : Prog A) (f : A -> Prog B) : Prog B :=
  match p with
  | Ret a => f a
  | Throw e => Throw e
  | Vis c k => Vis c (fun r => bind (k r) f)
  end.

Notation "'let*' a ':=' p 'in' k" := (bind p (fun a => k))
  (at level 10, a name, p at level 100, k at level 200).

(** A call whose exception propagates to the caller. *)
Definition perform (c : call) : Prog (resp c) :=
  Vis c (fun r => match r with Ok a => Ret a | Err e => Throw e end).

(** [try: body / except: handler / else: orelse]; [handler e = None] when
    no [except] clause matches [e]. *)
Fixpoint try_except {A R : Type} (body : Prog A)
    (handler : exn -> option (Prog R)) (orelse : A -> Prog R) : Prog R :=
  match body with
  | Ret a => orelse a
  | Throw e => match handler e with Some h => h | None => Throw e end
  | Vis c k => Vis c (fun r => try_except (k r) handler orelse)
  end.

(** [try: body / finally: fin]. *)
Fixpoint try_finally {R : Type} (body : Prog R) (fin : Prog unit) : Prog R :=
  match body with
  | Ret a => bind fin (fun _ => Ret a)
  | Throw e => bind fin (fun _ => Throw e)
  | Vis c k => Vis c (fun r => try_finally (k r) fin)
  end.

(** [async with l: body] for an [asyncio.Lock]. *)
Definition async_with {R : Type} (l : value) (body : Prog R) : Prog R :=
  bind (perform (Acquire l)) (fun _ => try_finally body (perform (Release l))).

(** [o.name]: [AttributeError] when the instance has no such attribute. *)
Definition getattr (o : value) (name : string) : Prog value :=
  let* found := perform (LookupAttr o name) in
  match found with
  | Some v => Ret v
  | None => Throw AttributeError
  end.

(** [functools.cached_property]: the value is looked up in the instance's
    [__dict__]; when absent, [func] computes it and it is stored there. *)
Definition cached_property (name : string) (func : value -> Prog value)
    (self : value) : Prog value :=
  let* cached := perform (LookupAttr self name) in
  match cached with
  | Some v => Ret v
  | None =>
      let* v := func self in
      let* _ := perform (SetAttr self name v) in
      Ret v
  end.

(** Python's [/] on floats. *)
Definition truediv (a b : float) : Prog float :=
  if PrimFloat.eqb b 0%float then Throw ZeroDivisionError
  else Ret (PrimFloat.div a b).

(** ** The methods of [Client] *)

Module ClientCode.
Section Methods.

(** [constants.WIZARD_SPEED] and [utils.calculate_perfect_yaw] are not part
    of client.py: the methods are parametric in them.  The yaw computation
    is a pure function of two points that may raise. *)
Variable WIZARD_SPEED : float.
Variable calculate_perfect_yaw : XYZ -> XYZ -> result float.

(** The cached property [Client.process_id]. *)
Definition process_id : value -> Prog value :=
  cached_property "process_id" (fun self =>
    let* window_handle := getattr self "window_handle" in
    let* pid := perform (get_pid_from_handle window_handle) in
    Ret (VInt pid)).

(** [Client.__init__]. *)
Definition Client_init (self : value) (window_handle : Z) : Prog unit :=
  let* _ := perform (SetAttr self "window_handle" (VInt window_handle)) in
  let* pymem := perform (New Pymem []) in
  let* _ := perform (SetAttr self "_pymem" pymem) in
  let* pymem := getattr self "_pymem" in
  let* pid := process_id self in
  let* _ := perform (open_process_from_id pymem pid) in
  let* pymem := getattr self "_pymem" in
  let* hook_handler := perform (New HookHandler [pymem]) in
  let* _ := perform (SetAttr self "hook_handler" hook_handler) in
  perform (SetAttr self "click_lock" VNone).

(** [Client(window_handle)]: allocate the instance, then initialise it. *)
Definition Client_new (window_handle : Z) : Prog value :=
  let* self := perform (New Client [VInt window_handle]) in
  let* _ := Client_init self window_handle in
  Ret self.

Definition is_running (self : value) : Prog bool :=
  let* pymem := getattr self "_pymem" in
  let* handle := perform (process_handle pymem) in
  perform (check_if_process_running handle).

Definition close (self : value) : Prog unit :=
  let* running := is_running self in
  if negb running then Ret tt
  else
    let* hook_handler := getattr self "hook_handler" in
    perform (hook_close hook_handler).

Definition accessor (name : string) (cls : class) : value -> Prog value :=
  cached_property name (fun self =>
    let* hook_handler := getattr self "hook_handler" in
    perform (New cls [hook_handler])).

Definition stats : value -> Prog value := accessor "stats" PlayerStats.
Definition body : value -> Prog value := accessor "body" PlayerActorBody.
Definition duel : value -> Prog value := accessor "duel" PlayerDuel.
Definition quest_position : value -> Prog value :=
  accessor "quest_position" CurrentQuestPosition.

Definition in_battle (self : value) : Prog bool :=
  try_except
    (let* d := duel self in perform (duel_phase d))
    (fun e => match e with
              | ReadingEnumFailed => Some (Ret false)
              | _ => None
              end)
    (fun phase => Ret (negb (DuelPhase_is phase ended))).

Definition activate_hooks (self : value) : Prog unit :=
  let* hook_handler := getattr self "hook_handler" in
  perform (activate_all_hooks hook_handler).

Definition login (self : value) (username password : string) : Prog unit :=
  let* window_handle := getattr self "window_handle" in
  perform (instance_login window_handle username password).

Definition send_key (self : value) (k : Keycode) (seconds : float) : Prog unit :=
  let* window_handle := getattr self "window_handle" in
  perform (timed_send_key window_handle k seconds).

Definition set_mouse_position (self : value) (px py : Z)
    (convert_from_client use_post : bool) : Prog value :=
  let send := if use_post then PostMessageW else SendMessageW in
  let* pt := (if convert_from_client then
          let* window_handle := getattr self "window_handle" in
          let* converted := perform (ClientToScreen window_handle px py) in
          if fst converted =? 0
          then Throw (RuntimeError "Client to screen conversion failed")
          else Ret (snd converted)
        else Ret (px, py)) in
  let* hook_handler := getattr self "hook_handler" in
  let* res := perform (write_mouse_position hook_handler (fst pt) (snd pt)) in
  let* window_handle := getattr self "window_handle" in
  let* _ := perform (send_message send window_handle 0x200 0 0) in
  Ret res.

(** The body of the [async with] in [click]. *)
Definition click_section (self : value) (px py : Z) (send : send_method)
    (button_down_message : Z) (sleep_duration : float) : Prog unit :=
  let* _ := set_mouse_position self px py true false in
  let* window_handle := getattr self "window_handle" in
  let* _ := perform (send_message send window_handle button_down_message 1 0) in
  let* _ := (if PrimFloat.ltb 0%float sleep_duration
             then perform (sleep sleep_duration) else Ret tt) in
  let* window_handle := getattr self "window_handle" in
  let* _ := perform (send_message send window_handle (button_down_message + 1) 0 0) in
  Ret tt.

Definition click (self : value) (px py : Z) (right_click : bool)
    (sleep_duration : float) (use_post : bool) : Prog unit :=
  let button_down_message := if right_click then 0x204 else 0x201 in
  let send := if use_post then PostMessageW else SendMessageW in
  let* click_lock := getattr self "click_lock" in
  let* _ := match click_lock with
            | VNone =>
                let* l := perform (New Lock []) in
                perform (SetAttr self "click_lock" l)
            | _ => Ret tt
            end in
  let* click_lock := getattr self "click_lock" in
  async_with click_lock
    (click_section self px py send button_down_message sleep_duration).

Definition goto (self : value) (tx ty : float) (speed_multiplier : float)
    : Prog unit :=
  let* b := body self in
  let* current_xyz := perform (position b) in
  let target_xyz := mkXYZ tx ty (z current_xyz) in
  let distance := XYZ_sub current_xyz target_xyz in
  let* move_seconds := truediv distance (PrimFloat.mul WIZARD_SPEED speed_multiplier) in
  let* yaw := match calculate_perfect_yaw current_xyz target_xyz with
        | Ok a => Ret a
        | Err e => Throw e
        end in
  let* b := body self in
  let* _ := perform (write_yaw b yaw) in
  let* window_handle := getattr self "window_handle" in
  perform (timed_send_key window_handle W move_seconds).

Definition teleport (self : value) (xyz : XYZ) (yaw : option float) : Prog unit :=
  let* b := body self in
  let* _ := perform (write_position b xyz) in
  match yaw with
  | Some a => let* b := body self in perform (write_yaw b a)
  | None => Ret tt
  end.

End Methods.
End ClientCode.

(** ** Sequential semantics *)

Inductive outcome (R : Type) : Type :=
| Done (r : R)
| Raised (e : exn)
| Blocked.
Arguments Done {R} r.
Arguments Raised {R} e.
Arguments Blocked {R}.

Definition outcome_of {A : Type} (r : result A) : outcome A :=
  match r with
  | Ok a => Done a
  | Err e => Raised e
  end.

Section Semantics.

(** The collaborators: any state, any answers. *)
Variable World : Type.
Variable env : forall c : call, World -> result (resp c) * World.

(** The interpreter state: the [__dict__] of every instance of [Client],
    the [_locked] flag of every [asyncio.Lock], the next fresh object
    identity, and the state of the collaborators. *)
Record State : Type := mkState {
  objs : gmap ref (gmap string value);
  locks : gmap ref bool;
  next_ref : ref;
  world : World
}.

Definition set_objs (s : State) (o : gmap ref (gmap string value)) : State :=
  mkState o (locks s) (next_ref s) (world s).
Definition set_locks (s : State) (l : gmap ref bool) : State :=
  mkState (objs s) l (next_ref s) (world s).
Definition set_world (s : State) (w : World) : State :=
  mkState (objs s) (locks s) (next_ref s) w.

(** Object construction: a fresh identity; a [Client] starts with an empty
    [__dict__], a [Lock] starts unlocked. *)
Definition alloc (cls : class) (s : State) : State :=
  let r := next_ref s in
  match cls with
  | Client => mkState (<[r := ∅]> (objs s)) (locks s) (S r) (world s)
  | Lock => mkState (objs s) (<[r := false]> (locks s)) (S r) (world s)
  | _ => mkState (objs s) (locks s) (S r) (world s)
  end.

Definition attr (s : State) (r : ref) (name : string) : option value :=
  match objs s !! r with
  | Some d => d !! name
  | None => None
  end.

Definition lookup_attr (o : value) (name : string) (s : State)
    : result (option value) :=
  match o with
  | VRef r => match objs s !! r with
              | Some d => Ok (d !! name)
              | None => Err AttributeError
              end
  | _ => Err AttributeError
  end.

Definition set_attr (o : value) (name : string) (v : value) (s : State)
    : result unit * State :=
  match o with
  | VRef r => match objs s !! r with
              | Some d => (Ok tt, set_objs s (<[r := <[name := v]> d]> (objs s)))
              | None => (Err AttributeError, s)
              end
  | _ => (Err AttributeError, s)
  end.

(** [asyncio.Lock.acquire]: [None] when the caller has to wait. *)
Definition acquire (l : value) (s : State) : option (result unit * State) :=
  match l with
  | VRef r => match locks s !! r with
              | Some false => Some (Ok tt, set_locks s (<[r := true]> (locks s)))
              | Some true => None
              | None => Some (Err AttributeError, s)
              end
  | _ => Some (Err AttributeError, s)
  end.

(** [asyncio.Lock.release]. *)
Definition release (l : value) (s : State) : result unit * State :=
  match l with
  | VRef r => match locks s !! r with
              | Some true => (Ok tt, set_locks s (<[r := false]> (locks s)))
              | Some false => (Err (RuntimeError "Lock is not acquired."), s)
              | None => (Err AttributeError, s)
              end
  | _ => (Err AttributeError, s)
  end.

Definition ask (c : call) (s : State) : result (resp c) * State :=
  ((env c (world s)).1, set_world s (env c (world s)).2).

(** One call; [None] when it cannot proceed now. *)
Definition step_call (c : call) (s : State) : option (result (resp c) * State) :=
  match c as c0 return option (result (resp c0) * State) with
  | New cls args => Some (Ok (VRef (next_ref s)), alloc cls s)
  | LookupAttr o name => Some (lookup_attr o name s, s)
  | SetAttr o name v => Some (set_attr o name v s)
  | Acquire l => acquire l s
  | Release l => Some (release l s)
  | c0 => Some (ask c0 s)
  end.

(** Run a program alone to its end: the calls it made, how it ended, and
    the final state.  A program that waits for a lock nobody will release
    is [Blocked]. *)
Fixpoint exec {R : Type} (p : Prog R) (s : State) : list call * outcome R * State :=
  match p with
  | Ret r => ([], Done r, s)
  | Throw e => ([], Raised e, s)
  | Vis c k =>
      match step_call c s with
      | None => ([], Blocked, s)
      | Some (r, s1) =>
          let '(t, o, s2) := exec (k r) s1 in (c :: t, o, s2)
      end
  end.

Definition trace_of {R : Type} (p : Prog R) (s : State) : list call := (exec p s).1.1.
Definition outcome_in {R : Type} (p : Prog R) (s : State) : outcome R := (exec p s).1.2.
Definition state_after {R : Type} (p : Prog R) (s : State) : State := (exec p s).2.

(** ** asyncio tasks *)

(** A task runs without interruption up to its next awaited call, or up to
    an [Acquire] of a lock that is held; an [Acquire] of a free lock does
    not suspend. *)
Fixpoint run_atomic {R : Type} (p : Prog R) (s : State) : list call * Prog R * State :=
  match p with
  | Vis c k =>
      if awaited c then ([], p, s)
      else
        match step_call c s with
        | None => ([], p, s)
        | Some (r, s1) =>
            let '(t, p', s2) := run_atomic (k r) s1 in (c :: t, p', s2)
        end
  | _ => ([], p, s)
  end.

(** The event loop resumes a task: the call it stands at completes, and the
    task runs on to its next suspension point.  A finished task, or one
    whose lock is still held, cannot be resumed. *)
Definition resume {R : Type} (p : Prog R) (s : State)
    : option (list call * Prog R * State) :=
  match p with
  | Vis c k =>
      match step_call c s with
      | None => None
      | Some (r, s1) =>
          let '(t, p', s2) := run_atomic (k r) s1 in Some (c :: t, p', s2)
      end
  | _ => None
  end.

(** The tasks of one event loop, the shared state, and the calls made so
    far, each with the index of the task that made it. *)
Record Loop : Type := mkLoop {
  tasks : list (Prog unit);
  shared : State;
  log : list (nat * call)
}.

Definition schedule_task (i : nat) (c : Loop) : Loop :=
  match tasks c !! i with
  | Some p =>
      match resume p (shared c) with
      | Some (t, p', s') =>
          mkLoop (<[i := p']> (tasks c)) s' (log c ++ map (pair i) t)
      | None => c
      end
  | None => c
  end.

(** The event loop resumes the tasks in the order of [schedule]. *)
Definition run_schedule (schedule : list nat) (c : Loop) : Loop :=
  fold_left (fun c i => schedule_task i c) schedule c.

End Semantics.

Arguments mkState {World} objs locks next_ref world.
Arguments mkLoop {World} tasks shared log.

(** ** Observations on traces *)

Definition count (f : call -> bool) (t : list call) : nat :=
  length (List.filter f t).

(** Calls into the hook subsystem: on the hook handler itself, or on a
    remote-state accessor built over it. *)
Definition is_hook_call (c : call) : bool :=
  match c with
  | hook_close _ | activate_all_hooks _ | write_mouse_position _ _ _
  | duel_phase _ | position _ | write_yaw _ _ | write_position _ _ => true
  | _ => false
  end.

Definition is_hook_close (c : call) : bool :=
  match c with hook_close _ => true | _ => false end.

Definition is_position_read (c : call) : bool :=
  match c with position _ => true | _ => false end.

Definition is_position_write (c : call) : bool :=
  match c with write_position _ _ => true | _ => false end.

Definition is_yaw_write (c : call) : bool :=
  match c with write_yaw _ _ => true | _ => false end.

Definition is_key_hold (c : call) : bool :=
  match c with timed_send_key _ _ _ => true | _ => false end.

Definition is_message (c : call) : bool :=
  match c with send_message _ _ _ _ _ => true | _ => false end.

Definition is_mouse_write (c : call) : bool :=
  match c with write_mouse_position _ _ _ => true | _ => false end.

Definition is_sleep (c : call) : bool :=
  match c with sleep _ => true | _ => false end.

Definition is_acquire (c : call) : bool :=
  match c with Acquire _ => true | _ => false end.

Definition is_release (c : call) : bool :=
  match c with Release _ => true | _ => false end.

Definition is_pid_query (c : call) : bool :=
  match c with get_pid_from_handle _ => true | _ => false end.

Definition is_construction (c : call) : bool :=
  match c with New _ _ => true | _ => false end.

(** Input injection: window messages, the remote mouse position, key
    holds and the login keystrokes. *)
Definition is_input (c : call) : bool :=
  match c with
  | send_message _ _ _ _ _ | write_mouse_position _ _ _
  | timed_send_key _ _ _ | instance_login _ _ _ => true
  | _ => false
  end.

(** The calls answered by the collaborators, as opposed to the bookkeeping
    on the object store. *)
Definition is_external (c : call) : bool :=
  match c with
  | New _ _ | LookupAttr _ _ | SetAttr _ _ _ | Acquire _ | Release _ => false
  | _ => true
  end.

Definition external (t : list call) : list call := List.filter is_external t.

(** The button messages of [click]: every window message but the mouse
    move of [set_mouse_position]. *)
Definition is_button (c : call) : bool :=
  match c with
  | send_message _ _ msg _ _ => negb (msg =? 0x200)
  | _ => false
  end.

Definition buttons (l : list (nat * call)) : list (nat * call) :=
  List.filter (fun e => is_button e.2) l.

(** ** A scripted environment *)

(** Concrete collaborators, to run the methods on: fixed answers, but for
    the liveness of the process, which is answered from a list, one entry
    per query, and [false] once the list is used up. *)
Record Answers : Type := mkAnswers {
  ans_pid : result Z;
  ans_phase : result DuelPhase;
  ans_position : result XYZ;
  ans_convert : result (Z * (Z * Z));
  ans_mouse : result value;
  ans_send : Z -> result Z;
  ans_write : result unit
}.

Definition scripted (a : Answers) (c : call) (alive : list bool)
    : result (resp c) * list bool :=
  match c as c0 return result (resp c0) * list bool with
  | New _ _ => (Ok VNone, alive)
  | LookupAttr _ _ => (Ok None, alive)
  | SetAttr _ _ _ => (Ok tt, alive)
  | Acquire _ => (Ok tt, alive)
  | Release _ => (Ok tt, alive)
  | process_handle _ => (Ok (VInt 7), alive)
  | check_if_process_running _ => (Ok (hd false alive), tl alive)
  | get_pid_from_handle _ => (ans_pid a, alive)
  | open_process_from_id _ _ => (Ok tt, alive)
  | hook_close _ => (Ok tt, alive)
  | activate_all_hooks _ => (Ok tt, alive)
  | duel_phase _ => (ans_phase a, alive)
  | instance_login _ _ _ => (Ok tt, alive)
  | timed_send_key _ _ _ => (Ok tt, alive)
  | send_message _ _ msg _ _ => (ans_send a msg, alive)
  | ClientToScreen _ _ _ => (ans_convert a, alive)
  | write_mouse_position _ _ _ => (ans_mouse a, alive)
  | sleep _ => (Ok tt, alive)
  | position _ => (ans_position a, alive)
  | write_yaw _ _ => (ans_write a, alive)
  | write_position _ _ => (ans_write a, alive)
  end.

(** Everything succeeds. *)
Definition fair_weather : Answers :=
  mkAnswers (Ok 4242) (Ok (in_progress 2))
            (Ok (mkXYZ 0%float 0%float 0%float))
            (Ok (1, (640, 480))) (Ok VNone) (fun _ => Ok 0) (Ok tt).

(** The store before any object exists. *)
Definition boot (alive : list bool) : State (list bool) := mkState ∅ ∅ 0%nat alive.

(** ** Sequencing of runs *)

(** How the run of [let* a := p in k a] is made of the run of [p] and the
    run of [k a]. *)
Definition and_then {World A B : Type}
    (first : list call * outcome A * State World)
    (next : A -> State World -> list call * outcome B * State World)
    : list call * outcome B * State World :=
  match first with
  | (t, Done a, s1) => let '(t', o, s2) := next a s1 in (t ++ t', o, s2)
  | (t, Raised e, s1) => (t, Raised e, s1)
  | (t, Blocked, s1) => (t, Blocked, s1)
  end.

(** What [self.name] evaluates to for a cached property of class [cls]:
    the cached object, or else the object about to be built. *)
Definition cached {World : Type} (s : State World) (r : ref) (name : string) : value :=
  match attr s r name with
  | Some v => v
  | None => VRef (next_ref s)
  end.

(** The store after [self.name] was evaluated. *)
Definition touch {World : Type} (s : State World) (r : ref) (name : string)
    (cls : class) : State World :=
  match attr s r name with
  | Some _ => s
  | None => (set_attr (VRef r) name (VRef (next_ref s)) (alloc cls s)).2
  end.

(** ** Static view of a program *)

(** Every call the program can make, whatever the answers, satisfies [P]. *)
Fixpoint issues {R : Type} (P : call -> Prop) (p : Prog R) : Prop :=
  match p with
  | Vis c k => P c /\ forall r, issues P (k r)
  | _ => True
  end.

(** ** Instances of [Client] in the store *)

(** [r] is an instance whose [__init__] has run: window handle, pymem and
    hook handler are set. *)
Definition constructed {World : Type} (s : State World) (r : ref)
    (window_handle pymem hook_handler : value) : Prop :=
  attr s r "window_handle" = Some window_handle /\
  attr s r "_pymem" = Some pymem /\
  attr s r "hook_handler" = Some hook_handler.

(** The click lock of [r] is absent, or is a lock nobody holds. *)
Definition lock_free {World : Type} (s : State World) (r : ref) : Prop :=
  attr s r "click_lock" = Some VNone \/
  exists l, attr s r "click_lock" = Some (VRef l) /\ locks s !! l = Some false.

(** A client built by the code itself, with every collaborator answering. *)
Definition demo_alive : list bool := [true; true; true].

Definition demo_state : State (list bool) :=
  state_after (scripted fair_weather) (ClientCode.Client_new 99) (boot demo_alive).

Definition demo_self : value := VRef 0%nat.

(** The classes of the remote-state accessors. *)
Definition remote_view (cls : class) : bool :=
  match cls with
  | PlayerStats | PlayerActorBody | PlayerDuel | CurrentQuestPosition => true
  | _ => false
  end.

(** How [try: p / finally: fin] ends, given how [p] and [fin] ended. *)
Definition finally_outcome {R : Type} (body : outcome R) (fin : outcome unit) : outcome R :=
  match fin with
  | Done _ => body
  | Raised e => Raised e
  | Blocked => Blocked
  end.

(** ** Calls that leave parts of the store alone *)

(** The call does not change attribute [name] of instance [r]. *)
Definition keeps (r : ref) (name : string) (c : call) : bool :=
  match c with
  | SetAttr (VRef r') n _ => negb (Nat.eqb r' r && String.eqb n name)
  | New Client _ => false
  | _ => true
  end.

(** The call does not create, take or release a lock. *)
Definition lock_quiet (c : call) : bool :=
  match c with
  | New Lock _ | Acquire _ | Release _ => false
  | _ => true
  end.

(** The call only reads the store. *)
Definition reads_only (c : call) : bool :=
  match c with
  | New _ _ | SetAttr _ _ _ | Acquire _ | Release _ => false
  | _ => true
  end.

(** ** The call sequence of a click *)

(** The point [set_mouse_position] writes after the conversion. *)
Definition converted {World : Type}
    (env : forall c : call, World -> result (resp c) * World)
    (w : World) (wh : value) (px py : Z) : Z * Z :=
  match (env (ClientToScreen wh px py) w).1 with
  | Ok a => a.2
  | Err _ => (px, py)
  end.

(** The collaborator calls of a complete click, in order: the three of
    [set_mouse_position] with its defaults, button down, the optional
    sleep, button up. *)
Definition click_calls (wh hh : value) (px py : Z) (pt : Z * Z)
    (send : send_method) (down : Z) (sleep_duration : float) : list call :=
  [ClientToScreen wh px py;
   write_mouse_position hh pt.1 pt.2;
   send_message SendMessageW wh 0x200 0 0;
   send_message send wh down 1 0]
  ++ (if PrimFloat.ltb 0%float sleep_duration then [sleep sleep_duration] else [])
  ++ [send_message send wh (down + 1) 0 0].

(** The bookkeeping calls of evaluating [self.name] for a cached property
    of class [cls]: one lookup when the value is cached; otherwise the
    lookup, the construction over the hook handler, and the store. *)
Definition accessor_trace {World : Type} (s : State World) (r : ref)
    (name : string) (cls : class) (hook_handler : value) : list call :=
  match attr s r name with
  | Some _ => [LookupAttr (VRef r) name]
  | None =>
      [LookupAttr (VRef r) name;
       LookupAttr (VRef r) "hook_handler";
       New cls [hook_handler];
       SetAttr (VRef r) name (VRef (next_ref s))]
  end.

(** A run follows the sequence [full]: the collaborator calls it made are
    a prefix of [full], and all of [full] when it returned normally. *)
Definition follows {World R : Type} (full : list call)
    (run : list call * outcome R * State World) : Prop :=
  external run.1.1 `prefix_of` full /\
  (forall a, run.1.2 = Done a -> external run.1.1 = full).

(** The lock [click] takes: the one stored on the instance, or else the
    one it is about to create. *)
Definition click_lock_of {World : Type} (s : State World) (r : ref) : ref :=
  match attr s r "click_lock" with
  | Some (VRef l) => l
  | _ => next_ref s
  end.

(** The call takes or releases no lock and asks nothing of the
    collaborators. *)
Definition is_bookkeeping (c : call) : bool :=
  negb (is_external c) && negb (is_acquire c) && negb (is_release c).

(** How [click] delivers a window message and what it writes as the mouse
    position: the mouse move always goes through [SendMessageW], the button
    messages through the primitive [use_post] selects, and the position is
    the converted point [pt]. *)
Definition delivery (use_post : bool) (pt : Z * Z) (c : call) : Prop :=
  match c with
  | send_message m _ msg _ _ =>
      m = if msg =? 0x200 then SendMessageW
          else if use_post then PostMessageW else SendMessageW
  | write_mouse_position _ a b => (a, b) = pt
  | _ => True
  end.

(** The call only reads the store, and of the store only the window
    handle and the hook handler of instance [r]. *)
Definition reads_handles (r : ref) (c : call) : Prop :=
  reads_only c = true /\
  match c with
  | LookupAttr o n => o = VRef r /\ (n = "window_handle" \/ n = "hook_handler")
  | _ => True
  end.

(** The calls that are made when [calls] are issued in order from the
    collaborators' state [w], each one only once the one before has
    returned: all of them, up to and including the first that raises. *)
Fixpoint attempted {World : Type}
    (env : forall c : call, World -> result (resp c) * World)
    (calls : list call) (w : World) : list call :=
  match calls with
  | [] => []
  | c :: rest =>
      c :: match env c w with
           | (Ok _, w') => attempted env rest w'
           | (Err _, _) => []
           end
  end.

(** The calls of [click] after its mouse-position step: button down
    through [send], the sleep when [sleep_duration > 0], button up through
    [send]. *)
Definition button_calls (wh : value) (send : send_method) (down : Z)
    (sleep_duration : float) : list call :=
  [send_message send wh down 1 0]
  ++ (if PrimFloat.ltb 0%float sleep_duration then [sleep sleep_duration] else [])
  ++ [send_message send wh (down + 1) 0 0].

(** Variations on the scripted collaborators. *)
Definition enum_unreadable : Answers :=
  mkAnswers (Ok 4242) (Err ReadingEnumFailed)
            (Ok (mkXYZ 0%float 0%float 0%float))
            (Ok (1, (640, 480))) (Ok VNone) (fun _ => Ok 0) (Ok tt).

Definition duel_over : Answers :=
  mkAnswers (Ok 4242) (Ok ended)
            (Ok (mkXYZ 0%float 0%float 0%float))
            (Ok (1, (640, 480))) (Ok VNone) (fun _ => Ok 0) (Ok tt).

Definition conversion_fails : Answers :=
  mkAnswers (Ok 4242) (Ok (in_progress 2))
            (Ok (mkXYZ 0%float 0%float 0%float))
            (Ok (0, (0, 0))) (Ok VNone) (fun _ => Ok 0) (Ok tt).

(** The button-down message cannot be delivered. *)
Definition button_down_fails : Answers :=
  mkAnswers (Ok 4242) (Ok (in_progress 2))
            (Ok (mkXYZ 0%float 0%float 0%float))
            (Ok (1, (640, 480))) (Ok VNone)
            (fun msg => if msg =? 0x201 then Err (OtherError 5) else Ok 0) (Ok tt).

(** The client of [demo_state] once its process has exited. *)
Definition stopped_state : State (list bool) := set_world demo_state [].

(** Collaborators whose window lookup fails once: the process id is
    answered from the list, like the liveness, and is an error on [false]. *)
Definition moody (c : call) (alive : list bool) : result (resp c) * list bool :=
  match c as c0 return result (resp c0) * list bool with
  | get_pid_from_handle _ =>
      (if hd false alive then Ok 4242 else Err (OtherError 3), tl alive)
  | c0 => scripted fair_weather c0 alive
  end.

(** What a construction leaves behind when the process id lookup raised:
    an instance with its window handle and pymem, and nothing cached. *)
Definition half_built : State (list bool) :=
  state_after moody (ClientCode.Client_new 99) (boot [false; true]).

Definition demo_speed : float := 580%float.
Definition demo_yaw (a b : XYZ) : result float := Ok 0%float.

(** ** Two clicks in one event loop *)

(** The arguments of one call of [click]. *)
Record ClickArgs : Type := mkClickArgs {
  arg_x : Z;
  arg_y : Z;
  arg_right : bool;
  arg_sleep : float;
  arg_post : bool
}.

Definition click_task (self : value) (a : ClickArgs) : Prog unit :=
  ClientCode.click self (arg_x a) (arg_y a) (arg_right a) (arg_sleep a)
    (arg_post a).

Definition send_of (a : ClickArgs) : send_method :=
  if arg_post a then PostMessageW else SendMessageW.

Definition down_of (a : ClickArgs) : Z :=
  if arg_right a then 0x204 else 0x201.

(** The button-down and button-up messages of a click, in order. *)
Definition button_pair (wh : value) (a : ClickArgs) : list call :=
  [send_message (send_of a) wh (down_of a) 1 0;
   send_message (send_of a) wh (down_of a + 1) 0 0].

Definition section_of (self : value) (a : ClickArgs) : Prog unit :=
  ClientCode.click_section self (arg_x a) (arg_y a) (send_of a) (down_of a)
    (arg_sleep a).

(** A task that has ended. *)
Definition finished {R : Type} (p : Prog R) : Prop :=
  match p with
  | Vis _ _ => False
  | _ => True
  end.

(** The answers a call can get on an instance [r] whose window handle is
    [wh] and whose hook handler is [hh]: the reads of these two attributes
    return them. *)
Definition plausible (r : ref) (wh hh : value) (c : call)
    : result (resp c) -> Prop :=
  match c as c0 return result (resp c0) -> Prop with
  | LookupAttr o n => fun res =>
      o = VRef r ->
      (n = "window_handle" -> res = Ok (Some wh)) /\
      (n = "hook_handler" -> res = Ok (Some hh))
  | _ => fun _ => True
  end.

(** Whatever the plausible answers, [p] only reads the store, and the
    button messages it sends are those of [rem], in order; [post] holds of
    the result and of what is left of [rem] when [p] returns. *)
Fixpoint emits {A : Type} (r : ref) (wh hh : value) (rem : list call)
    (post : A -> list call -> Prop) (p : Prog A) : Prop :=
  match p with
  | Ret a => post a rem
  | Throw _ => True
  | Vis c k =>
      reads_only c = true /\
      if is_button c then
        match rem with
        | c' :: rem' =>
            c = c' /\ forall res, plausible r wh hh c res -> emits r wh hh rem' post (k res)
        | [] => False
        end
      else forall res, plausible r wh hh c res -> emits r wh hh rem post (k res)
  end.

(** What lies ahead of a task that holds lock [l]: it only reads the
    store, sends the button messages of [rem] in order, releases [l] and
    ends; it ends by returning only when all of [rem] was sent. *)
Fixpoint critical (r : ref) (wh hh : value) (l : ref) (rem : list call)
    (p : Prog unit) : Prop :=
  match p with
  | Vis c k =>
      if is_release c then
        c = Release (VRef l) /\
        forall res, match k res with
                    | Ret _ => rem = []
                    | Throw _ => True
                    | Vis _ _ => False
                    end
      else
        reads_only c = true /\
        if is_button c then
          match rem with
          | c' :: rem' =>
              c = c' /\
              forall res, plausible r wh hh c res -> critical r wh hh l rem' (k res)
          | [] => False
          end
        else forall res, plausible r wh hh c res -> critical r wh hh l rem (k res)
  | _ => False
  end.

(** Where a click task stands. *)
Inductive status : Type :=
| Fresh
| Waiting
| Inside (rem : list call)
| Finished.

Definition holding (st : status) : bool :=
  match st with
  | Inside _ => true
  | _ => false
  end.

(** Task [p], called with [a] on instance [r] whose lock is [l], stands at
    [st], having sent the button messages [mine]. *)
Definition at_status (r l : ref) (wh hh : value) (a : ClickArgs) (st : status)
    (p : Prog unit) (mine : list call) : Prop :=
  match st with
  | Fresh => p = click_task (VRef r) a /\ mine = []
  | Waiting =>
      (exists k, p = Vis (Acquire (VRef l)) k /\
                 critical r wh hh l (button_pair wh a) (k (Ok tt))) /\
      mine = []
  | Inside rem => critical r wh hh l rem p /\ mine ++ rem = button_pair wh a
  | Finished =>
      finished p /\ mine `prefix_of` button_pair wh a /\
      (p = Ret tt -> mine = button_pair wh a)
  end.

Definition tag (i : nat) (m : list call) : list (nat * call) := map (pair i) m.

(** The click lock of [r] is absent and no task has started, or it is [l],
    locked exactly when a task is inside, and at most one task is. *)
Definition lock_coherent {World : Type} (s : State World) (r l : ref)
    (sti stj : status) : Prop :=
  (attr s r "click_lock" = Some VNone /\ sti = Fresh /\ stj = Fresh) \/
  (attr s r "click_lock" = Some (VRef l) /\
   locks s !! l = Some (holding sti || holding stj) /\
   holding sti && holding stj = false).

(** The button messages in the log: all those of one task, then all those
    of the other, and only the second one may still be inside. *)
Definition serial (i j : nat) (lg : list (nat * call)) (sti stj : status)
    (mi mj : list call) : Prop :=
  (buttons lg = tag i mi ++ tag j mj /\ holding sti = false) \/
  (buttons lg = tag j mj ++ tag i mi /\ holding stj = false).

(** The invariant of two click tasks [pi] and [pj] on instance [r]. *)
Definition good {World : Type} (r : ref) (wh pm hh : value) (i j : nat)
    (ai aj : ClickArgs) (pi pj : Prog unit) (s : State World)
    (lg : list (nat * call)) : Prop :=
  exists sti stj mi mj l,
    at_status r l wh hh ai sti pi mi /\
    at_status r l wh hh aj stj pj mj /\
    constructed s r wh pm hh /\
    lock_coherent s r l sti stj /\
    serial i j lg sti stj mi mj.

(** How the atomic run of [let* a := p in k a] is made of the atomic run
    of [p] and, when [p] returned, the atomic run of [k a]. *)
Definition atomic_then {World A B : Type}
    (first : list call * Prog A * State World) (k : A -> Prog B)
    (next : A -> State World -> list call * Prog B * State World)
    : list call * Prog B * State World :=
  match first with
  | (t, Ret a, s1) => let '(t', p, s2) := next a s1 in (t ++ t', p, s2)
  | (t, Throw e, s1) => (t, Throw e, s1)
  | (t, p, s1) => (t, let* a := p in k a, s1)
  end.

(** Two calls of [click] on the same instance, as two tasks of one event
    loop that have not run yet. *)
Definition two_clicks {World : Type} (r : ref) (a0 a1 : ClickArgs)
    (s : State World) : Loop World :=
  mkLoop [click_task (VRef r) a0; click_task (VRef r) a1] s [].

(** The interleaved sequence: down of the first, down of the second, up of
    the first, up of the second. *)
Definition interleaved (i j : nat) (wh : value) (ai aj : ClickArgs)
    : list (nat * call) :=
  match button_pair wh ai, button_pair wh aj with
  | [di; ui], [dj; uj] => [(i, di); (j, dj); (i, ui); (j, uj)]
  | _, _ => []
  end.

(** A left click and a right click, each held for half a second. *)
Definition demo_click0 : ClickArgs := mkClickArgs 10 20 false 0.5%float false.
Definition demo_click1 : ClickArgs := mkClickArgs 30 40 true 0.5%float true.

(** ** The public surface of [Client] and the stores it can produce *)

(** The names under which [functools.cached_property] stores a value in an
    instance of [Client]. *)
Definition cached_name (n : string) : bool :=
  String.eqb n "process_id" || String.eqb n "stats" || String.eqb n "body"
  || String.eqb n "duel" || String.eqb n "quest_position".

(** No two attributes of the instances in the store hold the same object,
    and every instance and every object held was allocated. *)
Definition owned {World : Type} (s : State World) : Prop :=
  (forall r, is_Some (objs s !! r) -> (r < next_ref s)%nat) /\
  (forall r n k, attr s r n = Some (VRef k) -> (k < next_ref s)%nat) /\
  (forall r r' n n' k,
     attr s r n = Some (VRef k) -> attr s r' n' = Some (VRef k) ->
     r = r' /\ n = n').

(** [v] is not an object, or is an allocated object that no attribute
    holds. *)
Definition storable {World : Type} (s : State World) (v : value) : Prop :=
  match v with
  | VRef k => (k < next_ref s)%nat /\ forall r n, attr s r n <> Some (VRef k)
  | _ => True
  end.

(** A use of the class: the construction of an instance, or a method or
    property of some object [self]. *)
Inductive method : Type :=
| construct (window_handle : Z)
| get_process_id (self : value)
| get_stats (self : value)
| get_body (self : value)
| get_duel (self : value)
| get_quest_position (self : value)
| call_is_running (self : value)
| call_close (self : value)
| call_in_battle (self : value)
| call_activate_hooks (self : value)
| call_login (self : value) (username password : string)
| call_send_key (self : value) (k : Keycode) (seconds : float)
| call_click (self : value) (px py : Z) (right_click : bool)
    (sleep_duration : float) (use_post : bool)
| call_set_mouse_position (self : value) (px py : Z)
    (convert_from_client use_post : bool)
| call_goto (self : value) (tx ty speed_multiplier : float)
| call_teleport (self : value) (xyz : XYZ) (yaw : option float).

Definition discard {A : Type} (p : Prog A) : Prog unit := let* _ := p in Ret tt.

Section Uses.

Variable World : Type.
Variable env : forall c : call, World -> result (resp c) * World.
Variable WIZARD_SPEED : float.
Variable calculate_perfect_yaw : XYZ -> XYZ -> result float.

Definition invoke (m : method) : Prog unit :=
  match m with
  | construct window_handle => discard (ClientCode.Client_new window_handle)
  | get_process_id self => discard (ClientCode.process_id self)
  | get_stats self => discard (ClientCode.stats self)
  | get_body self => discard (ClientCode.body self)
  | get_duel self => discard (ClientCode.duel self)
  | get_quest_position self => discard (ClientCode.quest_position self)
  | call_is_running self => discard (ClientCode.is_running self)
  | call_close self => ClientCode.close self
  | call_in_battle self => discard (ClientCode.in_battle self)
  | call_activate_hooks self => ClientCode.activate_hooks self
  | call_login self username password => ClientCode.login self username password
  | call_send_key self k seconds => ClientCode.send_key self k seconds
  | call_click self px py right_click sleep_duration use_post =>
      ClientCode.click self px py right_click sleep_duration use_post
  | call_set_mouse_position self px py convert_from_client use_post =>
      discard (ClientCode.set_mouse_position self px py convert_from_client use_post)
  | call_goto self tx ty speed_multiplier =>
      ClientCode.goto WIZARD_SPEED calculate_perfect_yaw self tx ty speed_multiplier
  | call_teleport self xyz yaw => ClientCode.teleport self xyz yaw
  end.

(** The stores reached from an empty one by uses of the class, one after
    the other. *)
Inductive reachable : State World -> Prop :=
| reachable_boot (w : World) : reachable (mkState ∅ ∅ 0%nat w)
| reachable_invoke (s : State World) (m : method) :
    reachable s -> reachable (state_after env (invoke m) s).

(** The stores that uses of the class lead to from [s]. *)
Inductive later (s : State World) : State World -> Prop :=
| later_now : later s s
| later_invoke (s' : State World) (m : method) :
    later s s' -> later s (state_after env (invoke m) s').

End Uses.

(** The remote-state accessors of [Client]. *)
Inductive property : Type := the_stats | the_body | the_duel | the_quest_position.

Definition property_name (p : property) : string :=
  match p with
  | the_stats => "stats"
  | the_body => "body"
  | the_duel => "duel"
  | the_quest_position => "quest_position"
  end.

Definition property_class (p : property) : class :=
  match p with
  | the_stats => PlayerStats
  | the_body => PlayerActorBody
  | the_duel => PlayerDuel
  | the_quest_position => CurrentQuestPosition
  end.

Definition property_get (p : property) : value -> Prog value :=
  match p with
  | the_stats => ClientCode.stats
  | the_body => ClientCode.body
  | the_duel => ClientCode.duel
  | the_quest_position => ClientCode.quest_position
  end.

(** The construction of a remote-state accessor. *)
Definition builds_view (c : call) : bool :=
  match c with New cls _ => remote_view cls | _ => false end.

(** ** Invariants of the store *)

(** An attribute [(r0, n0)] singled out, with the value it must keep. *)
Definition kept {World : Type} (keepo : option (ref * string * value))
    (s : State World) : Prop :=
  forall r0 n0 v0, keepo = Some (r0, n0, v0) -> attr s r0 n0 = Some v0.

(** Writing attribute [n] of [o] does not touch the one singled out. *)
Definition not_kept (keepo : option (ref * string * value)) (o : value)
    (n : string) : Prop :=
  forall r0 n0 v0, keepo = Some (r0, n0, v0) -> o = VRef r0 -> n = n0 -> False.

Definition kept_owned {World : Type} (keepo : option (ref * string * value))
    (s : State World) : Prop :=
  owned s /\ kept keepo s.

(** Running [p] keeps the invariant, however [p] ends. *)
Definition preserves {World A : Type}
    (env : forall c : call, World -> result (resp c) * World)
    (keepo : option (ref * string * value)) (p : Prog A) : Prop :=
  forall s, kept_owned keepo s -> kept_owned keepo (state_after env p s).

(** From a store with the invariant and [P], running [p] keeps the
    invariant, however [p] ends, and gives [Q] when [p] returns. *)
Definition triple {World A : Type}
    (env : forall c : call, World -> result (resp c) * World)
    (keepo : option (ref * string * value))
    (P : State World -> Prop) (p : Prog A) (Q : A -> State World -> Prop) : Prop :=
  forall s, kept_owned keepo s -> P s ->
    kept_owned keepo (state_after env p s) /\
    forall a, outcome_in env p s = Done a -> Q a (state_after env p s).

(** ** Further observations on traces *)

Definition is_conversion (c : call) : bool :=
  match c with ClientToScreen _ _ _ => true | _ => false end.

Definition is_attach (c : call) : bool :=
  match c with open_process_from_id _ _ => true | _ => false end.

Definition builds_handler (c : call) : bool :=
  match c with New HookHandler _ => true | _ => false end.

Definition builds_lock (c : call) : bool :=
  match c with New Lock _ => true | _ => false end.

(** ** The click lock across uses of the class *)

(** Every lock is free. *)
Definition all_free {World : Type} (s : State World) : Prop :=
  forall l b, locks s !! l = Some b -> b = false.

(** From a store where every lock is free, [p] does not wait and leaves
    every lock free, however it ends. *)
Definition calm {World A : Type}
    (env : forall c : call, World -> result (resp c) * World) (p : Prog A) : Prop :=
  forall s, all_free s ->
    all_free (state_after env p s) /\ outcome_in env p s <> Blocked.

(** The uses written with [def] and the properties, as opposed to the
    [async def] methods. *)
Definition synchronous (m : method) : bool :=
  match m with
  | construct _ | get_process_id _ | get_stats _ | get_body _ | get_duel _
  | get_quest_position _ | call_is_running _ | call_login _ _ _ => true
  | _ => false
  end.

(** The call neither suspends the task nor takes a lock. *)
Definition immediate (c : call) : bool := negb (awaited c) && negb (is_acquire c).

(** The objects [__init__] builds: the instance, its pymem and its hook
    handler. *)
Definition builds_core (c : call) : bool :=
  match c with
  | New Client _ | New Pymem _ | New HookHandler _ => true
  | _ => false
  end.

Definition is_construct (m : method) : bool :=
  match m with construct _ => true | _ => false end.

(** ** Instances in the stores the class produces *)

(** The call writes no attribute named [n] and builds no client. *)
Definition spares (n : string) (c : call) : bool :=
  match c with
  | SetAttr _ n' _ => negb (String.eqb n' n)
  | New Client _ => false
  | _ => true
  end.

(** The call writes attributes of [o] only and builds no client. *)
Definition writes_only (o : value) (c : call) : Prop :=
  match c with
  | SetAttr o' _ _ => o' = o
  | New Client _ => False
  | _ => True
  end.

(** Every instance that has a hook handler went through the whole of
    [__init__]: it has an integer window handle, a pymem, its process id
    in the cache and a [click_lock]; and every [click_lock] is [None] or a
    lock. *)
Definition well_formed {World : Type} (s : State World) : Prop :=
  (forall r hh, attr s r "hook_handler" = Some hh ->
     (exists wh, attr s r "window_handle" = Some (VInt wh)) /\
     (exists pm, attr s r "_pymem" = Some pm) /\
     (exists pid, attr s r "process_id" = Some (VInt pid)) /\
     is_Some (attr s r "click_lock")) /\
  (forall r v, attr s r "click_lock" = Some v ->
     v = VNone \/ exists l, v = VRef l /\ is_Some (locks s !! l)).

Definition is_click (m : method) : bool :=
  match m with call_click _ _ _ _ _ _ => true | _ => false end.

(** * Properties *)

Unset Implicit Arguments.

Section Proofs.
Variable World : Type.
Variable env : forall c : call, World -> result (resp c) * World.
Variable WIZARD_SPEED : float.
Variable calculate_perfect_yaw : XYZ -> XYZ -> result float.

Abbreviation State := (State World).

(** ** Runs of composite programs *)

Lemma exec_bind {A B : Type} (p : Prog A) (k : A -> Prog B) (s : State) :
  exec env (let* a := p in k a) s = and_then (exec env p s) (fun a => exec env (k a)).
Proof.
  revert s. induction p as [a|e|c k' IH]; intros s; simpl.
  - destruct (exec env (k a) s) as [[t o] s2]. reflexivity.
  - reflexivity.
  - destruct (step_call env c s) as [[r s1]|]; [|reflexivity].
    rewrite IH. destruct (exec env (k' r) s1) as [[t [a|e|]] s2]; simpl; auto.
    destruct (exec env (k a) s2) as [[t' o] s3]. reflexivity.
Qed.

Lemma exec_perform (c : call) (s : State) :
  exec env (perform c) s =
  match step_call env c s with
  | Some (r, s1) => ([c], outcome_of r, s1)
  | None => ([], Blocked, s)
  end.
Proof.
  simpl. destruct (step_call env c s) as [[[a|e] s1]|]; reflexivity.
Qed.

Lemma exec_external (c : call) (s : State) :
  is_external c = true ->
  exec env (perform c) s
  = ([c], outcome_of (env c (world s)).1, set_world s (env c (world s)).2).
Proof.
  intros H. rewrite exec_perform. destruct c; try discriminate H; reflexivity.
Qed.

Lemma exec_getattr (s : State) (r : ref) (name : string) (v : value) :
  attr s r name = Some v ->
  exec env (getattr (VRef r) name) s = ([LookupAttr (VRef r) name], Done v, s).
Proof.
  unfold attr, getattr. intros H. simpl.
  destruct (objs s !! r) as [d|]; [|discriminate]. rewrite H. reflexivity.
Qed.

(** The environment does not touch the object store. *)
Lemma attr_set_world (s : State) (w : World) (r : ref) (name : string) :
  attr (set_world s w) r name = attr s r name.
Proof. reflexivity. Qed.

Lemma cached_set_world (s : State) (w : World) (r : ref) (name : string) :
  cached (set_world s w) r name = cached s r name.
Proof. reflexivity. Qed.

(** ** What a program can issue bounds what a run issues *)

Lemma issues_weaken {R : Type} (P Q : call -> Prop) (p : Prog R) :
  (forall c, P c -> Q c) -> issues P p -> issues Q p.
Proof.
  intros HPQ. induction p as [a|e|c k IH]; simpl; auto.
  intros [Hc Hk]. split; auto.
Qed.

Lemma issues_bind {A B : Type} (P : call -> Prop) (p : Prog A) (k : A -> Prog B) :
  issues P p -> (forall a, issues P (k a)) -> issues P (let* a := p in k a).
Proof.
  intros Hp Hk. induction p as [a|e|c k' IH]; simpl in *; auto.
  destruct Hp as [Hc Hr]. split; auto.
Qed.

Lemma issues_perform (P : call -> Prop) (c : call) : P c -> issues P (perform c).
Proof. intros Hc. simpl. split; [exact Hc|]. intros [a|e]; exact I. Qed.

Lemma issues_getattr (P : call -> Prop) (o : value) (name : string) :
  P (LookupAttr o name) -> issues P (getattr o name).
Proof.
  intros Hc. unfold getattr. apply issues_bind.
  - apply issues_perform, Hc.
  - intros [v|]; exact I.
Qed.

Lemma issues_try_finally {R : Type} (P : call -> Prop) (p : Prog R) (fin : Prog unit) :
  issues P p -> issues P fin -> issues P (try_finally p fin).
Proof.
  intros Hp Hfin. induction p as [a|e|c k IH]; simpl in *.
  - apply issues_bind; simpl; auto.
  - apply issues_bind; simpl; auto.
  - destruct Hp as [Hc Hr]. split; auto.
Qed.

Lemma issues_try_except {A R : Type} (P : call -> Prop) (p : Prog A)
    (handler : exn -> option (Prog R)) (orelse : A -> Prog R) :
  issues P p ->
  (forall e h, handler e = Some h -> issues P h) ->
  (forall a, issues P (orelse a)) ->
  issues P (try_except p handler orelse).
Proof.
  intros Hp Hh Ho. induction p as [a|e|c k IH]; simpl in *; auto.
  - destruct (handler e) as [h|] eqn:E; [eauto|exact I].
  - destruct Hp as [Hc Hr]. split; auto.
Qed.

Lemma issues_cached_property (P : call -> Prop) (name : string)
    (func : value -> Prog value) (self : value) :
  P (LookupAttr self name) -> (forall v, P (SetAttr self name v)) ->
  issues P (func self) -> issues P (cached_property name func self).
Proof.
  intros HL HS Hf. unfold cached_property. apply issues_bind.
  - apply issues_perform, HL.
  - intros [v|]; [exact I|]. apply issues_bind; [exact Hf|].
    intros v. apply issues_bind; [apply issues_perform, HS|]. intros _. exact I.
Qed.

Lemma issues_trace {R : Type} (P : call -> Prop) (p : Prog R) (s : State) :
  issues P p -> Forall P (trace_of env p s).
Proof.
  unfold trace_of. revert s. induction p as [a|e|c k IH]; intros s Hp; simpl.
  - constructor.
  - constructor.
  - destruct Hp as [Hc Hr]. destruct (step_call env c s) as [[r s1]|].
    + specialize (IH r s1 (Hr r)). destruct (exec env (k r) s1) as [[t o] s2].
      simpl in *. constructor; assumption.
    + constructor.
Qed.

Lemma count_none (f : call -> bool) (t : list call) :
  Forall (fun c => f c = false) t -> count f t = 0%nat.
Proof.
  unfold count. induction 1 as [|c t Hc _ IH]; simpl; [reflexivity|].
  rewrite Hc. exact IH.
Qed.

Lemma count_app (f : call -> bool) (t u : list call) :
  count f (t ++ u) = (count f t + count f u)%nat.
Proof. unfold count. rewrite List.filter_app, length_app. reflexivity. Qed.

Lemma external_app (t u : list call) : external (t ++ u) = external t ++ external u.
Proof. apply List.filter_app. Qed.

Lemma external_cons (c : call) (t : list call) :
  external (c :: t) = if is_external c then c :: external t else external t.
Proof. reflexivity. Qed.

Lemma external_none (t : list call) :
  Forall (fun c => is_external c = false) t -> external t = [].
Proof.
  unfold external. induction 1 as [|c t Hc _ IH]; simpl; [reflexivity|].
  rewrite Hc. exact IH.
Qed.

(** A classifier of collaborator calls counts the same on the whole trace
    and on its external part. *)
Lemma count_external (f : call -> bool) (t : list call) :
  (forall c, f c = true -> is_external c = true) ->
  count f (external t) = count f t.
Proof.
  intros Hf. unfold count, external. induction t as [|c t IH]; simpl; [reflexivity|].
  destruct (is_external c) eqn:Ec; simpl.
  - destruct (f c); simpl; congruence.
  - destruct (f c) eqn:Fc; [|exact IH]. apply Hf in Fc. congruence.
Qed.

Lemma exec_try_except {A R : Type} (p : Prog A)
    (handler : exn -> option (Prog R)) (orelse : A -> Prog R) (s : State) :
  exec env (try_except p handler orelse) s =
  match exec env p s with
  | (t, Done a, s1) => let '(t', o, s2) := exec env (orelse a) s1 in (t ++ t', o, s2)
  | (t, Raised e, s1) =>
      match handler e with
      | Some h => let '(t', o, s2) := exec env h s1 in (t ++ t', o, s2)
      | None => (t, Raised e, s1)
      end
  | (t, Blocked, s1) => (t, Blocked, s1)
  end.
Proof.
  revert s. induction p as [a|e|c k IH]; intros s; simpl.
  - destruct (exec env (orelse a) s) as [[t o] s2]. reflexivity.
  - destruct (handler e) as [h|]; [|reflexivity].
    destruct (exec env h s) as [[t o] s2]. reflexivity.
  - destruct (step_call env c s) as [[r s1]|]; [|reflexivity].
    rewrite IH. destruct (exec env (k r) s1) as [[t [a|e|]] s2]; simpl; auto.
    + destruct (exec env (orelse a) s2) as [[t' o] s3]. reflexivity.
    + destruct (handler e) as [h|]; [|reflexivity].
      destruct (exec env h s2) as [[t' o] s3]. reflexivity.
Qed.

Lemma exec_try_finally {R : Type} (p : Prog R) (fin : Prog unit) (s : State) :
  exec env (try_finally p fin) s =
  match exec env p s with
  | (t, Blocked, s1) => (t, Blocked, s1)
  | (t, o, s1) => let '(t', o', s2) := exec env fin s1 in (t ++ t', finally_outcome o o', s2)
  end.
Proof.
  revert s. induction p as [a|e|c k IH]; intros s; simpl.
  - rewrite exec_bind. destruct (exec env fin s) as [[t [[]|e|]] s2]; simpl;
      rewrite ?app_nil_r; reflexivity.
  - rewrite exec_bind. destruct (exec env fin s) as [[t [[]|e'|]] s2]; simpl;
      rewrite ?app_nil_r; reflexivity.
  - destruct (step_call env c s) as [[r s1]|]; [|reflexivity].
    rewrite IH. destruct (exec env (k r) s1) as [[t [a|e|]] s2]; simpl; auto;
      destruct (exec env fin s2) as [[t' o'] s3]; reflexivity.
Qed.

(** ** Cached properties *)

Lemma attr_inv (s : State) (r : ref) (name : string) (v : value) :
  attr s r name = Some v -> exists d, objs s !! r = Some d /\ d !! name = Some v.
Proof.
  unfold attr. destruct (objs s !! r) as [d|]; [|discriminate]. eauto.
Qed.

Lemma alloc_remote_view (cls : class) (s : State) :
  remote_view cls = true ->
  alloc cls s = mkState (objs s) (locks s) (S (next_ref s)) (world s).
Proof. destruct cls; try discriminate; reflexivity. Qed.

Lemma world_touch (s : State) (r : ref) (name : string) (cls : class) :
  world (touch s r name cls) = world s.
Proof.
  unfold touch. destruct (attr s r name); [reflexivity|].
  unfold set_attr. destruct (objs (alloc cls s) !! r); destruct cls; reflexivity.
Qed.

Lemma locks_touch (s : State) (r : ref) (name : string) (cls : class) :
  remote_view cls = true -> locks (touch s r name cls) = locks s.
Proof.
  intros Hc. unfold touch. destruct (attr s r name); [reflexivity|].
  rewrite alloc_remote_view by exact Hc. unfold set_attr. simpl.
  destruct (objs s !! r); reflexivity.
Qed.

Lemma attr_touch_same (s : State) (r : ref) (name : string) (cls : class) :
  remote_view cls = true -> is_Some (objs s !! r) ->
  attr (touch s r name cls) r name = Some (cached s r name).
Proof.
  intros Hc [d Hd]. unfold touch, cached.
  destruct (attr s r name) as [v|] eqn:E; [exact E|].
  rewrite alloc_remote_view by exact Hc. unfold set_attr, attr. simpl.
  rewrite Hd. simpl. rewrite lookup_insert_eq. apply lookup_insert_eq.
Qed.

Lemma attr_touch_other (s : State) (r r' : ref) (name n : string) (cls : class) :
  remote_view cls = true -> n <> name ->
  attr (touch s r name cls) r' n = attr s r' n.
Proof.
  intros Hc Hn. unfold touch.
  destruct (attr s r name) as [v|] eqn:E; [reflexivity|].
  rewrite alloc_remote_view by exact Hc. unfold set_attr, attr. simpl.
  destruct (objs s !! r) as [d|] eqn:Hd; [|reflexivity]. simpl.
  destruct (decide (r = r')) as [->|Hr].
  - rewrite lookup_insert_eq, Hd. apply lookup_insert_ne. congruence.
  - rewrite lookup_insert_ne by exact Hr. reflexivity.
Qed.

Lemma exec_accessor (s : State) (r : ref) (name : string) (cls : class) (hh : value) :
  remote_view cls = true -> name <> "hook_handler" ->
  attr s r "hook_handler" = Some hh ->
  exec env (ClientCode.accessor name cls (VRef r)) s
  = (accessor_trace s r name cls hh, Done (cached s r name), touch s r name cls).
Proof.
  intros Hc Hn Hh. destruct (attr_inv _ _ _ _ Hh) as (d & Hd & Hdh).
  unfold ClientCode.accessor, cached_property, touch, cached, accessor_trace.
  rewrite exec_bind, exec_perform. simpl. unfold lookup_attr, attr. rewrite Hd.
  simpl. destruct (d !! name) as [v|] eqn:Ev; simpl; [reflexivity|].
  rewrite Hd, Hdh. simpl. rewrite alloc_remote_view by exact Hc.
  unfold set_attr. simpl. rewrite Hd. reflexivity.
Qed.

Lemma external_accessor_trace (s : State) (r : ref) (name : string) (cls : class)
    (hh : value) :
  external (accessor_trace s r name cls hh) = [].
Proof. unfold accessor_trace. destruct (attr s r name); reflexivity. Qed.

(** ** Frame properties *)

Lemma step_call_reads_only (c : call) (s s1 : State) (res : result (resp c)) :
  reads_only c = true -> step_call env c s = Some (res, s1) ->
  objs s1 = objs s /\ locks s1 = locks s /\ next_ref s1 = next_ref s.
Proof.
  intros Hc E. apply (f_equal (from_option snd s)) in E. simpl in E. subst s1.
  destruct c; try discriminate Hc; simpl; repeat split;
    reflexivity.
Qed.

Lemma step_call_some (c : call) (s : State) :
  is_acquire c = false -> is_Some (step_call env c s).
Proof. destruct c; try discriminate; simpl; eauto. Qed.

Lemma exec_reads_only {R : Type} (p : Prog R) (s : State) :
  issues (fun c => reads_only c = true) p ->
  objs (state_after env p s) = objs s /\
  locks (state_after env p s) = locks s /\
  next_ref (state_after env p s) = next_ref s /\
  outcome_in env p s <> Blocked.
Proof.
  unfold state_after, outcome_in. revert s.
  induction p as [a|e|c k IH]; intros s Hp; simpl; try (repeat split; congruence).
  destruct Hp as [Hc Hk].
  destruct (step_call_some c s) as [[res s1] E]; [destruct c; try discriminate; reflexivity|].
  rewrite E. destruct (step_call_reads_only _ _ _ _ Hc E) as (Ho & Hl & Hn).
  specialize (IH res s1 (Hk res)).
  destruct (exec env (k res) s1) as [[t o] s2]. simpl in *.
  rewrite <- Ho, <- Hl, <- Hn. exact IH.
Qed.

Lemma step_call_keeps (r : ref) (name : string) (c : call) (s s1 : State)
    (res : result (resp c)) :
  keeps r name c = true -> step_call env c s = Some (res, s1) ->
  attr s1 r name = attr s r name.
Proof.
  intros Hc E. apply (f_equal (from_option snd s)) in E. simpl in E. subst s1.
  destruct c; simpl; try reflexivity.
  - destruct cls; try discriminate Hc; reflexivity.
  - unfold set_attr. destruct o as [| |r']; try reflexivity.
    destruct (objs s !! r') as [d|] eqn:Hd; [|reflexivity].
    unfold attr. simpl. simpl in Hc.
    destruct (decide (r' = r)) as [->|Hr].
    + rewrite lookup_insert_eq, Hd. rewrite Nat.eqb_refl in Hc. simpl in Hc.
      apply lookup_insert_ne. intros ->. rewrite String.eqb_refl in Hc. discriminate.
    + rewrite lookup_insert_ne by exact Hr. reflexivity.
  - unfold acquire. destruct l as [| |r']; try reflexivity.
    destruct (locks s !! r') as [[]|]; reflexivity.
  - unfold release. destruct l as [| |r']; try reflexivity.
    destruct (locks s !! r') as [[]|]; reflexivity.
Qed.

Lemma exec_keeps {R : Type} (r : ref) (name : string) (p : Prog R) (s : State) :
  issues (fun c => keeps r name c = true) p ->
  attr (state_after env p s) r name = attr s r name.
Proof.
  unfold state_after. revert s.
  induction p as [a|e|c k IH]; intros s Hp; simpl; try reflexivity.
  destruct Hp as [Hc Hk].
  destruct (step_call env c s) as [[res s1]|] eqn:E; [|reflexivity].
  specialize (IH res s1 (Hk res)).
  destruct (exec env (k res) s1) as [[t o] s2]. simpl in *.
  rewrite IH. eapply step_call_keeps; eassumption.
Qed.

(** ** Symbolic runs *)

Ltac run_simpl := cbn [and_then outcome_of fst snd exec app bind].

Ltac run_getattr :=
  rewrite ?exec_bind;
  erewrite exec_getattr by (rewrite ?attr_set_world; eassumption);
  run_simpl.


Ltac external_norm :=
  repeat first [ rewrite external_app | rewrite external_cons
               | rewrite external_accessor_trace | rewrite app_nil_r ];
  cbn [is_external app].

Ltac run_perform :=
  rewrite ?exec_bind;
  match goal with
  | |- context [exec _ (perform ?c) ?s0] =>
      first
        [ rewrite (exec_perform c s0)
        | let H := fresh in
          pose proof (exec_perform c s0) as H;
          cbn [resp] in H; rewrite H; clear H ]
  end.

Ltac run_external :=
  rewrite ?exec_bind;
  match goal with
  | |- context [exec _ (perform ?c) ?s0] =>
      first
        [ rewrite (exec_external c s0) by reflexivity
        | let H := fresh in
          pose proof (exec_external c s0 eq_refl) as H;
          cbn [resp] in H; rewrite H; clear H ]
  end.

(** ** Proving what a method can issue *)

Ltac issues_step :=
  lazymatch goal with
  | |- issues _ (bind _ _) => apply issues_bind
  | |- issues _ (getattr _ _) => apply issues_getattr
  | |- issues _ (perform _) => apply issues_perform
  | |- issues _ (cached_property _ _ _) => apply issues_cached_property
  | |- issues _ (try_finally _ _) => apply issues_try_finally
  | |- issues _ (try_except _ _ _) => apply issues_try_except
  | |- issues _ (Ret _) => exact I
  | |- issues _ (Throw _) => exact I
  | |- issues _ (if ?b then _ else _) => destruct b
  | |- issues _ (match ?v with _ => _ end) => destruct v
  | |- forall _, _ => intro
  | |- _ = _ => first [reflexivity | discriminate]
  | H : Some _ = Some _ |- _ => injection H as <-
  | H : None = Some _ |- _ => discriminate H
  | H : match ?e with _ => _ end = Some _ |- _ => destruct e
  end.

Ltac issues_tac := repeat issues_step.

Lemma is_running_issues (self : value) :
  issues (fun c => is_hook_call c = false /\ reads_only c = true)
         (ClientCode.is_running self).
Proof. unfold ClientCode.is_running. repeat issues_step; split; reflexivity. Qed.

(** ** close *)

(** C3 (as amended): when [is_running()] is false, [close()] returns
    normally without any call into the hook subsystem; when it is true,
    [close()] makes exactly one such call, [hook_handler.close()], after
    the liveness check, every time it is called. *)
Theorem close_guarded (s : State) (r : ref) (hh : value) :
  attr s r "hook_handler" = Some hh ->
  (outcome_in env (ClientCode.is_running (VRef r)) s = Done false ->
     outcome_in env (ClientCode.close (VRef r)) s = Done tt /\
     count is_hook_call (trace_of env (ClientCode.close (VRef r)) s) = 0%nat) /\
  (outcome_in env (ClientCode.is_running (VRef r)) s = Done true ->
     external (trace_of env (ClientCode.close (VRef r)) s)
       = external (trace_of env (ClientCode.is_running (VRef r)) s) ++ [hook_close hh] /\
     count is_hook_call (trace_of env (ClientCode.close (VRef r)) s) = 1%nat).
Proof.
  intros Hh.
  assert (Hq : Forall (fun c => is_hook_call c = false)
                      (trace_of env (ClientCode.is_running (VRef r)) s)).
  { apply issues_trace. eapply issues_weaken; [|apply is_running_issues].
    simpl. tauto. }
  assert (Ho1 : objs (state_after env (ClientCode.is_running (VRef r)) s) = objs s).
  { apply exec_reads_only. eapply issues_weaken; [|apply is_running_issues].
    simpl. tauto. }
  unfold outcome_in, trace_of, state_after in *. unfold ClientCode.close.
  rewrite exec_bind.
  destruct (exec env (ClientCode.is_running (VRef r)) s) as [[t o] s1] eqn:E.
  simpl in Hq, Ho1. split; intros Ho; simpl in Ho; subst o; cbn [and_then negb].
  - simpl. split; [reflexivity|]. rewrite app_nil_r. apply count_none, Hq.
  - assert (Hh1 : attr s1 r "hook_handler" = Some hh).
    { unfold attr. rewrite Ho1. exact Hh. }
    rewrite exec_bind, (exec_getattr _ _ _ _ Hh1). cbn [and_then].
    run_external. simpl.
    rewrite external_app, count_app, (count_none _ _ Hq). split; reflexivity.
Qed.

(** ** in_battle *)

(** C4: [in_battle()] returns [False] when the duel-phase read raises
    [ReadingEnumFailed]; when the read succeeds it returns [False] for the
    [ended] phase and [True] for every other phase; any other exception of
    the read propagates. *)
Theorem in_battle_spec (s : State) (r : ref) (hh : value) :
  attr s r "hook_handler" = Some hh ->
  let answer := (env (duel_phase (cached s r "duel")) (world s)).1 in
  (answer = Err ReadingEnumFailed ->
     outcome_in env (ClientCode.in_battle (VRef r)) s = Done false) /\
  (forall phase, answer = Ok phase ->
     outcome_in env (ClientCode.in_battle (VRef r)) s
       = Done (match phase with ended => false | in_progress _ => true end)) /\
  (forall e, answer = Err e -> e <> ReadingEnumFailed ->
     outcome_in env (ClientCode.in_battle (VRef r)) s = Raised e).
Proof.
  intros Hh answer. subst answer.
  unfold outcome_in, ClientCode.in_battle. rewrite exec_try_except, exec_bind.
  unfold ClientCode.duel.
  rewrite (exec_accessor s r "duel" PlayerDuel hh eq_refl ltac:(discriminate) Hh).
  cbn [and_then].
  run_external. cbn [world set_world]. rewrite world_touch.
  destruct (env (duel_phase (cached s r "duel")) (world s)) as [[ph|e] w]; simpl.
  - split; [discriminate|]. split; [|discriminate].
    intros phase [= <-]. destruct ph; reflexivity.
  - split; [intros [= ->]; reflexivity|]. split; [discriminate|].
    intros e' [= <-] He. destruct e; try reflexivity. congruence.
Qed.

(** ** set_mouse_position *)

(** C7: when the conversion is requested and [ClientToScreen] returns 0,
    [set_mouse_position] raises its own [RuntimeError], and neither writes
    the remote mouse position nor sends the mouse-move message. *)
Theorem set_mouse_position_conversion_failure
    (s : State) (r : ref) (wh : value) (px py : Z) (use_post : bool) (pt : Z * Z) :
  attr s r "window_handle" = Some wh ->
  (env (ClientToScreen wh px py) (world s)).1 = Ok (0, pt) ->
  let run := exec env (ClientCode.set_mouse_position (VRef r) px py true use_post) s in
  run.1.2 = Raised (RuntimeError "Client to screen conversion failed") /\
  external run.1.1 = [ClientToScreen wh px py] /\
  count is_mouse_write run.1.1 = 0%nat /\
  count is_message run.1.1 = 0%nat.
Proof.
  intros Hw Hc run. subst run. unfold ClientCode.set_mouse_position.
  run_getattr. run_external.
  destruct (env (ClientToScreen wh px py) (world s)) as [a w]. simpl in Hc. subst a.
  simpl. repeat split.
Qed.

(** ** teleport *)

(** C6: [teleport(xyz)] makes one collaborator call, the position write of
    [xyz]; [teleport(xyz, yaw)] makes that write first and, once it has
    returned, one yaw write of [yaw]; neither injects input, and no other
    value than the ones given is written. *)
Theorem teleport_writes (s : State) (r : ref) (hh : value) (xyz : XYZ) :
  attr s r "hook_handler" = Some hh ->
  let b := cached s r "body" in
  (external (trace_of env (ClientCode.teleport (VRef r) xyz None) s)
     = [write_position b xyz] /\
   count is_position_write (trace_of env (ClientCode.teleport (VRef r) xyz None) s) = 1%nat /\
   count is_yaw_write (trace_of env (ClientCode.teleport (VRef r) xyz None) s) = 0%nat /\
   count is_input (trace_of env (ClientCode.teleport (VRef r) xyz None) s) = 0%nat) /\
  (forall yaw,
     (env (write_position b xyz) (world s)).1 = Ok tt ->
     external (trace_of env (ClientCode.teleport (VRef r) xyz (Some yaw)) s)
       = [write_position b xyz; write_yaw b yaw] /\
     count is_position_write (trace_of env (ClientCode.teleport (VRef r) xyz (Some yaw)) s) = 1%nat /\
     count is_yaw_write (trace_of env (ClientCode.teleport (VRef r) xyz (Some yaw)) s) = 1%nat /\
     count is_input (trace_of env (ClientCode.teleport (VRef r) xyz (Some yaw)) s) = 0%nat).
Proof.
  intros Hh b. subst b.
  assert (Hcount : forall t l, external t = l ->
            count is_position_write t = count is_position_write l /\
            count is_yaw_write t = count is_yaw_write l /\
            count is_input t = count is_input l).
  { intros t l <-. rewrite !count_external; [auto| |  |]; intros []; simpl; congruence. }
  assert (Hsome : is_Some (objs s !! r)).
  { destruct (attr_inv _ _ _ _ Hh) as (d & Hd & _). eauto. }
  pose proof (attr_touch_same s r "body" PlayerActorBody eq_refl Hsome) as Hb.
  assert (Hh' : attr (touch s r "body" PlayerActorBody) r "hook_handler" = Some hh).
  { rewrite attr_touch_other; [exact Hh|reflexivity|discriminate]. }
  assert (Hc : cached (touch s r "body" PlayerActorBody) r "body" = cached s r "body").
  { unfold cached at 1. rewrite Hb. reflexivity. }
  split.
  - assert (E : external (trace_of env (ClientCode.teleport (VRef r) xyz None) s)
                = [write_position (cached s r "body") xyz]).
    { unfold trace_of, ClientCode.teleport, ClientCode.body.
      rewrite exec_bind.
      rewrite (exec_accessor s r "body" PlayerActorBody hh eq_refl ltac:(discriminate) Hh).
      cbn [and_then]. run_external.
      destruct (env (write_position (cached s r "body") xyz) _) as [[[]|e] w];
        run_simpl; external_norm; reflexivity. }
    split; [exact E|]. apply Hcount in E. exact E.
  - intros yaw Hw.
    assert (E : external (trace_of env (ClientCode.teleport (VRef r) xyz (Some yaw)) s)
                = [write_position (cached s r "body") xyz; write_yaw (cached s r "body") yaw]).
    { unfold trace_of, ClientCode.teleport, ClientCode.body.
      rewrite exec_bind.
      rewrite (exec_accessor s r "body" PlayerActorBody hh eq_refl ltac:(discriminate) Hh).
      cbn [and_then]. run_external. rewrite world_touch.
      destruct (env (write_position (cached s r "body") xyz) (world s)) as [a w].
      simpl in Hw. subst a. run_simpl.
      rewrite exec_bind.
      rewrite (exec_accessor _ r "body" PlayerActorBody hh eq_refl ltac:(discriminate))
        by (rewrite attr_set_world; exact Hh').
      cbn [and_then]. run_external.
      rewrite cached_set_world, Hc.
      destruct (env (write_yaw (cached s r "body") yaw) _) as [[[]|e] w'];
        run_simpl; external_norm; reflexivity. }
    split; [exact E|]. apply Hcount in E. exact E.
Qed.

(** ** The critical section of click *)

Ltac run_answer :=
  run_external;
  match goal with
  | |- context [env ?c ?w0] => destruct (env c w0) as [[?a|?e] ?w]
  end; run_simpl.

Ltac follows_leaf :=
  lazymatch goal with
  | |- follows _ (_, _, _) =>
      unfold follows; cbn [fst snd]; external_norm; split;
      [ eexists; reflexivity | intros ?; first [discriminate | reflexivity] ]
  end.

Ltac run_if :=
  match goal with
  | |- context [exec _ (if ?b then _ else _) _] => destruct b eqn:?
  | |- context [exec _ (bind (if ?b then _ else _) _) _] => destruct b eqn:?
  end; run_simpl.

Ltac run_all := repeat first [ follows_leaf | run_getattr | run_answer | run_if ].

Lemma click_section_run (s : State) (r : ref) (wh pm hh : value) (px py : Z)
    (send : send_method) (down : Z) (d : float) :
  constructed s r wh pm hh ->
  follows (click_calls wh hh px py (converted env (world s) wh px py) send down d)
          (exec env (ClientCode.click_section (VRef r) px py send down d) s).
Proof.
  intros (Hw & Hp & Hh).
  unfold ClientCode.click_section, ClientCode.set_mouse_position, click_calls, converted.
  run_getattr. run_answer.
  - destruct a as [ret pt]. cbn [fst snd]. destruct (ret =? 0); run_simpl.
    + follows_leaf.
    + run_all.
  - follows_leaf.
Qed.

Lemma click_section_issues (self : value) (px py : Z) (send : send_method)
    (down : Z) (d : float) :
  issues (fun c => reads_only c = true)
         (ClientCode.click_section self px py send down d).
Proof.
  unfold ClientCode.click_section, ClientCode.set_mouse_position.
  repeat issues_step.
Qed.

Lemma set_attr_ok (s : State) (r : ref) (d : gmap string value) (n : string) (v : value) :
  objs s !! r = Some d ->
  set_attr (VRef r) n v s = (Ok tt, set_objs s (<[r := <[n := v]> d]> (objs s))).
Proof. intros Hd. unfold set_attr. rewrite Hd. reflexivity. Qed.

Lemma attr_set_objs_same (s : State) (r : ref) (d : gmap string value) (n : string) (v : value) :
  attr (set_objs s (<[r := <[n := v]> d]> (objs s))) r n = Some v.
Proof. unfold attr. simpl. rewrite lookup_insert_eq. apply lookup_insert_eq. Qed.

Lemma attr_set_objs_other (s : State) (r : ref) (d : gmap string value)
    (n m : string) (v : value) :
  objs s !! r = Some d -> m <> n ->
  attr (set_objs s (<[r := <[n := v]> d]> (objs s))) r m = attr s r m.
Proof.
  intros Hd Hm. unfold attr. simpl. rewrite lookup_insert_eq, Hd.
  apply lookup_insert_ne. congruence.
Qed.

(** The run of [click]: bookkeeping, the acquisition of the lock, the run
    of the critical section with the lock held, the release. *)
Lemma exec_click (s : State) (r : ref) (wh pm hh : value) (px py : Z)
    (right_click : bool) (d : float) (use_post : bool) :
  constructed s r wh pm hh -> lock_free s r ->
  let l := click_lock_of s r in
  let send := if use_post then PostMessageW else SendMessageW in
  let down := if right_click then 0x204 else 0x201 in
  exists pre s0,
    let run := exec env (ClientCode.click_section (VRef r) px py send down d) s0 in
    exec env (ClientCode.click (VRef r) px py right_click d use_post) s
    = (pre ++ Acquire (VRef l) :: run.1.1 ++ [Release (VRef l)], run.1.2,
       set_locks run.2 (<[l := false]> (locks run.2))) /\
    Forall (fun c => is_bookkeeping c = true) pre /\
    constructed s0 r wh pm hh /\ world s0 = world s /\
    locks s0 !! l = Some true.
Proof.
  intros (Hw & Hp & Hh) Hl l send down.
  assert (Hsec : forall s0, locks s0 !! l = Some true ->
    exec env (try_finally (ClientCode.click_section (VRef r) px py send down d)
                      (perform (Release (VRef l)))) s0
    = let run := exec env (ClientCode.click_section (VRef r) px py send down d) s0 in
      (run.1.1 ++ [Release (VRef l)], run.1.2,
       set_locks run.2 (<[l := false]> (locks run.2)))).
  { intros s0 Hs0. rewrite exec_try_finally.
    destruct (exec_reads_only (ClientCode.click_section (VRef r) px py send down d) s0
                (click_section_issues _ _ _ _ _ _)) as (_ & Hlk & _ & Hnb).
    unfold state_after, outcome_in in *.
    destruct (exec env (ClientCode.click_section (VRef r) px py send down d) s0)
      as [[t o] s1]. cbn [fst snd] in *.
    destruct o as [[]|e|]; [| |congruence];
      run_perform; simpl; unfold release; rewrite Hlk, Hs0; reflexivity. }
  destruct (attr_inv _ _ _ _ Hw) as (dict & Hd & _).
  unfold ClientCode.click, async_with. fold send down.
  destruct Hl as [Hnone | (l0 & Hsome & Hfree)].
  - assert (El : l = next_ref s) by (unfold l, click_lock_of; rewrite Hnone; reflexivity).
    clearbody l. subst l.
    run_getattr. run_perform. cbn [step_call and_then outcome_of].
    run_perform. cbn [step_call].
    rewrite (set_attr_ok (alloc Lock s) r dict) by exact Hd. run_simpl.
    set (s1 := set_objs (alloc Lock s) _).
    assert (H1 : attr s1 r "click_lock" = Some (VRef (next_ref s)))
      by apply attr_set_objs_same.
    assert (H2 : locks s1 !! next_ref s = Some false)
      by (simpl; apply lookup_insert_eq).
    run_getattr. run_perform. cbn [step_call]. unfold acquire. rewrite H2. run_simpl.
    rewrite Hsec by (simpl; apply lookup_insert_eq). cbv zeta. run_simpl.
    exists [LookupAttr (VRef r) "click_lock"; New Lock [];
            SetAttr (VRef r) "click_lock" (VRef (next_ref s));
            LookupAttr (VRef r) "click_lock"].
    eexists. split; [reflexivity|]. split; [repeat constructor|].
    split; [|split; [reflexivity|simpl; apply lookup_insert_eq]].
    unfold attr in Hw, Hp, Hh. rewrite Hd in Hw, Hp, Hh.
    repeat split; unfold attr; simpl; rewrite lookup_insert_eq;
      rewrite lookup_insert_ne by discriminate; assumption.
  - assert (El : l = l0) by (unfold l, click_lock_of; rewrite Hsome; reflexivity).
    clearbody l. subst l0.
    run_getattr. run_getattr. run_perform. cbn [step_call]. unfold acquire.
    rewrite Hfree. run_simpl.
    rewrite Hsec by (simpl; apply lookup_insert_eq). cbv zeta. run_simpl.
    exists [LookupAttr (VRef r) "click_lock"; LookupAttr (VRef r) "click_lock"].
    eexists. split; [reflexivity|]. split; [repeat constructor|].
    split; [|split; [reflexivity|simpl; apply lookup_insert_eq]].
    repeat split; assumption.
Qed.


Ltac destruct_inner e :=
  lazymatch e with
  | context [match ?e' with _ => _ end] => destruct_inner e'
  | context [and_then ?e' _] => destruct_inner e'
  | _ => destruct e
  end.

Lemma click_section_head (s : State) (r : ref) (wh pm hh : value) (px py : Z)
    (send : send_method) (down : Z) (d : float) :
  constructed s r wh pm hh ->
  exists rest,
    external (exec env (ClientCode.click_section (VRef r) px py send down d) s).1.1
    = ClientToScreen wh px py :: rest.
Proof.
  intros (Hw & Hp & Hh).
  unfold ClientCode.click_section, ClientCode.set_mouse_position.
  run_getattr. run_external.
  repeat (match goal with
          | |- context [and_then (_, ?o, _) _] => destruct o
          | |- context [match ?e with _ => _ end] => destruct_inner e
          end; run_simpl);
    external_norm; eexists; reflexivity.
Qed.

(** The collaborator calls and the outcome of [click] are those of its
    critical section, run with the lock held and the same collaborators. *)
Lemma click_external (s : State) (r : ref) (wh pm hh : value) (px py : Z)
    (right_click : bool) (d : float) (use_post : bool) :
  constructed s r wh pm hh -> lock_free s r ->
  exists s0,
    constructed s0 r wh pm hh /\ world s0 = world s /\
    external (trace_of env (ClientCode.click (VRef r) px py right_click d use_post) s)
    = external (exec env (ClientCode.click_section (VRef r) px py
                        (if use_post then PostMessageW else SendMessageW)
                        (if right_click then 0x204 else 0x201) d) s0).1.1 /\
    outcome_in env (ClientCode.click (VRef r) px py right_click d use_post) s
    = (exec env (ClientCode.click_section (VRef r) px py
               (if use_post then PostMessageW else SendMessageW)
               (if right_click then 0x204 else 0x201) d) s0).1.2.
Proof.
  intros Hc Hl.
  destruct (exec_click s r wh pm hh px py right_click d use_post Hc Hl)
    as (pre & s0 & E & Hpre & Hc0 & Hw0 & _).
  exists s0. split; [exact Hc0|]. split; [exact Hw0|].
  unfold trace_of, outcome_in. cbv zeta in E. rewrite E. cbn [fst snd].
  split; [|reflexivity].
  rewrite external_app, external_cons, external_app. cbn [is_external].
  rewrite app_nil_r. rewrite (external_none pre); [reflexivity|].
  eapply Forall_impl; [exact Hpre|]. intros c. unfold is_bookkeeping.
  destruct (is_external c); [discriminate|reflexivity].
Qed.

Lemma prefix_Forall (P : call -> Prop) (l full : list call) :
  l `prefix_of` full -> Forall P full -> Forall P l.
Proof. intros [k ->] H. apply Forall_app in H. tauto. Qed.

Lemma prefix_count (f : call -> bool) (l full : list call) :
  l `prefix_of` full -> (count f l <= count f full)%nat.
Proof. intros [k ->]. rewrite count_app. lia. Qed.

Lemma Forall_external (P : call -> Prop) (t : list call) :
  (forall c, is_external c = false -> P c) ->
  Forall P (external t) -> Forall P t.
Proof.
  intros Hint. unfold external. induction t as [|c t IH]; simpl; [constructor|].
  destruct (is_external c) eqn:E.
  - intros H. inversion H; subst. constructor; auto.
  - intros H. constructor; auto.
Qed.

(** ** click *)

(** C5: the collaborator calls of [click] are, in order: the conversion
    and the remote write and mouse move of [set_mouse_position], the
    button-down message, the sleep when [sleep_duration > 0], the button-up
    message.  Right button down is left button down plus 3, and button up
    is button down plus 1.  A call that raises ends the sequence there. *)
Theorem click_sequence (s : State) (r : ref) (wh pm hh : value) (px py : Z)
    (right_click : bool) (d : float) (use_post : bool) :
  constructed s r wh pm hh -> lock_free s r ->
  let left_down := 0x201 in
  let down := if right_click then left_down + 3 else left_down in
  let send := if use_post then PostMessageW else SendMessageW in
  let pt := converted env (world s) wh px py in
  let full :=
    [ClientToScreen wh px py;
     write_mouse_position hh pt.1 pt.2;
     send_message SendMessageW wh 0x200 0 0;
     send_message send wh down 1 0]
    ++ (if PrimFloat.ltb 0%float d then [sleep d] else [])
    ++ [send_message send wh (down + 1) 0 0] in
  let t := trace_of env (ClientCode.click (VRef r) px py right_click d use_post) s in
  external t `prefix_of` full /\
  (outcome_in env (ClientCode.click (VRef r) px py right_click d use_post) s = Done tt ->
   external t = full).
Proof.
  intros Hc Hl left_down down send pt full t.
  destruct (click_external s r wh pm hh px py right_click d use_post Hc Hl)
    as (s0 & Hc0 & Hw0 & Et & Eo).
  pose proof (click_section_run s0 r wh pm hh px py send
                (if right_click then 0x204 else 0x201) d Hc0) as [Hpre Hfull].
  rewrite Hw0 in Hpre, Hfull. subst t. rewrite Et, Eo.
  assert (Ed : (if right_click then 0x204 else 0x201) = down)
    by (unfold down, left_down; destruct right_click; reflexivity).
  rewrite Ed in *. split; [exact Hpre|]. intros H. exact (Hfull tt H).
Qed.

(** A program that reads only the window handle and the hook handler of
    [r] runs alike from two stores that agree on them and on the
    collaborators. *)
Lemma exec_same_handles {R : Type} (p : Prog R) (r : ref) (wh hh : value)
    (s s0 : State) :
  issues (reads_handles r) p ->
  attr s r "window_handle" = Some wh -> attr s r "hook_handler" = Some hh ->
  attr s0 r "window_handle" = Some wh -> attr s0 r "hook_handler" = Some hh ->
  world s0 = world s ->
  (exec env p s0).1 = (exec env p s).1 /\ world (exec env p s0).2 = world (exec env p s).2.
Proof.
  revert s s0. induction p as [a|e|c k IH]; intros s s0 Hp Hw Hh Hw0 Hh0 Hworld;
    try (split; [reflexivity|exact Hworld]).
  destruct Hp as [[Hro Hc] Hk].
  assert (Hstep : exists res s1 s1',
            step_call env c s = Some (res, s1) /\ step_call env c s0 = Some (res, s1') /\
            attr s1 r "window_handle" = Some wh /\ attr s1 r "hook_handler" = Some hh /\
            attr s1' r "window_handle" = Some wh /\ attr s1' r "hook_handler" = Some hh /\
            world s1' = world s1).
  { destruct c; try discriminate Hro;
      try (eexists _, (set_world s _), (set_world s0 _);
           unfold step_call, ask; rewrite Hworld;
           repeat split; first [reflexivity | assumption]).
    destruct Hc as [-> Hn].
    destruct (attr_inv _ _ _ _ Hw) as (d & Hd & Hdw).
    destruct (attr_inv _ _ _ _ Hw0) as (d0 & Hd0 & Hdw0).
    unfold attr in Hh, Hh0. rewrite Hd in Hh. rewrite Hd0 in Hh0.
    destruct Hn as [->| ->].
    - exists (Ok (Some wh)), s, s0. simpl. rewrite Hd, Hd0, Hdw, Hdw0.
      repeat split; try assumption; unfold attr; rewrite ?Hd, ?Hd0; assumption.
    - exists (Ok (Some hh)), s, s0. simpl. rewrite Hd, Hd0, Hh, Hh0.
      repeat split; try assumption; unfold attr; rewrite ?Hd, ?Hd0; assumption. }
  destruct Hstep as (res & s1 & s1' & E & E0 & H1 & H2 & H3 & H4 & H5).
  simpl. rewrite E, E0.
  destruct (IH res s1 s1' (Hk res) H1 H2 H3 H4 H5) as [Ha Hb].
  destruct (exec env (k res) s1') as [[t0 o0] s2'].
  destruct (exec env (k res) s1) as [[t o] s2]. simpl in *.
  split; [congruence|exact Hb].
Qed.

Ltac handles_step :=
  first [ issues_step | split | reflexivity | exact I
        | (left; reflexivity) | (right; reflexivity) ].

Lemma click_section_handles (r : ref) (px py : Z) (send : send_method) (down : Z)
    (d : float) :
  issues (reads_handles r) (ClientCode.click_section (VRef r) px py send down d).
Proof.
  unfold ClientCode.click_section, ClientCode.set_mouse_position.
  repeat handles_step.
Qed.

Lemma set_mouse_position_issues (self : value) (px py : Z) (conv use_post : bool) :
  issues (fun c => reads_only c = true)
         (ClientCode.set_mouse_position self px py conv use_post).
Proof. unfold ClientCode.set_mouse_position. issues_tac. Qed.

(** The critical section of [click] is [set_mouse_position(x, y)] with its
    defaults, then, once that has returned, the button calls. *)
Lemma click_section_exact (s : State) (r : ref) (wh pm hh : value) (px py : Z)
    (send : send_method) (down : Z) (d : float) :
  constructed s r wh pm hh ->
  let mouse := exec env (ClientCode.set_mouse_position (VRef r) px py true false) s in
  external (exec env (ClientCode.click_section (VRef r) px py send down d) s).1.1
  = external mouse.1.1
    ++ match mouse.1.2 with
       | Done _ => attempted env (button_calls wh send down d) (world mouse.2)
       | _ => []
       end.
Proof.
  intros (Hw & Hp & Hh) mouse. subst mouse. unfold ClientCode.click_section.
  rewrite exec_bind.
  destruct (exec_reads_only _ s (set_mouse_position_issues (VRef r) px py true false))
    as (Ho & _ & _ & _). unfold state_after in Ho.
  destruct (exec env (ClientCode.set_mouse_position (VRef r) px py true false) s)
    as [[tm om] sm]. cbn [fst snd] in *.
  destruct om as [res|e|]; cbn [and_then fst snd];
    [|rewrite app_nil_r; reflexivity|rewrite app_nil_r; reflexivity].
  assert (Hw' : attr sm r "window_handle" = Some wh)
    by (unfold attr; rewrite Ho; exact Hw).
  unfold button_calls.
  match goal with
  | |- context [exec env ?p sm] =>
      assert (Hrest : external (exec env p sm).1.1
                      = attempted env
                          ([send_message send wh down 1 0]
                           ++ (if PrimFloat.ltb 0%float d then [sleep d] else [])
                           ++ [send_message send wh (down + 1) 0 0]) (world sm))
  end.
  { run_getattr. run_external. cbn [app attempted].
    destruct (env (send_message send wh down 1 0) (world sm)) as [[a|e] w1];
      run_simpl; external_norm; [|reflexivity].
    destruct (PrimFloat.ltb 0%float d); run_simpl; cbn [app attempted].
    - run_external. cbn [world set_world].
      destruct (env (sleep d) w1) as [[[]|e] w2]; run_simpl; external_norm;
        [|reflexivity].
      run_getattr. run_external. cbn [world set_world].
      destruct (env (send_message send wh (down + 1) 0 0) w2) as [[b|e] w3];
        run_simpl; external_norm; reflexivity.
    - run_getattr. run_external. cbn [world set_world].
      destruct (env (send_message send wh (down + 1) 0 0) w1) as [[b|e] w3];
        run_simpl; external_norm; reflexivity. }
  destruct (exec env _ sm) as [[t' o] s2]. cbn [fst snd] in *.
  rewrite external_app, Hrest. reflexivity.
Qed.

(** The collaborator calls of [set_mouse_position(x, y)] with its
    defaults: the conversion; after a successful one, the write of the
    converted point; after that, the mouse move through [SendMessageW]. *)
Lemma set_mouse_position_default_calls (s : State) (r : ref) (wh pm hh : value)
    (px py : Z) :
  constructed s r wh pm hh ->
  external (exec env (ClientCode.set_mouse_position (VRef r) px py true false) s).1.1
  = ClientToScreen wh px py
    :: match env (ClientToScreen wh px py) (world s) with
       | (Ok (ret, pt), w) =>
           if ret =? 0 then []
           else attempted env [write_mouse_position hh pt.1 pt.2;
                               send_message SendMessageW wh 0x200 0 0] w
       | (Err _, _) => []
       end.
Proof.
  intros (Hw & Hp & Hh). unfold ClientCode.set_mouse_position.
  run_getattr. run_external.
  destruct (env (ClientToScreen wh px py) (world s)) as [[[ret pt]|e] w]; run_simpl;
    [|external_norm; reflexivity].
  destruct (ret =? 0); run_simpl; [external_norm; reflexivity|].
  run_getattr. run_external. cbn [world set_world attempted].
  destruct (env (write_mouse_position hh pt.1 pt.2) w) as [[res|e] w1]; run_simpl;
    [|external_norm; reflexivity].
  run_getattr. run_external. cbn [world set_world].
  destruct (env (send_message SendMessageW wh 512 0 0) w1) as [[m|e] w2]; run_simpl;
    external_norm; reflexivity.
Qed.

(** C9: whatever [use_post] is, the mouse-position step of [click] is
    [set_mouse_position(x, y)] with its defaults: the conversion is the
    first collaborator call, after a successful conversion the converted
    point is written, and after that write the mouse move goes through
    [SendMessageW]; once that step has returned, the button-down message,
    the sleep when there is one, and the button-up message are issued, each
    once the one before has returned, and the two button messages go
    through the primitive [use_post] selects.  No other collaborator call
    is made. *)
Theorem click_use_post (s : State) (r : ref) (wh pm hh : value) (px py : Z)
    (right_click : bool) (d : float) (use_post : bool) :
  constructed s r wh pm hh -> lock_free s r ->
  let send := if use_post then PostMessageW else SendMessageW in
  let down := if right_click then 0x204 else 0x201 in
  let mouse := exec env (ClientCode.set_mouse_position (VRef r) px py true false) s in
  let t := trace_of env (ClientCode.click (VRef r) px py right_click d use_post) s in
  (exists rest, external t = ClientToScreen wh px py :: rest) /\
  Forall (delivery use_post (converted env (world s) wh px py)) t /\
  external mouse.1.1
  = ClientToScreen wh px py
    :: match env (ClientToScreen wh px py) (world s) with
       | (Ok (ret, pt), w) =>
           if ret =? 0 then []
           else attempted env [write_mouse_position hh pt.1 pt.2;
                               send_message SendMessageW wh 0x200 0 0] w
       | (Err _, _) => []
       end /\
  external t
  = external mouse.1.1
    ++ match mouse.1.2 with
       | Done _ => attempted env (button_calls wh send down d) (world mouse.2)
       | _ => []
       end.
Proof.
  intros Hc Hl send down mouse t.
  destruct (click_external s r wh pm hh px py right_click d use_post Hc Hl)
    as (s0 & Hc0 & Hw0 & Et & Eo).
  subst t. split; [|split; [|split]].
  - rewrite Et. eapply click_section_head. exact Hc0.
  - apply Forall_external; [intros []; try discriminate; exact (fun _ => I)|].
    rewrite Et.
    pose proof (click_section_run s0 r wh pm hh px py
                  (if use_post then PostMessageW else SendMessageW)
                  (if right_click then 0x204 else 0x201) d Hc0) as [Hpre _].
    rewrite Hw0 in Hpre. eapply prefix_Forall; [exact Hpre|].
    unfold click_calls.
    destruct (converted env (world s) wh px py) as [a b].
    destruct right_click, use_post, (PrimFloat.ltb 0%float d);
      repeat constructor.
  - apply (set_mouse_position_default_calls s r wh pm hh px py Hc).
  - rewrite Et. fold send down.
    destruct Hc as (Hw & Hp & Hh). destruct Hc0 as (Hw1 & Hp1 & Hh1).
    destruct (exec_same_handles
                (ClientCode.click_section (VRef r) px py send down d) r wh hh s s0
                (click_section_handles r px py send down d) Hw Hh Hw1 Hh1 Hw0)
      as [Esame _].
    rewrite Esame.
    apply (click_section_exact s r wh pm hh px py send down d).
    repeat split; assumption.
Qed.

Lemma leb_zero_not_ltb (d : float) :
  PrimFloat.leb d 0%float = true -> PrimFloat.ltb 0%float d = false.
Proof.
  rewrite leb_spec, ltb_spec. change (Prim2SF 0%float) with (S754_zero false).
  destruct (Prim2SF d) as [[]|[]| |[] m e]; unfold SFleb, SFltb; simpl;
    congruence.
Qed.

(** C10: when [sleep_duration <= 0], [click] never sleeps; a sleep that
    [click] makes is of exactly [sleep_duration], which is then greater
    than zero; and a click that returns with [sleep_duration > 0] has slept
    exactly once. *)
Theorem click_sleep (s : State) (r : ref) (wh pm hh : value) (px py : Z)
    (right_click : bool) (d : float) (use_post : bool) :
  constructed s r wh pm hh -> lock_free s r ->
  let t := trace_of env (ClientCode.click (VRef r) px py right_click d use_post) s in
  (PrimFloat.leb d 0%float = true -> count is_sleep t = 0%nat) /\
  (forall d', In (sleep d') t -> d' = d /\ PrimFloat.ltb 0%float d = true) /\
  (PrimFloat.ltb 0%float d = true ->
   outcome_in env (ClientCode.click (VRef r) px py right_click d use_post) s = Done tt ->
   count is_sleep t = 1%nat).
Proof.
  intros Hc Hl t.
  destruct (click_external s r wh pm hh px py right_click d use_post Hc Hl)
    as (s0 & Hc0 & Hw0 & Et & Eo).
  pose proof (click_section_run s0 r wh pm hh px py
                (if use_post then PostMessageW else SendMessageW)
                (if right_click then 0x204 else 0x201) d Hc0) as [Hpre Hfull].
  rewrite <- Et in Hpre, Hfull. rewrite <- Eo in Hfull. fold t in Hpre, Hfull.
  assert (Hcs : count is_sleep t = count is_sleep (external t)).
  { symmetry. apply count_external. intros []; simpl; congruence. }
  split; [|split].
  - intros Hle. apply leb_zero_not_ltb in Hle.
    pose proof (prefix_count is_sleep _ _ Hpre) as Hn. rewrite <- Hcs in Hn.
    unfold click_calls in Hn. rewrite Hle in Hn. simpl in Hn. unfold count in *.
    simpl in Hn. lia.
  - intros d' Hin.
    assert (Hin' : In (sleep d') (external t)).
    { unfold external. apply List.filter_In. split; [exact Hin|reflexivity]. }
    destruct Hpre as [k Hk]. assert (Hf : In (sleep d') (external t ++ k))
      by (apply in_or_app; left; exact Hin').
    rewrite <- Hk in Hf. unfold click_calls in Hf.
    destruct (PrimFloat.ltb 0%float d); simpl in Hf;
      repeat (destruct Hf as [Hf|Hf]; try discriminate Hf); try contradiction.
    injection Hf as ->. split; reflexivity.
  - intros Hlt Ho. rewrite Hcs, (Hfull tt Ho). unfold click_calls. rewrite Hlt.
    reflexivity.
Qed.

(** ** goto *)

Lemma touch_body_facts (s : State) (r : ref) (wh pm hh : value) :
  constructed s r wh pm hh ->
  let s1 := touch s r "body" PlayerActorBody in
  constructed s1 r wh pm hh /\
  attr s1 r "body" = Some (cached s r "body") /\
  cached s1 r "body" = cached s r "body" /\
  world s1 = world s.
Proof.
  intros (Hw & Hp & Hh) s1.
  assert (Hsome : is_Some (objs s !! r)).
  { destruct (attr_inv _ _ _ _ Hh) as (d & Hd & _). eauto. }
  pose proof (attr_touch_same s r "body" PlayerActorBody eq_refl Hsome) as Hb.
  split; [|split; [exact Hb|split]].
  - unfold constructed, s1.
    rewrite !attr_touch_other by (reflexivity || discriminate). auto.
  - unfold cached at 1. fold s1 in Hb. rewrite Hb. reflexivity.
  - apply world_touch.
Qed.

(** C2: [goto] reads the position once, say [P]; with the target at
    [(x, y, P.z)] and the duration [distance(P, target) / (WIZARD_SPEED *
    speed_multiplier)], it writes the yaw from [P] to the target once and,
    once that write has returned, holds the forward key once for exactly
    that duration.  From [P = (0, 0, 0)] to [(10, 0)] the duration is
    [10 / (WIZARD_SPEED * speed_multiplier)]. *)
Theorem goto_moves (s : State) (r : ref) (wh pm hh : value)
    (tx ty speed_multiplier : float) (P : XYZ) (yaw : float) :
  constructed s r wh pm hh ->
  let b := cached s r "body" in
  (env (position b) (world s)).1 = Ok P ->
  PrimFloat.eqb (PrimFloat.mul WIZARD_SPEED speed_multiplier) 0%float = false ->
  let target := mkXYZ tx ty (z P) in
  calculate_perfect_yaw P target = Ok yaw ->
  let duration :=
    PrimFloat.div (XYZ_sub P target) (PrimFloat.mul WIZARD_SPEED speed_multiplier) in
  let t := trace_of env
             (ClientCode.goto WIZARD_SPEED calculate_perfect_yaw (VRef r) tx ty
                speed_multiplier) s in
  external t `prefix_of` [position b; write_yaw b yaw; timed_send_key wh W duration] /\
  count is_position_read t = 1%nat /\
  count is_yaw_write t = 1%nat /\
  ((env (write_yaw b yaw) (env (position b) (world s)).2).1 = Ok tt ->
   external t = [position b; write_yaw b yaw; timed_send_key wh W duration] /\
   count is_key_hold t = 1%nat) /\
  (P = mkXYZ 0%float 0%float 0%float -> tx = 10%float -> ty = 0%float ->
   duration = PrimFloat.div 10%float (PrimFloat.mul WIZARD_SPEED speed_multiplier)).
Proof.
  intros Hc b Hpos Hne target Hyaw duration t.
  destruct (touch_body_facts s r wh pm hh Hc) as ((Hw1 & Hp1 & Hh1) & Hb1 & Hc1 & Hworld).
  destruct Hc as (Hw & Hp & Hh).
  assert (Hcount : forall l, external t = l ->
            count is_position_read t = count is_position_read l /\
            count is_yaw_write t = count is_yaw_write l /\
            count is_key_hold t = count is_key_hold l).
  { intros l <-. rewrite !count_external; [auto| | |]; intros []; simpl; congruence. }
  assert (E : external t =
              match (env (write_yaw b yaw) (env (position b) (world s)).2).1 with
              | Ok _ => [position b; write_yaw b yaw; timed_send_key wh W duration]
              | Err _ => [position b; write_yaw b yaw]
              end).
  { subst t. unfold trace_of, ClientCode.goto, ClientCode.body.
    rewrite exec_bind.
    rewrite (exec_accessor s r "body" PlayerActorBody hh eq_refl ltac:(discriminate) Hh).
    run_simpl. run_external. rewrite Hworld. fold b.
    destruct (env (position b) (world s)) as [a w]. simpl in Hpos. subst a.
    run_simpl. unfold truediv. fold target. rewrite Hne. run_simpl.
    rewrite Hyaw. run_simpl.
    rewrite exec_bind.
    rewrite (exec_accessor _ r "body" PlayerActorBody hh eq_refl ltac:(discriminate))
      by (rewrite attr_set_world; exact Hh1).
    assert (Ht2 : touch (set_world (touch s r "body" PlayerActorBody) w) r "body"
                    PlayerActorBody = set_world (touch s r "body" PlayerActorBody) w).
    { unfold touch at 1. rewrite attr_set_world, Hb1. reflexivity. }
    rewrite Ht2.
    run_simpl. rewrite cached_set_world, Hc1. fold b. run_external.
    cbn [world set_world].
    destruct (env (write_yaw b yaw) w) as [[[]|e] w']; run_simpl.
    - run_getattr. run_external.
      destruct (env (timed_send_key wh W _) _) as [[[]|e] w'']; run_simpl;
        external_norm; reflexivity.
    - external_norm. reflexivity. }
  split; [|split; [|split; [|split]]].
  - rewrite E. destruct (env (write_yaw b yaw) _).1; [exists []|eexists]; reflexivity.
  - destruct (Hcount _ E) as (-> & _). destruct (env (write_yaw b yaw) _).1; reflexivity.
  - destruct (Hcount _ E) as (_ & -> & _). destruct (env (write_yaw b yaw) _).1; reflexivity.
  - intros Hy. rewrite Hy in E. split; [exact E|].
    destruct (Hcount _ E) as (_ & _ & ->). reflexivity.
  - intros -> -> ->. reflexivity.
Qed.

(** The lock discipline of one [click]: whatever the collaborators answer,
    the calls are some bookkeeping, one [Acquire], the critical section
    (no lock call in it), one [Release]; the lock is free afterwards. *)
Lemma click_lock_once (s : State) (r : ref) (wh pm hh : value) (px py : Z)
    (right_click : bool) (d : float) (use_post : bool) :
  constructed s r wh pm hh -> lock_free s r ->
  let l := click_lock_of s r in
  let run := exec env (ClientCode.click (VRef r) px py right_click d use_post) s in
  (exists pre body,
     run.1.1 = pre ++ Acquire (VRef l) :: body ++ [Release (VRef l)] /\
     Forall (fun c => is_bookkeeping c = true) pre /\
     Forall (fun c => reads_only c = true) body) /\
  count is_acquire run.1.1 = 1%nat /\
  count is_release run.1.1 = 1%nat /\
  run.1.2 <> Blocked /\
  locks run.2 !! l = Some false.
Proof.
  intros Hc Hl l run.
  destruct (exec_click s r wh pm hh px py right_click d use_post Hc Hl)
    as (pre & s0 & E & Hpre & Hc0 & Hw0 & Hl0).
  cbv zeta in E. fold l in E. subst run. rewrite E. cbn [fst snd].
  set (sec := ClientCode.click_section (VRef r) px py
                (if use_post then PostMessageW else SendMessageW)
                (if right_click then 516 else 513) d) in *.
  assert (Hbody : Forall (fun c => reads_only c = true) (exec env sec s0).1.1).
  { apply (issues_trace _ sec s0). apply click_section_issues. }
  destruct (exec_reads_only sec s0 (click_section_issues _ _ _ _ _ _)) as (_ & _ & _ & Hnb).
  assert (Hpa : count is_acquire pre = 0%nat /\ count is_release pre = 0%nat).
  { split; apply count_none; eapply Forall_impl; try exact Hpre; intros c;
      unfold is_bookkeeping; destruct (is_external c), (is_acquire c), (is_release c);
      simpl; congruence. }
  assert (Hba : count is_acquire (exec env sec s0).1.1 = 0%nat /\
                count is_release (exec env sec s0).1.1 = 0%nat).
  { split; apply count_none; eapply Forall_impl; try exact Hbody; intros [];
      simpl; congruence. }
  destruct Hpa as [Hpa Hpr]. destruct Hba as [Hba Hbr].
  split; [|split; [|split; [|split]]].
  - exists pre, (exec env sec s0).1.1. auto.
  - rewrite count_app, Hpa. change (Acquire (VRef l) :: ?t) with ([Acquire (VRef l)] ++ t).
    rewrite !count_app, Hba. reflexivity.
  - rewrite count_app, Hpr. change (Acquire (VRef l) :: ?t) with ([Acquire (VRef l)] ++ t).
    rewrite !count_app, Hbr. reflexivity.
  - exact Hnb.
  - simpl. apply lookup_insert_eq.
Qed.

(** ** Two clicks in one event loop *)

Lemma emits_bind {A B : Type} (r : ref) (wh hh : value) (rem : list call)
    (post : B -> list call -> Prop) (p : Prog A) (k : A -> Prog B) :
  emits r wh hh rem (fun a rem1 => emits r wh hh rem1 post (k a)) p ->
  emits r wh hh rem post (let* a := p in k a).
Proof.
  revert rem. induction p as [a|e|c k' IH]; intros rem; simpl; auto.
  intros [Hc Hk]. split; [exact Hc|].
  destruct (is_button c).
  - destruct rem as [|c' rem']; [contradiction|].
    destruct Hk as [-> Hk]. split; [reflexivity|]. intros res Hres. apply IH, Hk, Hres.
  - intros res Hres. apply IH, Hk, Hres.
Qed.

Lemma emits_quiet (r : ref) (wh hh : value) (rem : list call) (c : call)
    (post : resp c -> list call -> Prop) :
  reads_only c = true -> is_button c = false ->
  (forall a, post a rem) -> emits r wh hh rem post (perform c).
Proof.
  intros Hc Hb Hp. simpl. rewrite Hb. split; [exact Hc|].
  intros [a|e] _; simpl; auto.
Qed.

Lemma emits_button (r : ref) (wh hh : value) (rem : list call) (c : call)
    (post : resp c -> list call -> Prop) :
  reads_only c = true -> is_button c = true ->
  (forall a, post a rem) -> emits r wh hh (c :: rem) post (perform c).
Proof.
  intros Hc Hb Hp. simpl. rewrite Hb. split; [exact Hc|]. split; [reflexivity|].
  intros [a|e] _; simpl; auto.
Qed.

Lemma emits_window_handle (r : ref) (wh hh : value) (rem : list call)
    (post : value -> list call -> Prop) :
  post wh rem -> emits r wh hh rem post (getattr (VRef r) "window_handle").
Proof.
  intros Hp. unfold getattr. apply emits_bind. simpl. split; [reflexivity|].
  intros res Hres. destruct (Hres eq_refl) as [H _]. rewrite (H eq_refl). exact Hp.
Qed.

Lemma emits_hook_handler (r : ref) (wh hh : value) (rem : list call)
    (post : value -> list call -> Prop) :
  post hh rem -> emits r wh hh rem post (getattr (VRef r) "hook_handler").
Proof.
  intros Hp. unfold getattr. apply emits_bind. simpl. split; [reflexivity|].
  intros res Hres. destruct (Hres eq_refl) as [_ H]. rewrite (H eq_refl). exact Hp.
Qed.

Lemma emits_section (r : ref) (wh hh : value) (a : ClickArgs) :
  emits r wh hh (button_pair wh a) (fun _ rem => rem = []) (section_of (VRef r) a).
Proof.
  unfold section_of, ClientCode.click_section, ClientCode.set_mouse_position, button_pair.
  apply emits_bind. apply emits_bind. apply emits_bind.
  apply emits_window_handle. apply emits_bind.
  apply emits_quiet; [reflexivity|reflexivity|]. intros [ret pt]. cbn [fst snd].
  destruct (ret =? 0); [exact I|]. cbn [emits].
  apply emits_bind, emits_hook_handler. apply emits_bind.
  apply emits_quiet; [reflexivity|reflexivity|]. intros res.
  apply emits_bind, emits_window_handle. apply emits_bind.
  apply emits_quiet; [reflexivity|reflexivity|]. intros _. cbn [emits].
  apply emits_bind, emits_window_handle. apply emits_bind.
  apply emits_button; [reflexivity| |].
  { unfold down_of. destruct (arg_right a); reflexivity. }
  intros _. apply emits_bind.
  assert (Hs : emits r wh hh [send_message (send_of a) wh (down_of a + 1) 0 0]
            (fun (_ : unit) rem1 =>
               emits r wh hh rem1 (fun (_ : unit) rem => rem = [])
                 (let* window_handle := getattr (VRef r) "window_handle" in
                  let* _ := perform (send_message (send_of a) window_handle
                                       (down_of a + 1) 0 0) in
                  Ret tt))
            (Ret tt)).
  { cbn [emits]. apply emits_bind, emits_window_handle. apply emits_bind.
    apply emits_button; [reflexivity| |].
    { unfold down_of. destruct (arg_right a); reflexivity. }
    intros _. reflexivity. }
  destruct (PrimFloat.ltb 0%float (arg_sleep a)); [|exact Hs].
  apply emits_quiet; [reflexivity|reflexivity|]. intros _. exact Hs.
Qed.

Lemma emits_critical (r : ref) (wh hh : value) (l : ref) (rem : list call)
    (body : Prog unit) :
  emits r wh hh rem (fun _ rem1 => rem1 = []) body ->
  critical r wh hh l rem (try_finally body (perform (Release (VRef l)))).
Proof.
  revert rem. induction body as [a|e|c k IH]; intros rem; simpl.
  - intros ->. split; [reflexivity|]. intros [[]|e]; simpl; auto.
  - intros _. split; [reflexivity|]. intros [[]|e']; simpl; auto.
  - intros [Hc Hk]. destruct (is_release c) eqn:Er.
    { destruct c; discriminate. }
    split; [exact Hc|]. destruct (is_button c).
    + destruct rem as [|c' rem']; [contradiction|].
      destruct Hk as [-> Hk]. split; [reflexivity|]. intros res Hres. apply IH, Hk, Hres.
    + intros res Hres. apply IH, Hk, Hres.
Qed.

Lemma step_plausible (r : ref) (wh pm hh : value) (c : call) (s s1 : State)
    (res : result (resp c)) :
  constructed s r wh pm hh -> step_call env c s = Some (res, s1) ->
  plausible r wh hh c res.
Proof.
  intros (Hw & _ & Hh) E. destruct c; simpl; try exact I.
  simpl in E. injection E as <- _. intros ->. unfold attr in Hw, Hh. simpl.
  destruct (objs s !! r) as [d|]; [|discriminate].
  split; intros ->; congruence.
Qed.

(** A task inside its critical section, run up to its next suspension
    point: it is still inside, or it has released the lock and ended. *)
Lemma run_atomic_critical (r : ref) (wh pm hh : value) (l : ref) (p : Prog unit) :
  forall (rem : list call) (s : State),
  critical r wh hh l rem p -> constructed s r wh pm hh -> locks s !! l = Some true ->
  let run := run_atomic env p s in
  objs run.2 = objs s /\
  exists rem',
    rem = List.filter is_button run.1.1 ++ rem' /\
    ((critical r wh hh l rem' run.1.2 /\ locks run.2 !! l = Some true) \/
     (finished run.1.2 /\ locks run.2 !! l = Some false /\
      (run.1.2 = Ret tt -> rem' = []))).
Proof.
  induction p as [a|e|c k IH]; intros rem s Hcr Hc Hl; try contradiction.
  cbn [run_atomic]. destruct (awaited c) eqn:Ea.
  { cbn [fst snd]. split; [reflexivity|]. exists rem. split; [reflexivity|]. left. auto. }
  cbn [critical] in Hcr. destruct (is_release c) eqn:Er.
  - destruct Hcr as [-> Hk]. cbn [step_call]. unfold release. rewrite Hl.
    specialize (Hk (Ok tt)).
    destruct (k (Ok tt)) as [[]|e|c' k'] eqn:Ek; try contradiction; cbn [run_atomic fst snd].
    + split; [reflexivity|]. exists rem. split; [reflexivity|]. right.
      split; [exact I|]. split; [simpl; apply lookup_insert_eq|]. intros _. exact Hk.
    + split; [reflexivity|]. exists rem. split; [reflexivity|]. right.
      split; [exact I|]. split; [simpl; apply lookup_insert_eq|]. discriminate.
  - destruct Hcr as [Hro Hk].
    destruct (step_call_some c s) as [[res s1] E];
      [destruct c; try discriminate; reflexivity|].
    rewrite E.
    destruct (step_call_reads_only c s s1 res Hro E) as (Ho & Hlk & _).
    pose proof (step_plausible r wh pm hh c s s1 res Hc E) as Hpl.
    assert (Hc1 : constructed s1 r wh pm hh).
    { unfold constructed, attr in *. rewrite Ho. exact Hc. }
    assert (Hl1 : locks s1 !! l = Some true) by (rewrite Hlk; exact Hl).
    destruct (is_button c) eqn:Eb.
    + destruct rem as [|c' rem1]; [contradiction|]. destruct Hk as [<- Hk].
      specialize (IH res rem1 s1 (Hk res Hpl) Hc1 Hl1).
      destruct (run_atomic env (k res) s1) as [[t p'] s']. cbn [fst snd] in *.
      destruct IH as (Ho' & rem' & -> & Hd). split; [congruence|].
      exists rem'. split; [simpl; rewrite Eb; reflexivity|]. exact Hd.
    + specialize (IH res rem s1 (Hk res Hpl) Hc1 Hl1).
      destruct (run_atomic env (k res) s1) as [[t p'] s']. cbn [fst snd] in *.
      destruct IH as (Ho' & rem' & -> & Hd). split; [congruence|].
      exists rem'. split; [simpl; rewrite Eb; reflexivity|]. exact Hd.
Qed.

Lemma resume_critical (r : ref) (wh pm hh : value) (l : ref) (p : Prog unit)
    (rem : list call) (s : State) :
  critical r wh hh l rem p -> constructed s r wh pm hh -> locks s !! l = Some true ->
  exists run,
    resume env p s = Some run /\
    objs run.2 = objs s /\
    exists rem',
      rem = List.filter is_button run.1.1 ++ rem' /\
      ((critical r wh hh l rem' run.1.2 /\ locks run.2 !! l = Some true) \/
       (finished run.1.2 /\ locks run.2 !! l = Some false /\
        (run.1.2 = Ret tt -> rem' = []))).
Proof.
  intros Hcr Hc Hl. destruct p as [a|e|c k]; try contradiction.
  cbn [critical] in Hcr. cbn [resume]. destruct (is_release c) eqn:Er.
  - destruct Hcr as [-> Hk]. cbn [step_call]. unfold release. rewrite Hl.
    specialize (Hk (Ok tt)).
    destruct (k (Ok tt)) as [[]|e|c' k'] eqn:Ek; try contradiction;
      cbn [run_atomic]; eexists; (split; [reflexivity|]); cbn [fst snd];
      (split; [reflexivity|]); exists rem; (split; [reflexivity|]); right;
      (split; [exact I|]); (split; [simpl; apply lookup_insert_eq|]).
    + intros _. exact Hk.
    + discriminate.
  - destruct Hcr as [Hro Hk].
    destruct (step_call_some c s) as [[res s1] E];
      [destruct c; try discriminate; reflexivity|].
    rewrite E.
    destruct (step_call_reads_only c s s1 res Hro E) as (Ho & Hlk & _).
    pose proof (step_plausible r wh pm hh c s s1 res Hc E) as Hpl.
    assert (Hc1 : constructed s1 r wh pm hh).
    { unfold constructed, attr in *. rewrite Ho. exact Hc. }
    assert (Hl1 : locks s1 !! l = Some true) by (rewrite Hlk; exact Hl).
    destruct (is_button c) eqn:Eb.
    + destruct rem as [|c' rem1]; [contradiction|]. destruct Hk as [<- Hk].
      pose proof (run_atomic_critical r wh pm hh l (k res) rem1 s1 (Hk res Hpl) Hc1 Hl1)
        as IH.
      destruct (run_atomic env (k res) s1) as [[t p'] s']. cbn [fst snd] in *.
      destruct IH as (Ho' & rem' & -> & Hd). eexists. split; [reflexivity|].
      cbn [fst snd]. split; [congruence|].
      exists rem'. split; [simpl; rewrite Eb; reflexivity|]. exact Hd.
    + pose proof (run_atomic_critical r wh pm hh l (k res) rem s1 (Hk res Hpl) Hc1 Hl1)
        as IH.
      destruct (run_atomic env (k res) s1) as [[t p'] s']. cbn [fst snd] in *.
      destruct IH as (Ho' & rem' & -> & Hd). eexists. split; [reflexivity|].
      cbn [fst snd]. split; [congruence|].
      exists rem'. split; [simpl; rewrite Eb; reflexivity|]. exact Hd.
Qed.

Lemma run_atomic_bind {A B : Type} (p : Prog A) (k : A -> Prog B) (s : State) :
  run_atomic env (let* a := p in k a) s
  = atomic_then (run_atomic env p s) k (fun a => run_atomic env (k a)).
Proof.
  revert s. induction p as [a|e|c k' IH]; intros s; cbn [bind run_atomic atomic_then].
  - destruct (run_atomic env (k a) s) as [[t p] s2]. reflexivity.
  - reflexivity.
  - destruct (awaited c); [reflexivity|].
    destruct (step_call env c s) as [[res s1]|]; [|reflexivity].
    rewrite IH. destruct (run_atomic env (k' res) s1) as [[t [a|e|c' k'']] s2];
      cbn [atomic_then]; try reflexivity.
    destruct (run_atomic env (k a) s2) as [[t' p'] s3]. reflexivity.
Qed.

Lemma run_atomic_getattr (s : State) (r : ref) (name : string) (v : value) :
  attr s r name = Some v ->
  run_atomic env (getattr (VRef r) name) s = ([LookupAttr (VRef r) name], Ret v, s).
Proof.
  unfold attr, getattr. intros H. simpl.
  destruct (objs s !! r) as [d|]; [|discriminate]. rewrite H. reflexivity.
Qed.

Lemma resume_run_atomic {R : Type} (c : call) (k : result (resp c) -> Prog R) (s : State) :
  awaited c = false -> is_Some (step_call env c s) ->
  resume env (Vis c k) s = Some (run_atomic env (Vis c k) s).
Proof.
  intros Ha [[res s1] E]. cbn [resume run_atomic]. rewrite Ha, E.
  destruct (run_atomic env (k res) s1) as [[t p] s2]. reflexivity.
Qed.

Lemma run_atomic_perform (c : call) (s : State) :
  awaited c = false ->
  run_atomic env (perform c) s
  = match step_call env c s with
    | Some (res, s1) => ([c], match res with Ok a => Ret a | Err e => Throw e end, s1)
    | None => ([], perform c, s)
    end.
Proof.
  intros Ha. unfold perform. cbn [run_atomic]. rewrite Ha.
  destruct (step_call env c s) as [[[a|e] s1]|]; reflexivity.
Qed.

Ltac atomic_perform :=
  rewrite ?run_atomic_bind;
  match goal with
  | |- context [run_atomic _ (perform ?c) ?s0] =>
      first
        [ rewrite (run_atomic_perform c s0 eq_refl)
        | let H := fresh in
          pose proof (run_atomic_perform c s0 eq_refl) as H;
          cbn [resp] in H; rewrite H; clear H ]
  end.

Ltac atomic_getattr :=
  rewrite ?run_atomic_bind;
  erewrite run_atomic_getattr by eassumption;
  cbn [atomic_then app bind].

(** The first run of a click task: it finds the lock held and waits for
    it, or it takes the lock (creating it when absent) and runs on inside
    the critical section. *)
Lemma resume_fresh (s : State) (r : ref) (wh pm hh : value) (a : ClickArgs) :
  constructed s r wh pm hh ->
  (forall l, attr s r "click_lock" = Some (VRef l) -> locks s !! l = Some true ->
     resume env (click_task (VRef r) a) s
     = Some ([LookupAttr (VRef r) "click_lock"; LookupAttr (VRef r) "click_lock"],
             async_with (VRef l) (section_of (VRef r) a), s)) /\
  (lock_free s r ->
   exists pre s1,
     let l := click_lock_of s r in
     let run := run_atomic env (try_finally (section_of (VRef r) a)
                                  (perform (Release (VRef l)))) s1 in
     resume env (click_task (VRef r) a) s = Some (pre ++ run.1.1, run.1.2, run.2) /\
     List.filter is_button pre = [] /\
     constructed s1 r wh pm hh /\
     attr s1 r "click_lock" = Some (VRef l) /\
     locks s1 !! l = Some true).
Proof.
  intros Hc. pose proof Hc as (Hw & Hp & Hh).
  destruct (attr_inv _ _ _ _ Hw) as (dict & Hd & _).
  assert (Hres : resume env (click_task (VRef r) a) s
                 = Some (run_atomic env (click_task (VRef r) a) s)).
  { eapply (resume_run_atomic (LookupAttr (VRef r) "click_lock")); [reflexivity|].
    simpl. eauto. }
  rewrite Hres. clear Hres. unfold click_task, ClientCode.click. split.
  - intros l Hl Hlocked. atomic_getattr. atomic_getattr.
    unfold async_with. atomic_perform. cbn [step_call]. unfold acquire. rewrite Hlocked.
    reflexivity.
  - intros [Hnone | (l0 & Hsome & Hfree)].
    + assert (El : click_lock_of s r = next_ref s)
        by (unfold click_lock_of; rewrite Hnone; reflexivity).
      rewrite El. atomic_getattr.
      atomic_perform. cbn [step_call atomic_then app bind].
      atomic_perform. cbn [step_call].
      rewrite (set_attr_ok (alloc Lock s) r dict) by exact Hd.
      cbn [atomic_then app bind].
      set (s1 := set_objs (alloc Lock s) _).
      assert (H1 : attr s1 r "click_lock" = Some (VRef (next_ref s)))
        by apply attr_set_objs_same.
      assert (H2 : locks s1 !! next_ref s = Some false)
        by (simpl; apply lookup_insert_eq).
      atomic_getattr. unfold async_with. atomic_perform. cbn [step_call].
      unfold acquire. rewrite H2. cbn [atomic_then app bind].
      exists [LookupAttr (VRef r) "click_lock"; New Lock [];
              SetAttr (VRef r) "click_lock" (VRef (next_ref s));
              LookupAttr (VRef r) "click_lock"; Acquire (VRef (next_ref s))].
      exists (set_locks s1 (<[next_ref s := true]> (locks s1))).
      unfold section_of, send_of, down_of.
      match goal with
      | |- context [run_atomic env ?q ?s0] =>
          destruct (run_atomic env q s0) as [[t p] s2]
      end. cbn [fst snd app].
      split; [reflexivity|]. split; [reflexivity|].
      unfold attr in Hw, Hp, Hh. rewrite Hd in Hw, Hp, Hh.
      split; [|split; [exact H1|simpl; apply lookup_insert_eq]].
      repeat split; unfold attr; simpl; rewrite lookup_insert_eq;
        rewrite lookup_insert_ne by discriminate; assumption.
    + assert (El : click_lock_of s r = l0)
        by (unfold click_lock_of; rewrite Hsome; reflexivity).
      rewrite El. atomic_getattr. atomic_getattr.
      unfold async_with. atomic_perform. cbn [step_call].
      unfold acquire. rewrite Hfree. cbn [atomic_then app bind].
      exists [LookupAttr (VRef r) "click_lock"; LookupAttr (VRef r) "click_lock";
              Acquire (VRef l0)].
      exists (set_locks s (<[l0 := true]> (locks s))).
      unfold section_of, send_of, down_of.
      match goal with
      | |- context [run_atomic env ?q ?s0] =>
          destruct (run_atomic env q s0) as [[t p] s2]
      end. cbn [fst snd app].
      split; [reflexivity|]. split; [reflexivity|].
      split; [exact Hc|]. split; [exact Hsome|simpl; apply lookup_insert_eq].
Qed.

Lemma buttons_app (lg : list (nat * call)) (i : nat) (t : list call) :
  buttons (lg ++ tag i t) = buttons lg ++ tag i (List.filter is_button t).
Proof.
  unfold buttons, tag. rewrite List.filter_app. f_equal.
  induction t as [|c t IH]; simpl; [reflexivity|].
  destruct (is_button c); simpl; rewrite IH; reflexivity.
Qed.

Lemma tag_app (i : nat) (m n : list call) : tag i (m ++ n) = tag i m ++ tag i n.
Proof. apply map_app. Qed.

Lemma good_sym (r : ref) (wh pm hh : value) (i j : nat) (ai aj : ClickArgs)
    (pi pj : Prog unit) (s : State) (lg : list (nat * call)) :
  good r wh pm hh i j ai aj pi pj s lg -> good r wh pm hh j i aj ai pj pi s lg.
Proof.
  intros (sti & stj & mi & mj & l & Hi & Hj & Hc & Hl & Hs).
  exists stj, sti, mj, mi, l.
  split; [exact Hj|]. split; [exact Hi|]. split; [exact Hc|]. split.
  - destruct Hl as [(H1 & H2 & H3) | (H1 & H2 & H3)]; [left; auto|right].
    rewrite orb_comm, andb_comm. auto.
  - destruct Hs as [H | H]; [right | left]; exact H.
Qed.

(** The invariant after task [i] ran inside its critical section. *)
Lemma good_after (r : ref) (wh pm hh : value) (i j : nat) (ai aj : ClickArgs)
    (pi' pj : Prog unit) (s' : State) (lg' : list (nat * call))
    (l : ref) (stj : status) (mi' mj rem' : list call) :
  at_status r l wh hh aj stj pj mj -> holding stj = false ->
  constructed s' r wh pm hh -> attr s' r "click_lock" = Some (VRef l) ->
  buttons lg' = tag j mj ++ tag i mi' ->
  mi' ++ rem' = button_pair wh ai ->
  ((critical r wh hh l rem' pi' /\ locks s' !! l = Some true) \/
   (finished pi' /\ locks s' !! l = Some false /\ (pi' = Ret tt -> rem' = []))) ->
  good r wh pm hh i j ai aj pi' pj s' lg'.
Proof.
  intros Hj Hhj Hc Hl Hb Hm [[Hcr Hlk] | (Hf & Hlk & Hr)].
  - exists (Inside rem'), stj, mi', mj, l.
    split; [split; assumption|]. split; [exact Hj|]. split; [exact Hc|]. split.
    + right. rewrite Hhj. simpl. auto.
    + right. auto.
  - exists Finished, stj, mi', mj, l.
    split; [|split; [exact Hj|split; [exact Hc|split]]].
    + split; [exact Hf|]. split.
      * exists rem'. symmetry. exact Hm.
      * intros E. rewrite (Hr E), app_nil_r in Hm. exact Hm.
    + right. rewrite Hhj. simpl. auto.
    + right. auto.
Qed.

Lemma constructed_objs (s s' : State) (r : ref) (wh pm hh : value) :
  objs s' = objs s -> constructed s r wh pm hh -> constructed s' r wh pm hh.
Proof. intros Ho. unfold constructed, attr. rewrite Ho. auto. Qed.

(** Task [i] takes the lock and runs on inside its critical section. *)
Lemma enter_section (r : ref) (wh pm hh : value) (i j : nat) (ai aj : ClickArgs)
    (q pj : Prog unit) (s1 : State) (lg : list (nat * call)) (pre : list call)
    (l : ref) (stj : status) (mj : list call) :
  critical r wh hh l (button_pair wh ai) q ->
  constructed s1 r wh pm hh -> locks s1 !! l = Some true ->
  attr s1 r "click_lock" = Some (VRef l) ->
  at_status r l wh hh aj stj pj mj -> holding stj = false ->
  buttons lg = tag j mj -> List.filter is_button pre = [] ->
  let run := run_atomic env q s1 in
  good r wh pm hh i j ai aj run.1.2 pj run.2 (lg ++ tag i (pre ++ run.1.1)).
Proof.
  intros Hcr Hc Hl Ha Hj Hhj Hb Hpre run.
  destruct (run_atomic_critical r wh pm hh l q _ s1 Hcr Hc Hl) as (Ho & rem' & Hrem & Hd).
  fold run in Ho, Hrem, Hd.
  apply (good_after r wh pm hh i j ai aj _ pj _ _ l stj
           (List.filter is_button run.1.1) mj rem'); try assumption.
  - eapply constructed_objs; eassumption.
  - unfold attr. rewrite Ho. exact Ha.
  - rewrite buttons_app, List.filter_app, Hpre, Hb. reflexivity.
  - symmetry. exact Hrem.
Qed.

Lemma serial_quiet (i j : nat) (lg : list (nat * call)) (sti sti' stj : status)
    (mj : list call) (t : list call) :
  holding sti' = holding sti -> List.filter is_button t = [] ->
  serial i j lg sti stj [] mj -> serial i j (lg ++ tag i t) sti' stj [] mj.
Proof.
  intros Hh Ht [[Hb H] | [Hb H]]; [left | right];
    rewrite buttons_app, Ht, Hb; simpl; rewrite ?app_nil_r;
    (split; [reflexivity | congruence]).
Qed.

Lemma serial_empty (i j : nat) (lg : list (nat * call)) (sti stj : status)
    (mj : list call) :
  serial i j lg sti stj [] mj -> buttons lg = tag j mj.
Proof. intros [[-> _] | [-> _]]; simpl; rewrite ?app_nil_r; reflexivity. Qed.

(** One scheduling of task [i] keeps the invariant. *)
Lemma good_step (r : ref) (wh pm hh : value) (i j : nat) (ai aj : ClickArgs)
    (pi pj pi' : Prog unit) (s s' : State) (lg : list (nat * call)) (t : list call) :
  good r wh pm hh i j ai aj pi pj s lg ->
  resume env pi s = Some (t, pi', s') ->
  good r wh pm hh i j ai aj pi' pj s' (lg ++ tag i t).
Proof.
  intros (sti & stj & mi & mj & l & Hi & Hj & Hc & Hl & Hs) Hres.
  destruct sti as [| |rem|].
  - (* the task starts *)
    destruct Hi as [-> ->].
    destruct (resume_fresh s r wh pm hh ai Hc) as [Hheld Hfree].
    assert (Henter : lock_free s r -> holding stj = false ->
              (forall l', attr s r "click_lock" = Some (VRef l') -> l' = l) ->
              (attr s r "click_lock" = Some VNone -> stj = Fresh) ->
              good r wh pm hh i j ai aj pi' pj s' (lg ++ tag i t)).
    { intros Hlf Hhj Hsame Hnone.
      destruct (Hfree Hlf) as (pre & s1 & E & Hpre & Hc1 & Ha1 & Hl1).
      cbv zeta in E. rewrite E in Hres. injection Hres as <- <- <-.
      apply (enter_section r wh pm hh i j ai aj
               (try_finally (section_of (VRef r) ai)
                  (perform (Release (VRef (click_lock_of s r)))))
               pj s1 lg pre (click_lock_of s r) stj mj);
        try assumption.
      - apply emits_critical, emits_section.
      - destruct Hlf as [Hn | (l0 & Hs0 & _)].
        + rewrite (Hnone Hn) in Hj |- *. exact Hj.
        + unfold click_lock_of. rewrite Hs0, (Hsame l0 Hs0). exact Hj.
      - eapply serial_empty. exact Hs. }
    destruct Hl as [(Hn & _ & ->) | (Hsome & Hlk & Hone)].
    + apply Henter; [left; exact Hn|reflexivity| |auto].
      intros l' H. rewrite Hn in H. discriminate H.
    + simpl in Hlk. destruct (holding stj) eqn:Ehj.
      * rewrite (Hheld l Hsome Hlk) in Hres. injection Hres as <- <- <-.
        exists Waiting, stj, [], mj, l.
        split; [|split; [exact Hj|split; [exact Hc|split]]].
        -- split; [|reflexivity]. unfold async_with. eexists. split; [reflexivity|].
           cbn [bind]. apply emits_critical, emits_section.
        -- right. rewrite Ehj. auto.
        -- apply (serial_quiet i j lg Fresh Waiting stj mj); [reflexivity|reflexivity|exact Hs].
      * apply Henter; [right; eauto|reflexivity| |].
        -- intros l' H. rewrite Hsome in H. injection H as ->. reflexivity.
        -- intros H. rewrite Hsome in H. discriminate H.
  - (* the task was waiting for the lock *)
    destruct Hi as [(k & -> & Hcr) ->].
    destruct Hl as [(_ & H & _) | (Hsome & Hlk & Hone)]; [discriminate H|].
    simpl in Hlk. cbn [resume step_call] in Hres. unfold acquire in Hres.
    rewrite Hlk in Hres. destruct (holding stj) eqn:Ehj; [discriminate Hres|].
    set (s1 := set_locks s (<[l := true]> (locks s))) in Hres.
    pose proof (enter_section r wh pm hh i j ai aj (k (Ok tt)) pj s1 lg
                  [Acquire (VRef l)] l stj mj Hcr) as H.
    destruct (run_atomic env (k (Ok tt)) s1) as [[t1 p1] s2].
    injection Hres as <- <- <-. apply H; try assumption; try reflexivity.
    + simpl. apply lookup_insert_eq.
    + eapply serial_empty. exact Hs.
  - (* the task is inside its critical section *)
    destruct Hi as [Hcr Hm].
    destruct Hl as [(_ & H & _) | (Hsome & Hlk & Hone)]; [discriminate H|].
    simpl in Hlk, Hone.
    destruct Hs as [[_ H] | [Hb Hhj]]; [discriminate H|].
    destruct (resume_critical r wh pm hh l pi rem s Hcr Hc Hlk)
      as (run & E & Ho & rem' & Hrem & Hd).
    rewrite E in Hres. injection Hres as ->. cbn [fst snd] in *.
    apply (good_after r wh pm hh i j ai aj _ pj _ _ l stj
             (mi ++ List.filter is_button t) mj rem'); try assumption.
    + eapply constructed_objs; eassumption.
    + unfold attr. rewrite Ho. exact Hsome.
    + rewrite buttons_app, Hb, tag_app, app_assoc. reflexivity.
    + rewrite <- app_assoc, <- Hrem. exact Hm.
  - (* the task has ended *)
    destruct Hi as [Hf _]. destruct pi; [discriminate Hres|discriminate Hres|contradiction].
Qed.

Lemma schedule_task_good (r : ref) (wh pm hh : value) (a0 a1 : ClickArgs)
    (i : nat) (L : Loop World) :
  (exists p0 p1, tasks L = [p0; p1] /\
                 good r wh pm hh 0 1 a0 a1 p0 p1 (shared L) (log L)) ->
  exists p0 p1, tasks (schedule_task env i L) = [p0; p1] /\
                good r wh pm hh 0 1 a0 a1 p0 p1
                  (shared (schedule_task env i L)) (log (schedule_task env i L)).
Proof.
  intros (p0 & p1 & Ht & Hg). unfold schedule_task. rewrite Ht.
  destruct i as [|[|i]]; simpl.
  - destruct (resume env p0 (shared L)) as [[[t p'] s']|] eqn:E.
    + exists p', p1. split; [reflexivity|]. simpl.
      apply (good_step r wh pm hh 0 1 a0 a1 p0 p1 p' (shared L) s' (log L) t Hg E).
    + exists p0, p1. auto.
  - destruct (resume env p1 (shared L)) as [[[t p'] s']|] eqn:E.
    + exists p0, p'. split; [reflexivity|]. simpl.
      apply good_sym.
      apply (good_step r wh pm hh 1 0 a1 a0 p1 p0 p' (shared L) s' (log L) t
               (good_sym _ _ _ _ _ _ _ _ _ _ _ _ Hg) E).
    + exists p0, p1. auto.
  - exists p0, p1. auto.
Qed.

Lemma run_schedule_good (r : ref) (wh pm hh : value) (a0 a1 : ClickArgs)
    (schedule : list nat) (L : Loop World) :
  (exists p0 p1, tasks L = [p0; p1] /\
                 good r wh pm hh 0 1 a0 a1 p0 p1 (shared L) (log L)) ->
  exists p0 p1, tasks (run_schedule env schedule L) = [p0; p1] /\
                good r wh pm hh 0 1 a0 a1 p0 p1
                  (shared (run_schedule env schedule L))
                  (log (run_schedule env schedule L)).
Proof.
  unfold run_schedule. revert L.
  induction schedule as [|i schedule IH]; intros L H; simpl; [exact H|].
  apply IH, schedule_task_good, H.
Qed.

Lemma two_clicks_good (s : State) (r : ref) (wh pm hh : value) (a0 a1 : ClickArgs) :
  constructed s r wh pm hh -> lock_free s r ->
  good r wh pm hh 0 1 a0 a1 (click_task (VRef r) a0) (click_task (VRef r) a1) s [].
Proof.
  intros Hc Hl. exists Fresh, Fresh, [], [], (click_lock_of s r).
  split; [split; reflexivity|]. split; [split; reflexivity|]. split; [exact Hc|].
  split; [|left; split; reflexivity].
  destruct Hl as [Hn | (l & Hs & Hf)]; [left; auto|right].
  unfold click_lock_of. rewrite Hs. auto.
Qed.

Lemma status_prefix (r l : ref) (wh hh : value) (a : ClickArgs) (st : status)
    (p : Prog unit) (m : list call) :
  at_status r l wh hh a st p m ->
  m `prefix_of` button_pair wh a /\ (p = Ret tt -> m = button_pair wh a).
Proof.
  destruct st as [| |rem|]; simpl.
  - intros [-> ->]. split; [apply prefix_nil|]. discriminate.
  - intros [(k & -> & _) ->]. split; [apply prefix_nil|]. discriminate.
  - intros [Hcr <-]. split; [exists rem; reflexivity|]. intros ->. contradiction.
  - intros (_ & Hp & Hr). auto.
Qed.

Lemma serial_not_interleaved (i j : nat) (wh : value) (ai aj : ClickArgs)
    (mi mj : list call) :
  i <> j ->
  mi `prefix_of` button_pair wh ai -> mj `prefix_of` button_pair wh aj ->
  tag i mi ++ tag j mj <> interleaved i j wh ai aj /\
  tag j mj ++ tag i mi <> interleaved i j wh ai aj.
Proof.
  intros Hij [ki Hi] [kj Hj]. unfold interleaved, button_pair in *.
  destruct mi as [|? [|? [|? ?]]], mj as [|? [|? [|? ?]]]; simpl in *;
    try discriminate Hi; try discriminate Hj;
    split; intros H; try discriminate H;
    injection H; intros; subst; try congruence.
Qed.

(** C1: a call of [click] takes the click lock exactly once, before any
    collaborator call, and releases it exactly once however the critical
    section ends, also when sending a message raises; the lock is free
    afterwards.  Two calls of [click] on the same instance running as tasks
    of one event loop, under any schedule: the button messages in the log
    are all those of one task followed by all those of the other, each a
    prefix of that task's down/up pair and the whole pair when the task
    returned; the interleaved order down, down, up, up never occurs. *)
Theorem click_lock_serialises (s : State) (r : ref) (wh pm hh : value) :
  constructed s r wh pm hh -> lock_free s r ->
  (forall (px py : Z) (right_click : bool) (d : float) (use_post : bool),
     let l := click_lock_of s r in
     let run := exec env (ClientCode.click (VRef r) px py right_click d use_post) s in
     (exists pre body,
        run.1.1 = pre ++ Acquire (VRef l) :: body ++ [Release (VRef l)] /\
        Forall (fun c => is_bookkeeping c = true) pre /\
        Forall (fun c => reads_only c = true) body) /\
     count is_acquire run.1.1 = 1%nat /\
     count is_release run.1.1 = 1%nat /\
     run.1.2 <> Blocked /\
     locks run.2 !! l = Some false) /\
  (forall (a0 a1 : ClickArgs) (schedule : list nat),
     let L := run_schedule env schedule (two_clicks r a0 a1 s) in
     exists m0 m1,
       (buttons (log L) = tag 0 m0 ++ tag 1 m1 \/
        buttons (log L) = tag 1 m1 ++ tag 0 m0) /\
       m0 `prefix_of` button_pair wh a0 /\
       m1 `prefix_of` button_pair wh a1 /\
       (tasks L !! 0%nat = Some (Ret tt) -> m0 = button_pair wh a0) /\
       (tasks L !! 1%nat = Some (Ret tt) -> m1 = button_pair wh a1) /\
       buttons (log L) <> interleaved 0 1 wh a0 a1 /\
       buttons (log L) <> interleaved 1 0 wh a1 a0).
Proof.
  intros Hc Hl. split.
  - intros px py right_click d use_post.
    apply (click_lock_once s r wh pm hh px py right_click d use_post Hc Hl).
  - intros a0 a1 schedule L.
    destruct (run_schedule_good r wh pm hh a0 a1 schedule (two_clicks r a0 a1 s))
      as (p0 & p1 & Ht & sti & stj & m0 & m1 & l & H0 & H1 & _ & _ & Hs).
    { exists (click_task (VRef r) a0), (click_task (VRef r) a1).
      split; [reflexivity|]. apply two_clicks_good; assumption. }
    fold L in Ht, Hs.
    destruct (status_prefix _ _ _ _ _ _ _ _ H0) as [Hp0 Hr0].
    destruct (status_prefix _ _ _ _ _ _ _ _ H1) as [Hp1 Hr1].
    destruct (serial_not_interleaved 0 1 wh a0 a1 m0 m1 ltac:(discriminate) Hp0 Hp1)
      as [Ha Hb].
    destruct (serial_not_interleaved 1 0 wh a1 a0 m1 m0 ltac:(discriminate) Hp1 Hp0)
      as [Ha' Hb'].
    exists m0, m1. rewrite Ht. simpl.
    split; [destruct Hs as [[-> _] | [-> _]]; auto|].
    split; [exact Hp0|]. split; [exact Hp1|].
    split; [intros [= ->]; auto|]. split; [intros [= ->]; auto|].
    destruct Hs as [[-> _] | [-> _]]; auto.
Qed.

(** ** Cached properties and ownership *)

Section Keeping.

Variable keepo : option (ref * string * value).
Hypothesis keep_cached :
  forall r0 n0 v0, keepo = Some (r0, n0, v0) -> cached_name n0 = true.

Lemma kept_owned_frame (s s' : State) :
  objs s' = objs s -> next_ref s' = next_ref s ->
  kept_owned keepo s -> kept_owned keepo s'.
Proof.
  intros Ho Hn [(H1 & H2 & H3) Hk]. unfold kept_owned, owned, kept, attr in *.
  rewrite Ho, Hn. auto.
Qed.

Lemma state_after_bind {A B : Type} (p : Prog A) (k : A -> Prog B) (s : State) :
  state_after env (let* a := p in k a) s
  = match outcome_in env p s with
    | Done a => state_after env (k a) (state_after env p s)
    | _ => state_after env p s
    end.
Proof.
  unfold state_after, outcome_in. rewrite exec_bind.
  destruct (exec env p s) as [[t [a|e|]] s1]; simpl; try reflexivity.
  destruct (exec env (k a) s1) as [[t' o] s2]. reflexivity.
Qed.

Lemma preserves_bind {A B : Type} (p : Prog A) (k : A -> Prog B) :
  preserves env keepo p -> (forall a, preserves env keepo (k a)) ->
  preserves env keepo (let* a := p in k a).
Proof.
  intros Hp Hk s Hs. rewrite state_after_bind.
  destruct (outcome_in env p s); auto. apply Hk, Hp, Hs.
Qed.

Lemma preserves_ret {A : Type} (a : A) : preserves env keepo (Ret a).
Proof. intros s Hs. exact Hs. Qed.

Lemma preserves_throw {A : Type} (e : exn) : preserves env keepo (@Throw A e).
Proof. intros s Hs. exact Hs. Qed.

Lemma preserves_discard {A : Type} (p : Prog A) :
  preserves env keepo p -> preserves env keepo (discard p).
Proof. intros Hp. apply preserves_bind; [exact Hp|]. intros a. apply preserves_ret. Qed.

Lemma preserves_reads_only {A : Type} (p : Prog A) :
  issues (fun c => reads_only c = true) p -> preserves env keepo p.
Proof.
  intros Hp s Hs. destruct (exec_reads_only p s Hp) as (Ho & _ & Hn & _).
  eapply kept_owned_frame; eassumption.
Qed.

Lemma preserves_try_finally {A : Type} (p : Prog A) (fin : Prog unit) :
  preserves env keepo p -> preserves env keepo fin ->
  preserves env keepo (try_finally p fin).
Proof.
  intros Hp Hf s Hs. specialize (Hp s Hs). unfold state_after in *.
  rewrite exec_try_finally.
  destruct (exec env p s) as [[t o] s1]. simpl in Hp.
  specialize (Hf s1 Hp). unfold state_after in Hf.
  destruct o as [a|e|]; [| |exact Hp];
    destruct (exec env fin s1) as [[t' o'] s2]; exact Hf.
Qed.

Lemma preserves_try_except {A R : Type} (p : Prog A)
    (handler : exn -> option (Prog R)) (orelse : A -> Prog R) :
  preserves env keepo p ->
  (forall e h, handler e = Some h -> preserves env keepo h) ->
  (forall a, preserves env keepo (orelse a)) ->
  preserves env keepo (try_except p handler orelse).
Proof.
  intros Hp Hh Ho s Hs. specialize (Hp s Hs). unfold state_after in *.
  rewrite exec_try_except.
  destruct (exec env p s) as [[t [a|e|]] s1]; simpl in Hp; [| |exact Hp].
  - specialize (Ho a s1 Hp). unfold state_after in Ho.
    destruct (exec env (orelse a) s1) as [[t' o] s2]. exact Ho.
  - destruct (handler e) as [h|] eqn:E; [|exact Hp].
    specialize (Hh e h E s1 Hp). unfold state_after in Hh.
    destruct (exec env h s1) as [[t' o] s2]. exact Hh.
Qed.

Lemma preserves_lock (c : call) :
  is_acquire c = true \/ is_release c = true -> preserves env keepo (perform c).
Proof.
  intros Hc s Hs. unfold state_after. rewrite exec_perform.
  destruct c; try (destruct Hc; discriminate); simpl.
  - unfold acquire. destruct l as [| |k]; try exact Hs.
    destruct (locks s !! k) as [[]|]; exact Hs.
  - unfold release. destruct l as [| |k]; try exact Hs.
    destruct (locks s !! k) as [[]|]; exact Hs.
Qed.

Lemma attr_set_objs (s : State) (r r' : ref) (d : gmap string value)
    (n n' : string) (v : value) :
  objs s !! r = Some d ->
  attr (set_objs s (<[r := <[n := v]> d]> (objs s))) r' n'
  = if decide (r' = r /\ n' = n) then Some v else attr s r' n'.
Proof.
  intros Hd. unfold attr. simpl. destruct (decide (r' = r /\ n' = n)) as [[-> ->]|Hne].
  - rewrite lookup_insert_eq. apply lookup_insert_eq.
  - destruct (decide (r' = r)) as [->|Hr].
    + rewrite lookup_insert_eq, Hd. apply lookup_insert_ne. intros ->. apply Hne. auto.
    + rewrite lookup_insert_ne by congruence. reflexivity.
Qed.

Lemma kept_owned_set_attr (s : State) (o : value) (n : string) (v : value) :
  kept_owned keepo s -> storable s v -> not_kept keepo o n ->
  kept_owned keepo (set_attr o n v s).2.
Proof.
  intros [(H1 & H2 & H3) Hk] Hv Hnk. unfold set_attr.
  pose proof (conj (conj H1 (conj H2 H3)) Hk : kept_owned keepo s) as Hs.
  destruct o as [| |r]; try exact Hs.
  destruct (objs s !! r) as [d|] eqn:Hd; [|exact Hs].
  cbn [snd]. split; [split; [|split]|].
  - intros r' Hr'. simpl in Hr' |- *. destruct (decide (r' = r)) as [E|Hne].
    + subst r'. apply H1. exists d. exact Hd.
    + rewrite lookup_insert_ne in Hr' by congruence. apply H1, Hr'.
  - intros r' n' k. rewrite (attr_set_objs s r r' d n n' v Hd). simpl.
    destruct (decide (r' = r /\ n' = n)); [|apply H2].
    intros [= ->]. apply Hv.
  - intros r1 r2 n1 n2 k.
    rewrite (attr_set_objs s r r1 d n n1 v Hd), (attr_set_objs s r r2 d n n2 v Hd).
    destruct (decide (r1 = r /\ n1 = n)) as [[-> ->]|N1],
             (decide (r2 = r /\ n2 = n)) as [[-> ->]|N2]; auto.
    + intros [= ->] H. exfalso. exact (proj2 Hv _ _ H).
    + intros H [= ->]. exfalso. exact (proj2 Hv _ _ H).
    + apply H3.
  - intros r0 n0 v0 E. rewrite (attr_set_objs s r r0 d n n0 v Hd).
    destruct (decide (r0 = r /\ n0 = n)) as [[-> ->]|N]; [|apply (Hk _ _ _ E)].
    exfalso. exact (Hnk _ _ _ E eq_refl eq_refl).
Qed.

Lemma attr_alloc (cls : class) (s : State) (r : ref) (n : string) :
  (forall r', is_Some (objs s !! r') -> (r' < next_ref s)%nat) ->
  attr (alloc cls s) r n = attr s r n.
Proof.
  intros H1. destruct cls; try reflexivity. unfold attr. simpl.
  destruct (decide (r = next_ref s)) as [->|Hne].
  - rewrite lookup_insert_eq.
    match goal with
    | |- context [match ?x with _ => _ end] => destruct x as [d|] eqn:E
    end; [|reflexivity].
    assert (next_ref s < next_ref s)%nat by (apply H1; exists d; exact E). lia.
  - rewrite lookup_insert_ne by congruence. reflexivity.
Qed.

Lemma kept_owned_alloc (cls : class) (s : State) :
  kept_owned keepo s ->
  kept_owned keepo (alloc cls s) /\
  storable (alloc cls s) (VRef (next_ref s)) /\
  (forall r0 n0 v0, keepo = Some (r0, n0, v0) -> r0 <> next_ref s).
Proof.
  intros [(H1 & H2 & H3) Hk].
  assert (Hn : next_ref (alloc cls s) = S (next_ref s)) by (destruct cls; reflexivity).
  assert (Ha : forall r n, attr (alloc cls s) r n = attr s r n)
    by (intros; apply attr_alloc, H1).
  split; [split; [split; [|split]|]|split].
  - intros r Hr. rewrite Hn.
    destruct (decide (r = next_ref s)) as [->|Hne]; [lia|].
    assert (is_Some (objs s !! r)).
    { destruct cls; try exact Hr. simpl in Hr.
      rewrite lookup_insert_ne in Hr by congruence. exact Hr. }
    specialize (H1 r H). lia.
  - intros r n k. rewrite Ha, Hn. intros H. specialize (H2 _ _ _ H). lia.
  - intros r r' n n' k. rewrite !Ha. apply H3.
  - intros r0 n0 v0 E. rewrite Ha. apply (Hk _ _ _ E).
  - simpl. rewrite Hn. split; [lia|]. intros r n. rewrite Ha. intros H.
    specialize (H2 _ _ _ H). lia.
  - intros r0 n0 v0 E ->. destruct (attr_inv _ _ _ _ (Hk _ _ _ E)) as (d & Hd & _).
    assert (next_ref s < next_ref s)%nat by (apply H1; exists d; exact Hd). lia.
Qed.

Lemma outcome_in_bind {A B : Type} (p : Prog A) (k : A -> Prog B) (s : State) :
  outcome_in env (let* a := p in k a) s
  = match outcome_in env p s with
    | Done a => outcome_in env (k a) (state_after env p s)
    | Raised e => Raised e
    | Blocked => Blocked
    end.
Proof.
  unfold state_after, outcome_in. rewrite exec_bind.
  destruct (exec env p s) as [[t [a|e|]] s1]; simpl; try reflexivity.
  destruct (exec env (k a) s1) as [[t' o] s2]. reflexivity.
Qed.

Lemma triple_bind {A B : Type} (P : State -> Prop) (Q : A -> State -> Prop)
    (R : B -> State -> Prop) (p : Prog A) (k : A -> Prog B) :
  triple env keepo P p Q -> (forall a, triple env keepo (Q a) (k a) R) ->
  triple env keepo P (let* a := p in k a) R.
Proof.
  intros Hp Hk s Hs HP. destruct (Hp s Hs HP) as [H1 H2].
  rewrite state_after_bind, outcome_in_bind.
  destruct (outcome_in env p s) as [a|e|] eqn:E.
  - apply Hk; auto.
  - split; [exact H1|discriminate].
  - split; [exact H1|discriminate].
Qed.

Lemma triple_preserves {A : Type} (p : Prog A) (Q : A -> State -> Prop) :
  triple env keepo (fun _ => True) p Q -> preserves env keepo p.
Proof. intros H s Hs. apply (H s Hs I). Qed.

Lemma preserves_triple {A : Type} (P : State -> Prop) (p : Prog A) :
  preserves env keepo p -> triple env keepo P p (fun _ _ => True).
Proof. intros H s Hs _. split; [apply H, Hs|auto]. Qed.

Lemma preserves_perform (c : call) :
  reads_only c = true -> preserves env keepo (perform c).
Proof. intros H. apply preserves_reads_only, issues_perform, H. Qed.

Lemma preserves_getattr (o : value) (n : string) : preserves env keepo (getattr o n).
Proof. apply preserves_reads_only, issues_getattr. reflexivity. Qed.

(** A construction gives an object that no attribute holds yet, and leaves
    every attribute as it was. *)
Lemma triple_new (cls : class) (args : list value) (r : ref) (n : string)
    (x : option value) :
  triple env keepo (fun s => attr s r n = x) (perform (New cls args))
    (fun v s => storable s v /\ attr s r n = x).
Proof.
  intros s Hs Hx. unfold state_after, outcome_in. rewrite exec_perform. simpl.
  destruct (kept_owned_alloc cls s Hs) as (H1 & H2 & _).
  split; [exact H1|]. intros a [= <-]. split; [exact H2|].
  rewrite attr_alloc; [exact Hx|]. apply Hs.
Qed.

Lemma preserves_new (cls : class) (args : list value) :
  preserves env keepo (perform (New cls args)).
Proof.
  intros s Hs.
  apply (triple_new cls args 0%nat "" (attr s 0%nat "") s Hs eq_refl).
Qed.

Lemma triple_set_attr (o : value) (n : string) (v : value) :
  triple env keepo
    (fun s => storable s v /\ (not_kept keepo o n \/ forall r, o = VRef r -> attr s r n = None))
    (perform (SetAttr o n v)) (fun _ _ => True).
Proof.
  intros s Hs [Hv Hn]. unfold state_after, outcome_in. rewrite exec_perform. simpl.
  split; [|auto].
  destruct (set_attr o n v s) as [res s1] eqn:E.
  change s1 with (res, s1).2. rewrite <- E.
  apply kept_owned_set_attr; [exact Hs|exact Hv|].
  destruct Hn as [Hn|Hn]; [exact Hn|].
  intros r0 n0 v0 Ek Eo En. subst o n. specialize (Hn r0 eq_refl).
  rewrite (proj2 Hs _ _ _ Ek) in Hn. discriminate.
Qed.

Lemma not_kept_plain (o : value) (n : string) : cached_name n = false -> not_kept keepo o n.
Proof using keep_cached.
  intros Hn r0 n0 v0 Ek _ ->. rewrite (keep_cached _ _ _ Ek) in Hn. discriminate.
Qed.

(** [self.name = cls(args)] followed by [rest], for a plain attribute. *)
Lemma preserves_new_set {B : Type} (cls : class) (args : list value) (o : value)
    (n : string) (rest : value -> Prog B) :
  cached_name n = false -> (forall v, preserves env keepo (rest v)) ->
  preserves env keepo
    (let* v := perform (New cls args) in
     let* _ := perform (SetAttr o n v) in rest v).
Proof using keep_cached.
  intros Hn Hrest. eapply triple_preserves.
  eapply triple_bind with (Q := fun v s => storable s v).
  - intros s Hs _.
    destruct (triple_new cls args 0%nat n (attr s 0%nat n) s Hs eq_refl) as [H1 H2].
    split; [exact H1|]. intros a Ha. apply (H2 a Ha).
  - intros v. eapply triple_bind with (Q := fun _ _ => True).
    + intros s Hs Hv. apply (triple_set_attr o n v s Hs).
      split; [exact Hv|left; apply not_kept_plain, Hn].
    + intros _. apply preserves_triple, Hrest.
Qed.

Lemma preserves_new_store (cls : class) (args : list value) (o : value) (n : string) :
  cached_name n = false ->
  preserves env keepo
    (let* v := perform (New cls args) in perform (SetAttr o n v)).
Proof using keep_cached.
  intros Hn. eapply triple_preserves with (Q := fun _ _ => True).
  eapply triple_bind with (Q := fun v s => storable s v).
  - intros s Hs _.
    destruct (triple_new cls args 0%nat n (attr s 0%nat n) s Hs eq_refl) as [H1 H2].
    split; [exact H1|]. intros a Ha. apply (H2 a Ha).
  - intros v s Hs Hv. apply (triple_set_attr o n v s Hs).
    split; [exact Hv|left; apply not_kept_plain, Hn].
Qed.

Lemma preserves_set_plain {B : Type} (o : value) (n : string) (v : value)
    (rest : Prog B) :
  cached_name n = false -> (forall k, v <> VRef k) -> preserves env keepo rest ->
  preserves env keepo (let* _ := perform (SetAttr o n v) in rest).
Proof using keep_cached.
  intros Hn Hv Hrest. eapply triple_preserves.
  eapply triple_bind with (Q := fun _ _ => True).
  - intros s Hs _. apply (triple_set_attr o n v s Hs).
    split; [|left; apply not_kept_plain, Hn].
    destruct v as [| |k]; try exact I. exfalso. exact (Hv k eq_refl).
  - intros _. apply preserves_triple, Hrest.
Qed.

Lemma preserves_set_value (o : value) (n : string) (v : value) :
  cached_name n = false -> (forall k, v <> VRef k) ->
  preserves env keepo (perform (SetAttr o n v)).
Proof using keep_cached.
  intros Hn Hv. eapply triple_preserves with (Q := fun _ _ => True).
  intros s Hs _. apply (triple_set_attr o n v s Hs).
  split; [|left; apply not_kept_plain, Hn].
  destruct v as [| |k]; try exact I. exfalso. exact (Hv k eq_refl).
Qed.

(** [functools.cached_property], for a [func] that returns a value nothing
    holds and writes no attribute. *)
Lemma preserves_cached_property (name : string) (func : value -> Prog value)
    (self : value) :
  (forall r, triple env keepo (fun s => attr s r name = None) (func (VRef r))
               (fun v s => storable s v /\ attr s r name = None)) ->
  preserves env keepo (cached_property name func self).
Proof.
  intros Hf s Hs. unfold cached_property. rewrite state_after_bind.
  unfold outcome_in at 1, state_after at 2 3. rewrite exec_perform. simpl.
  destruct (lookup_attr self name s) as [[v|]|e] eqn:E; simpl; try exact Hs.
  assert (Hr : exists r, self = VRef r /\ attr s r name = None).
  { unfold lookup_attr in E. destruct self as [| |r]; try discriminate.
    exists r. split; [reflexivity|]. unfold attr.
    destruct (objs s !! r); [congruence|reflexivity]. }
  destruct Hr as (r & -> & Hnone).
  assert (Ht : triple env keepo (fun s => attr s r name = None)
                 (let* v := func (VRef r) in
                  let* _ := perform (SetAttr (VRef r) name v) in Ret v)
                 (fun _ _ => True)).
  { eapply triple_bind; [apply Hf|]. intros v.
    eapply triple_bind with (Q := fun _ _ => True).
    - intros s1 Hs1 [Hv Hn1]. apply (triple_set_attr (VRef r) name v s1 Hs1).
      split; [exact Hv|right]. intros r' [= <-]. exact Hn1.
    - intros _. apply preserves_triple, preserves_ret. }
  apply (Ht s Hs Hnone).
Qed.

Lemma preserves_process_id (self : value) :
  preserves env keepo (ClientCode.process_id self).
Proof.
  apply preserves_cached_property. intros r s Hs Hn.
  set (p := let* window_handle := getattr (VRef r) "window_handle" in
            let* pid := perform (get_pid_from_handle window_handle) in
            Ret (VInt pid)).
  assert (Hp : issues (fun c => reads_only c = true) p)
    by (unfold p; issues_tac).
  destruct (exec_reads_only p s Hp) as (Ho & _ & Hnx & _).
  split.
  - apply (preserves_reads_only p Hp s Hs).
  - intros a Ha. split.
    + unfold p in Ha. rewrite outcome_in_bind in Ha.
      destruct (outcome_in env (getattr (VRef r) "window_handle") s); try discriminate.
      rewrite outcome_in_bind in Ha.
      destruct (outcome_in env (perform (get_pid_from_handle r0)) _); try discriminate.
      unfold outcome_in in Ha. simpl in Ha. injection Ha as <-. exact I.
    + unfold attr. rewrite Ho. exact Hn.
Qed.

Lemma preserves_accessor (name : string) (cls : class) (self : value) :
  preserves env keepo (ClientCode.accessor name cls self).
Proof.
  apply preserves_cached_property. intros r.
  eapply triple_bind with (Q := fun _ s => attr s r name = None).
  - intros s Hs Hn.
    assert (Hp : issues (fun c => reads_only c = true) (getattr (VRef r) "hook_handler"))
      by issues_tac.
    destruct (exec_reads_only _ s Hp) as (Ho & _ & _ & _).
    split; [apply (preserves_reads_only _ Hp s Hs)|].
    intros _ _. unfold attr. rewrite Ho. exact Hn.
  - intros hh. apply triple_new.
Qed.

Ltac keeps_step :=
  lazymatch goal with
  | |- preserves _ _ (ClientCode.process_id _) => apply preserves_process_id
  | |- preserves _ _ (ClientCode.accessor _ _ _) => apply preserves_accessor
  | |- preserves _ _ (discard _) => apply preserves_discard
  | |- preserves _ _ (bind (perform (New _ _)) _) =>
      first [ apply preserves_new_store; reflexivity
            | apply preserves_new_set; [reflexivity|] ]
  | |- preserves _ _ (bind (perform (SetAttr _ _ _)) _) =>
      apply preserves_set_plain; [reflexivity|discriminate|]
  | |- preserves _ _ (bind _ _) => apply preserves_bind
  | |- preserves _ _ (getattr _ _) => apply preserves_getattr
  | |- preserves _ _ (perform (SetAttr _ _ _)) =>
      apply preserves_set_value; [reflexivity|discriminate]
  | |- preserves _ _ (perform (Acquire ?l)) =>
      exact (preserves_lock (Acquire l) (or_introl eq_refl))
  | |- preserves _ _ (perform (Release ?l)) =>
      exact (preserves_lock (Release l) (or_intror eq_refl))
  | |- preserves _ _ (perform ?c) => exact (preserves_perform c eq_refl)
  | |- preserves _ _ (try_finally _ _) => apply preserves_try_finally
  | |- preserves _ _ (try_except _ _ _) => apply preserves_try_except
  | |- preserves _ _ (truediv _ _) => unfold truediv
  | |- preserves _ _ (async_with _ _) => unfold async_with
  | |- preserves _ _ (Ret _) => apply preserves_ret
  | |- preserves _ _ (Throw _) => apply preserves_throw
  | |- preserves _ _ (if ?b then _ else _) => destruct b
  | |- preserves _ _ (match ?v with _ => _ end) => destruct v
  | |- forall _, _ => intro; cbn [resp] in *
  | H : Some _ = Some _ |- _ => injection H as <-
  | H : None = Some _ |- _ => discriminate H
  | H : match ?e with _ => _ end = Some _ |- _ => destruct e
  end.

Lemma preserves_init (self : value) (window_handle : Z) :
  preserves env keepo (ClientCode.Client_init self window_handle).
Proof using keep_cached.
  unfold ClientCode.Client_init. repeat keeps_step.
Qed.

Lemma preserves_invoke (m : method) :
  preserves env keepo (invoke WIZARD_SPEED calculate_perfect_yaw m).
Proof using keep_cached.
  destruct m; unfold invoke.
  - unfold ClientCode.Client_new. apply preserves_discard.
    apply preserves_bind; [apply preserves_new|]. intros self.
    apply preserves_bind; [apply preserves_init|]. intros _. apply preserves_ret.
  - repeat keeps_step.
  - unfold ClientCode.stats. repeat keeps_step.
  - unfold ClientCode.body. repeat keeps_step.
  - unfold ClientCode.duel. repeat keeps_step.
  - unfold ClientCode.quest_position. repeat keeps_step.
  - unfold ClientCode.is_running. repeat keeps_step.
  - unfold ClientCode.close, ClientCode.is_running. repeat keeps_step.
  - unfold ClientCode.in_battle, ClientCode.duel. repeat keeps_step.
  - unfold ClientCode.activate_hooks. repeat keeps_step.
  - unfold ClientCode.login. repeat keeps_step.
  - unfold ClientCode.send_key. repeat keeps_step.
  - unfold ClientCode.click, ClientCode.click_section, ClientCode.set_mouse_position.
    repeat keeps_step.
  - unfold ClientCode.set_mouse_position. repeat keeps_step.
  - unfold ClientCode.goto, ClientCode.body. repeat keeps_step.
  - unfold ClientCode.teleport, ClientCode.body. repeat keeps_step.
Qed.

End Keeping.

(** ** The cached properties *)

Lemma state_after_discard {A : Type} (p : Prog A) (s : State) :
  state_after env (discard p) s = state_after env p s.
Proof.
  unfold discard. rewrite state_after_bind.
  destruct (outcome_in env p s); reflexivity.
Qed.

Lemma reachable_owned (s : State) :
  reachable env WIZARD_SPEED calculate_perfect_yaw s -> owned s.
Proof.
  induction 1 as [w|s m _ IH].
  - split; [|split].
    + intros r [d Hd]. simpl in Hd. rewrite lookup_empty in Hd. discriminate.
    + intros r n k H. unfold attr in H. simpl in H. rewrite lookup_empty in H.
      discriminate.
    + intros r r' n n' k H. unfold attr in H. simpl in H. rewrite lookup_empty in H.
      discriminate.
  - assert (Hnone : forall (r0 : ref) (n0 : string) (v0 : value),
               @None (ref * string * value) = Some (r0, n0, v0) ->
               cached_name n0 = true) by discriminate.
    apply (preserves_invoke None Hnone m s). split; [exact IH|]. discriminate.
Qed.

Lemma later_kept_owned (keepo : option (ref * string * value)) (s s' : State) :
  (forall r0 n0 v0, keepo = Some (r0, n0, v0) -> cached_name n0 = true) ->
  kept_owned keepo s -> later env WIZARD_SPEED calculate_perfect_yaw s s' ->
  kept_owned keepo s'.
Proof.
  intros Hc Hs. induction 1 as [|s' m _ IH]; [exact Hs|].
  apply (preserves_invoke keepo Hc m s' IH).
Qed.

Lemma exec_process_id_hit (s : State) (r : ref) (v : value) :
  attr s r "process_id" = Some v ->
  exec env (ClientCode.process_id (VRef r)) s
  = ([LookupAttr (VRef r) "process_id"], Done v, s).
Proof.
  intros H. destruct (attr_inv _ _ _ _ H) as (d & Hd & Hv).
  unfold ClientCode.process_id, cached_property.
  rewrite exec_bind, exec_perform. simpl. rewrite Hd, Hv. reflexivity.
Qed.

Lemma exec_process_id_miss (s : State) (r : ref) (wh : value) :
  attr s r "process_id" = None -> attr s r "window_handle" = Some wh ->
  exec env (ClientCode.process_id (VRef r)) s
  = match env (get_pid_from_handle wh) (world s) with
    | (Ok pid, w) =>
        ([LookupAttr (VRef r) "process_id"; LookupAttr (VRef r) "window_handle";
          get_pid_from_handle wh; SetAttr (VRef r) "process_id" (VInt pid)],
         Done (VInt pid),
         (set_attr (VRef r) "process_id" (VInt pid) (set_world s w)).2)
    | (Err e, w) =>
        ([LookupAttr (VRef r) "process_id"; LookupAttr (VRef r) "window_handle";
          get_pid_from_handle wh],
         Raised e, set_world s w)
    end.
Proof.
  intros Hn Hw. destruct (attr_inv _ _ _ _ Hw) as (d & Hd & Hdw).
  unfold attr in Hn. rewrite Hd in Hn.
  unfold ClientCode.process_id, cached_property, getattr. simpl.
  rewrite Hd, Hn. simpl. rewrite Hd, Hdw. simpl. unfold ask.
  destruct (env (get_pid_from_handle wh) (world s)) as [[pid|e] w]; simpl.
  - rewrite Hd. reflexivity.
  - reflexivity.
Qed.

Lemma exec_accessor_again (s : State) (r : ref) (name : string) (cls : class)
    (hh : value) :
  remote_view cls = true -> name <> "hook_handler" ->
  attr s r "hook_handler" = Some hh ->
  exec env (ClientCode.accessor name cls (VRef r)) (touch s r name cls)
  = ([LookupAttr (VRef r) name], Done (cached s r name), touch s r name cls).
Proof.
  intros Hc Hn Hh. destruct (attr_inv _ _ _ _ Hh) as (d & Hd & _).
  assert (Hs : attr (touch s r name cls) r name = Some (cached s r name))
    by (apply attr_touch_same; [exact Hc|exists d; exact Hd]).
  assert (Hh' : attr (touch s r name cls) r "hook_handler" = Some hh)
    by (rewrite attr_touch_other; [exact Hh|exact Hc|congruence]).
  remember (touch s r name cls) as s1 eqn:E1. clear E1.
  rewrite (exec_accessor s1 r name cls hh Hc Hn Hh').
  unfold accessor_trace, touch. unfold cached at 1. rewrite Hs. reflexivity.
Qed.

Lemma property_get_accessor (p : property) :
  property_get p = ClientCode.accessor (property_name p) (property_class p) /\
  remote_view (property_class p) = true /\
  property_name p <> "hook_handler" /\
  cached_name (property_name p) = true.
Proof. destruct p; repeat split; discriminate. Qed.

Lemma construction_builds_no_view (window_handle : Z) :
  issues (fun c => builds_view c = false) (ClientCode.Client_new window_handle).
Proof.
  unfold ClientCode.Client_new, ClientCode.Client_init, ClientCode.process_id.
  issues_tac.
Qed.

(** C8. In every store the class can produce: reading [process_id] when
    it is cached makes no call but the lookup and returns the cached
    value; when it is not cached, there is exactly one process id query,
    whose answer is returned and cached (an error is raised and nothing is
    cached); a cached process id or accessor is the same after any further
    uses of the class; [stats], [body], [duel] and [quest_position] build
    their object on the first read only, none is built by the
    construction of the client, and reading again returns the same object
    with a lookup alone; and no object is held by two attributes, of one
    client or of two. *)
Theorem cached_properties (s : State) :
  reachable env WIZARD_SPEED calculate_perfect_yaw s ->
  (forall r v, attr s r "process_id" = Some v ->
     exec env (ClientCode.process_id (VRef r)) s
     = ([LookupAttr (VRef r) "process_id"], Done v, s)) /\
  (forall r wh,
     attr s r "process_id" = None -> attr s r "window_handle" = Some wh ->
     let s1 := state_after env (ClientCode.process_id (VRef r)) s in
     count is_pid_query (trace_of env (ClientCode.process_id (VRef r)) s) = 1%nat /\
     match (env (get_pid_from_handle wh) (world s)).1 with
     | Ok pid =>
         outcome_in env (ClientCode.process_id (VRef r)) s = Done (VInt pid) /\
         attr s1 r "process_id" = Some (VInt pid)
     | Err e =>
         outcome_in env (ClientCode.process_id (VRef r)) s = Raised e /\
         attr s1 r "process_id" = None
     end) /\
  (forall s' r n v,
     cached_name n = true -> attr s r n = Some v ->
     later env WIZARD_SPEED calculate_perfect_yaw s s' -> attr s' r n = Some v) /\
  (forall r hh p,
     attr s r "hook_handler" = Some hh ->
     let get := property_get p (VRef r) in
     let s1 := state_after env get s in
     outcome_in env get s = Done (cached s r (property_name p)) /\
     count builds_view (trace_of env get s)
     = match attr s r (property_name p) with Some _ => 0%nat | None => 1%nat end /\
     attr s1 r (property_name p) = Some (cached s r (property_name p)) /\
     exec env get s1
     = ([LookupAttr (VRef r) (property_name p)],
        Done (cached s r (property_name p)), s1)) /\
  (forall window_handle s0,
     count builds_view (trace_of env (ClientCode.Client_new window_handle) s0) = 0%nat) /\
  (forall s' r r' n n' k,
     later env WIZARD_SPEED calculate_perfect_yaw s s' ->
     attr s' r n = Some (VRef k) -> attr s' r' n' = Some (VRef k) ->
     r = r' /\ n = n').
Proof.
  intros Hreach. pose proof (reachable_owned s Hreach) as Hown.
  split; [|split; [|split; [|split; [|split]]]].
  - intros r v. apply exec_process_id_hit.
  - intros r wh Hn Hw s1. subst s1. unfold trace_of, outcome_in, state_after.
    rewrite (exec_process_id_miss s r wh Hn Hw).
    destruct (attr_inv _ _ _ _ Hw) as (d & Hd & _).
    destruct (env (get_pid_from_handle wh) (world s)) as [[pid|e] w]; simpl.
    + split; [reflexivity|]. split; [reflexivity|].
      unfold set_attr, attr. simpl. rewrite Hd. simpl.
      rewrite lookup_insert_eq. apply lookup_insert_eq.
    + split; [reflexivity|]. split; [reflexivity|]. exact Hn.
  - intros s' r n v Hc Hv Hl.
    assert (Hk : forall r0 n0 v0, Some (r, n, v) = Some (r0, n0, v0) ->
                 cached_name n0 = true) by (intros r0 n0 v0 [= _ <- _]; exact Hc).
    refine (proj2 (later_kept_owned (Some (r, n, v)) s s' Hk _ Hl) r n v eq_refl).
    split; [exact Hown|]. intros r0 n0 v0 [= <- <- <-]. exact Hv.
  - intros r hh p Hh get s1. subst get s1.
    destruct (property_get_accessor p) as (-> & Hc & Hn & _).
    destruct (attr_inv _ _ _ _ Hh) as (d & Hd & _).
    unfold outcome_in, trace_of, state_after.
    rewrite (exec_accessor s r _ _ hh Hc Hn Hh). simpl.
    split; [reflexivity|]. split; [|split].
    + unfold accessor_trace. destruct (attr s r (property_name p)); [reflexivity|].
      unfold count. simpl. rewrite Hc. reflexivity.
    + apply attr_touch_same; [exact Hc|exists d; exact Hd].
    + apply (exec_accessor_again s r _ _ hh Hc Hn Hh).
  - intros window_handle s0. apply count_none.
    apply (issues_trace _ _ _ (construction_builds_no_view window_handle)).
  - intros s' r r' n n' k Hl.
    assert (Hnone : forall (r0 : ref) (n0 : string) (v0 : value),
               @None (ref * string * value) = Some (r0, n0, v0) ->
               cached_name n0 = true) by discriminate.
    refine (proj2 (proj2 (proj1 (later_kept_owned None s s' Hnone _ Hl))) r r' n n' k).
    split; [exact Hown|]. discriminate.
Qed.

(** * The rest of the class *)

(** ** is_running and close *)

(** [is_running()] asks for the process handle of the client's pymem and
    then whether that process runs, each time it is called; it returns
    that answer, an exception of either call propagates, and the store is
    left as it was. *)
Theorem is_running_asks (s : State) (r : ref) (pm : value) :
  attr s r "_pymem" = Some pm ->
  let run := exec env (ClientCode.is_running (VRef r)) s in
  objs run.2 = objs s /\ locks run.2 = locks s /\ next_ref run.2 = next_ref s /\
  match env (process_handle pm) (world s) with
  | (Ok h, w) =>
      external run.1.1 = [process_handle pm; check_if_process_running h] /\
      run.1.2 = outcome_of (env (check_if_process_running h) w).1
  | (Err e, _) => external run.1.1 = [process_handle pm] /\ run.1.2 = Raised e
  end.
Proof.
  intros Hp run.
  assert (Hi : issues (fun c => reads_only c = true) (ClientCode.is_running (VRef r))).
  { eapply issues_weaken; [|apply is_running_issues]. simpl. tauto. }
  destruct (exec_reads_only _ s Hi) as (Ho & Hl & Hn & _).
  split; [exact Ho|]. split; [exact Hl|]. split; [exact Hn|].
  subst run. unfold ClientCode.is_running. run_getattr. run_external.
  destruct (env (process_handle pm) (world s)) as [[h|e] w]; run_simpl.
  - run_external. cbn [world set_world].
    destruct (env (check_if_process_running h) w) as [[b|e] w']; run_simpl;
      split; reflexivity.
  - split; reflexivity.
Qed.

(** An exception of the liveness check propagates out of [close()] before
    any call into the hook subsystem; on a live process [close()] ends as
    [hook_handler.close()] does, exception included. *)
Theorem close_propagates (s : State) (r : ref) (hh : value) :
  attr s r "hook_handler" = Some hh ->
  (forall e, outcome_in env (ClientCode.is_running (VRef r)) s = Raised e ->
     outcome_in env (ClientCode.close (VRef r)) s = Raised e /\
     count is_hook_call (trace_of env (ClientCode.close (VRef r)) s) = 0%nat) /\
  (outcome_in env (ClientCode.is_running (VRef r)) s = Done true ->
     outcome_in env (ClientCode.close (VRef r)) s
     = outcome_of (env (hook_close hh)
                     (world (state_after env (ClientCode.is_running (VRef r)) s))).1).
Proof.
  intros Hh.
  assert (Hi : issues (fun c => reads_only c = true) (ClientCode.is_running (VRef r))).
  { eapply issues_weaken; [|apply is_running_issues]. simpl. tauto. }
  assert (Hq : Forall (fun c => is_hook_call c = false)
                      (trace_of env (ClientCode.is_running (VRef r)) s)).
  { apply issues_trace. eapply issues_weaken; [|apply is_running_issues].
    simpl. tauto. }
  destruct (exec_reads_only _ s Hi) as (Ho & _ & _ & _).
  unfold outcome_in, trace_of, state_after in *. unfold ClientCode.close.
  rewrite exec_bind.
  destruct (exec env (ClientCode.is_running (VRef r)) s) as [[t o] s1].
  simpl in Hq, Ho. split.
  - intros e He. simpl in He. subst o. simpl. split; [reflexivity|].
    apply count_none, Hq.
  - intros He. simpl in He. subst o. cbn [and_then negb].
    assert (Hh1 : attr s1 r "hook_handler" = Some hh).
    { unfold attr. rewrite Ho. exact Hh. }
    rewrite exec_bind, (exec_getattr _ _ _ _ Hh1). cbn [and_then].
    run_external. cbn [fst snd].
    destruct (env (hook_close hh) (world s1)) as [[[]|e] w]; reflexivity.
Qed.

(** ** The methods that forward to one collaborator *)

(** [activate_hooks()] makes one collaborator call,
    [hook_handler.activate_all_hooks()], ends as that call does, and
    leaves the store as it was. *)
Theorem activate_hooks_forwards (s : State) (r : ref) (hh : value) :
  attr s r "hook_handler" = Some hh ->
  let run := exec env (ClientCode.activate_hooks (VRef r)) s in
  external run.1.1 = [activate_all_hooks hh] /\
  run.1.2 = outcome_of (env (activate_all_hooks hh) (world s)).1 /\
  objs run.2 = objs s /\ locks run.2 = locks s /\ next_ref run.2 = next_ref s.
Proof.
  intros Hh run. subst run. unfold ClientCode.activate_hooks.
  run_getattr. run_external.
  destruct (env (activate_all_hooks hh) (world s)) as [[[]|e] w];
    repeat split; reflexivity.
Qed.

(** [login(username, password)] makes one collaborator call,
    [utils.instance_login] on the window handle with the two strings as
    given, ends as that call does, and never suspends. *)
Theorem login_forwards (s : State) (r : ref) (wh : value) (username password : string) :
  attr s r "window_handle" = Some wh ->
  let run := exec env (ClientCode.login (VRef r) username password) s in
  external run.1.1 = [instance_login wh username password] /\
  run.1.2 = outcome_of (env (instance_login wh username password) (world s)).1 /\
  objs run.2 = objs s /\
  issues (fun c => awaited c = false) (ClientCode.login (VRef r) username password).
Proof.
  intros Hw run. subst run. unfold ClientCode.login.
  split; [|split; [|split]].
  - run_getattr. run_external.
    destruct (env (instance_login wh username password) (world s)) as [[[]|e] w];
      reflexivity.
  - run_getattr. run_external.
    destruct (env (instance_login wh username password) (world s)) as [[[]|e] w];
      reflexivity.
  - run_getattr. run_external.
    destruct (env (instance_login wh username password) (world s)) as [[[]|e] w];
      reflexivity.
  - issues_tac.
Qed.

(** [send_key(key, seconds)] makes one collaborator call,
    [utils.timed_send_key] on the window handle with the key and the
    duration as given, and ends as that call does. *)
Theorem send_key_forwards (s : State) (r : ref) (wh : value) (k : Keycode)
    (seconds : float) :
  attr s r "window_handle" = Some wh ->
  let run := exec env (ClientCode.send_key (VRef r) k seconds) s in
  external run.1.1 = [timed_send_key wh k seconds] /\
  run.1.2 = outcome_of (env (timed_send_key wh k seconds) (world s)).1 /\
  objs run.2 = objs s /\ locks run.2 = locks s.
Proof.
  intros Hw run. subst run. unfold ClientCode.send_key.
  run_getattr. run_external.
  destruct (env (timed_send_key wh k seconds) (world s)) as [[[]|e] w];
    repeat split; reflexivity.
Qed.

(** ** set_mouse_position *)

(** With the conversion requested and successful, [set_mouse_position]
    writes the converted point, not the one given, as the remote mouse
    position; once that write has returned it sends the mouse move
    [0x200] with [0, 0] through the primitive [use_post] selects, and
    returns what the write returned.  An exception of the write
    propagates before any message is sent. *)
Theorem set_mouse_position_converts (s : State) (r : ref) (wh hh : value)
    (px py : Z) (use_post : bool) (ret sx sy : Z) :
  attr s r "window_handle" = Some wh -> attr s r "hook_handler" = Some hh ->
  (env (ClientToScreen wh px py) (world s)).1 = Ok (ret, (sx, sy)) -> ret <> 0 ->
  let send := if use_post then PostMessageW else SendMessageW in
  let run := exec env (ClientCode.set_mouse_position (VRef r) px py true use_post) s in
  match env (write_mouse_position hh sx sy) (env (ClientToScreen wh px py) (world s)).2 with
  | (Ok res, w) =>
      external run.1.1
      = [ClientToScreen wh px py; write_mouse_position hh sx sy;
         send_message send wh 0x200 0 0] /\
      run.1.2 = match (env (send_message send wh 0x200 0 0) w).1 with
                | Ok _ => Done res
                | Err e => Raised e
                end
  | (Err e, _) =>
      external run.1.1 = [ClientToScreen wh px py; write_mouse_position hh sx sy] /\
      run.1.2 = Raised e
  end.
Proof.
  intros Hw Hh Hc Hret send run. subst run. unfold ClientCode.set_mouse_position.
  fold send. run_getattr. run_external.
  destruct (env (ClientToScreen wh px py) (world s)) as [a w0]. simpl in Hc. subst a.
  run_simpl. apply Z.eqb_neq in Hret. rewrite Hret. run_simpl.
  run_getattr. run_external. cbn [world set_world].
  destruct (env (write_mouse_position hh sx sy) w0) as [[res|e] w]; run_simpl.
  - run_getattr. run_external. cbn [world set_world].
    destruct (env (send_message send wh 512 0 0) w) as [[m|e] w']; run_simpl;
      split; reflexivity.
  - split; reflexivity.
Qed.

(** With [convert_from_client=False], [set_mouse_position] never calls
    [ClientToScreen] and writes the point as given; the mouse move and
    the result are as with the conversion. *)
Theorem set_mouse_position_raw (s : State) (r : ref) (wh hh : value)
    (px py : Z) (use_post : bool) :
  attr s r "window_handle" = Some wh -> attr s r "hook_handler" = Some hh ->
  let send := if use_post then PostMessageW else SendMessageW in
  let run := exec env (ClientCode.set_mouse_position (VRef r) px py false use_post) s in
  count is_conversion run.1.1 = 0%nat /\
  match env (write_mouse_position hh px py) (world s) with
  | (Ok res, w) =>
      external run.1.1
      = [write_mouse_position hh px py; send_message send wh 0x200 0 0] /\
      run.1.2 = match (env (send_message send wh 0x200 0 0) w).1 with
                | Ok _ => Done res
                | Err e => Raised e
                end
  | (Err e, _) =>
      external run.1.1 = [write_mouse_position hh px py] /\ run.1.2 = Raised e
  end.
Proof.
  intros Hw Hh send run. split.
  - apply count_none. apply (issues_trace _ _ _).
    unfold ClientCode.set_mouse_position. issues_tac.
  - subst run. unfold ClientCode.set_mouse_position. fold send. run_simpl.
    run_getattr. run_external.
    destruct (env (write_mouse_position hh px py) (world s)) as [[res|e] w]; run_simpl.
    + run_getattr. run_external. cbn [world set_world].
      destruct (env (send_message send wh 512 0 0) w) as [[m|e] w']; run_simpl;
        split; reflexivity.
    + split; reflexivity.
Qed.

(** ** in_battle, goto and teleport *)

(** [in_battle()] makes exactly one collaborator call, the duel-phase
    read on the client's duel accessor, which it caches; it never waits. *)
Theorem in_battle_reads_once (s : State) (r : ref) (hh : value) :
  attr s r "hook_handler" = Some hh ->
  let run := exec env (ClientCode.in_battle (VRef r)) s in
  external run.1.1 = [duel_phase (cached s r "duel")] /\
  attr run.2 r "duel" = Some (cached s r "duel") /\
  run.1.2 <> Blocked.
Proof.
  intros Hh run. subst run.
  assert (Hsome : is_Some (objs s !! r)).
  { destruct (attr_inv _ _ _ _ Hh) as (d & Hd & _). eauto. }
  pose proof (attr_touch_same s r "duel" PlayerDuel eq_refl Hsome) as Hd.
  unfold ClientCode.in_battle. rewrite exec_try_except, exec_bind.
  unfold ClientCode.duel.
  rewrite (exec_accessor s r "duel" PlayerDuel hh eq_refl ltac:(discriminate) Hh).
  cbn [and_then]. run_external.
  destruct (env (duel_phase (cached s r "duel")) _) as [[ph|e] w]; run_simpl.
  - external_norm. repeat split; [exact Hd|discriminate].
  - destruct e; run_simpl; external_norm; repeat split;
      try exact Hd; discriminate.
Qed.

(** [goto] stops at the first failure: an exception of the position read
    propagates; a product [WIZARD_SPEED * speed_multiplier] equal to zero
    raises [ZeroDivisionError]; an exception of the yaw computation
    propagates.  In each case the position read is the only collaborator
    call: no yaw is written and no key is held. *)
Theorem goto_stops_early (s : State) (r : ref) (wh pm hh : value)
    (tx ty speed_multiplier : float) :
  constructed s r wh pm hh ->
  let b := cached s r "body" in
  let run := exec env (ClientCode.goto WIZARD_SPEED calculate_perfect_yaw (VRef r)
                         tx ty speed_multiplier) s in
  match (env (position b) (world s)).1 with
  | Err e => run.1.2 = Raised e /\ external run.1.1 = [position b]
  | Ok P =>
      if PrimFloat.eqb (PrimFloat.mul WIZARD_SPEED speed_multiplier) 0%float
      then run.1.2 = Raised ZeroDivisionError /\ external run.1.1 = [position b]
      else
        forall e, calculate_perfect_yaw P (mkXYZ tx ty (z P)) = Err e ->
          run.1.2 = Raised e /\ external run.1.1 = [position b]
  end.
Proof.
  intros Hc b run. subst run.
  destruct (touch_body_facts s r wh pm hh Hc) as (_ & _ & _ & Hworld).
  destruct Hc as (Hw & Hp & Hh).
  unfold ClientCode.goto, ClientCode.body. rewrite exec_bind.
  rewrite (exec_accessor s r "body" PlayerActorBody hh eq_refl ltac:(discriminate) Hh).
  run_simpl. run_external. rewrite Hworld. fold b.
  destruct (env (position b) (world s)) as [[P|e] w]; run_simpl.
  - unfold truediv.
    destruct (PrimFloat.eqb (PrimFloat.mul WIZARD_SPEED speed_multiplier) 0%float);
      run_simpl.
    + external_norm. split; reflexivity.
    + intros e He. rewrite He. run_simpl. external_norm. split; reflexivity.
  - external_norm. split; reflexivity.
Qed.

(** [teleport] ends as its writes do: an exception of the position write
    propagates and no yaw is written, whether a yaw was given or not;
    after a successful position write, [teleport(xyz)] returns and
    [teleport(xyz, yaw)] ends as the yaw write does.  The body accessor
    it used is cached on the client. *)
Theorem teleport_outcome (s : State) (r : ref) (hh : value) (xyz : XYZ)
    (yaw : option float) :
  attr s r "hook_handler" = Some hh ->
  let b := cached s r "body" in
  let run := exec env (ClientCode.teleport (VRef r) xyz yaw) s in
  match env (write_position b xyz) (world s) with
  | (Err e, _) => run.1.2 = Raised e /\ external run.1.1 = [write_position b xyz]
  | (Ok _, w) =>
      run.1.2 = match yaw with
                | None => Done tt
                | Some a => outcome_of (env (write_yaw b a) w).1
                end
  end /\
  attr run.2 r "body" = Some b.
Proof.
  intros Hh b run. subst run b.
  assert (Hsome : is_Some (objs s !! r)).
  { destruct (attr_inv _ _ _ _ Hh) as (d & Hd & _). eauto. }
  pose proof (attr_touch_same s r "body" PlayerActorBody eq_refl Hsome) as Hb.
  assert (Hh' : attr (touch s r "body" PlayerActorBody) r "hook_handler" = Some hh).
  { rewrite attr_touch_other; [exact Hh|reflexivity|discriminate]. }
  assert (Hc : cached (touch s r "body" PlayerActorBody) r "body" = cached s r "body").
  { unfold cached at 1. rewrite Hb. reflexivity. }
  unfold ClientCode.teleport, ClientCode.body. rewrite exec_bind.
  rewrite (exec_accessor s r "body" PlayerActorBody hh eq_refl ltac:(discriminate) Hh).
  cbn [and_then]. run_external. rewrite world_touch.
  destruct (env (write_position (cached s r "body") xyz) (world s)) as [[[]|e] w];
    run_simpl.
  - destruct yaw as [a|]; run_simpl.
    + rewrite exec_bind.
      rewrite (exec_accessor _ r "body" PlayerActorBody hh eq_refl ltac:(discriminate))
        by (rewrite attr_set_world; exact Hh').
      assert (Ht2 : touch (set_world (touch s r "body" PlayerActorBody) w) r "body"
                      PlayerActorBody = set_world (touch s r "body" PlayerActorBody) w).
      { unfold touch at 1. rewrite attr_set_world, Hb. reflexivity. }
      rewrite Ht2. cbn [and_then]. run_external.
      rewrite cached_set_world, Hc. cbn [world set_world].
      destruct (env (write_yaw (cached s r "body") a) w) as [[[]|e] w'];
        run_simpl; split; try reflexivity; exact Hb.
    + split; [reflexivity|exact Hb].
  - external_norm. split; [split; reflexivity|exact Hb].
Qed.

(** ** Construction *)

Ltac store_simpl :=
  repeat first [ rewrite lookup_insert_eq
               | rewrite lookup_insert_ne by discriminate
               | rewrite lookup_empty ].

Ltac init_run :=
  repeat (cbn -[lookup insert empty]; store_simpl).

(** [Client(window_handle)], when the process id lookup and the attachment
    succeed: the new client is returned; the collaborator calls are the
    lookup of the process id of the window and the attachment of the new
    pymem to that very id, in this order; the instance holds the window
    handle, a pymem and a hook handler of its own, the process id in its
    cache and [click_lock = None]; no accessor and no lock is built. *)
Theorem construction_builds (s : State) (window_handle pid : Z) (w1 w2 : World) :
  env (get_pid_from_handle (VInt window_handle)) (world s) = (Ok pid, w1) ->
  env (open_process_from_id (VRef (S (next_ref s))) (VInt pid)) w1 = (Ok tt, w2) ->
  exists t s',
    exec env (ClientCode.Client_new window_handle) s = (t, Done (VRef (next_ref s)), s') /\
    external t
    = [get_pid_from_handle (VInt window_handle);
       open_process_from_id (VRef (S (next_ref s))) (VInt pid)] /\
    count builds_lock t = 0%nat /\
    constructed s' (next_ref s) (VInt window_handle) (VRef (S (next_ref s)))
      (VRef (S (S (next_ref s)))) /\
    attr s' (next_ref s) "process_id" = Some (VInt pid) /\
    attr s' (next_ref s) "click_lock" = Some VNone /\
    (forall p, attr s' (next_ref s) (property_name p) = None) /\
    locks s' = locks s /\ world s' = w2 /\
    next_ref s' = S (S (S (next_ref s))).
Proof.
  intros E1 E2. do 2 eexists. split.
  - unfold ClientCode.Client_new, ClientCode.Client_init, ClientCode.process_id,
      cached_property, getattr.
    init_run. rewrite E1. init_run. rewrite E2. init_run. reflexivity.
  - unfold constructed, attr. init_run.
    repeat split; try reflexivity. intros []; reflexivity.
Qed.

(** [Client(window_handle)] fails as its collaborators do.  When the
    process id lookup raises, the exception propagates: nothing was
    attached, no hook handler was built, and no process id is cached.
    When the attachment raises, the exception propagates: the process id
    stays cached on the unfinished instance, which has no hook handler. *)
Theorem construction_fails (s : State) (window_handle : Z) (e : exn) :
  (forall w1,
     env (get_pid_from_handle (VInt window_handle)) (world s) = (Err e, w1) ->
     exists t s',
       exec env (ClientCode.Client_new window_handle) s = (t, Raised e, s') /\
       external t = [get_pid_from_handle (VInt window_handle)] /\
       count builds_handler t = 0%nat /\
       attr s' (next_ref s) "window_handle" = Some (VInt window_handle) /\
       attr s' (next_ref s) "process_id" = None /\
       attr s' (next_ref s) "hook_handler" = None) /\
  (forall pid w1 w2,
     env (get_pid_from_handle (VInt window_handle)) (world s) = (Ok pid, w1) ->
     env (open_process_from_id (VRef (S (next_ref s))) (VInt pid)) w1 = (Err e, w2) ->
     exists t s',
       exec env (ClientCode.Client_new window_handle) s = (t, Raised e, s') /\
       external t
       = [get_pid_from_handle (VInt window_handle);
          open_process_from_id (VRef (S (next_ref s))) (VInt pid)] /\
       count builds_handler t = 0%nat /\
       attr s' (next_ref s) "process_id" = Some (VInt pid) /\
       attr s' (next_ref s) "hook_handler" = None).
Proof.
  split.
  - intros w1 E1. do 2 eexists. split.
    + unfold ClientCode.Client_new, ClientCode.Client_init, ClientCode.process_id,
        cached_property, getattr.
      init_run. rewrite E1. init_run. reflexivity.
    + unfold attr. init_run. repeat split; reflexivity.
  - intros pid w1 w2 E1 E2. do 2 eexists. split.
    + unfold ClientCode.Client_new, ClientCode.Client_init, ClientCode.process_id,
        cached_property, getattr.
      init_run. rewrite E1. init_run. rewrite E2. init_run. reflexivity.
    + unfold attr. init_run. repeat split; reflexivity.
Qed.

(** ** The click lock across uses of the class *)

Lemma step_call_lock_quiet (c : call) (s s1 : State) (res : result (resp c)) :
  lock_quiet c = true -> step_call env c s = Some (res, s1) -> locks s1 = locks s.
Proof.
  intros Hc E. apply (f_equal (from_option snd s)) in E. simpl in E. subst s1.
  destruct c; try discriminate Hc; simpl; try reflexivity.
  - destruct cls; try discriminate Hc; reflexivity.
  - unfold set_attr. destruct o as [| |r]; try reflexivity.
    destruct (objs s !! r); reflexivity.
Qed.

Lemma exec_lock_quiet {R : Type} (p : Prog R) (s : State) :
  issues (fun c => lock_quiet c = true) p ->
  locks (state_after env p s) = locks s /\ outcome_in env p s <> Blocked.
Proof.
  unfold state_after, outcome_in. revert s.
  induction p as [a|e|c k IH]; intros s Hp; simpl; try (split; congruence).
  destruct Hp as [Hc Hk].
  destruct (step_call_some c s) as [[res s1] E]; [destruct c; try discriminate; reflexivity|].
  rewrite E. pose proof (step_call_lock_quiet _ _ _ _ Hc E) as Hl.
  specialize (IH res s1 (Hk res)).
  destruct (exec env (k res) s1) as [[t o] s2]. simpl in *.
  rewrite <- Hl. exact IH.
Qed.

Lemma calm_bind {A B : Type} (p : Prog A) (k : A -> Prog B) :
  calm env p -> (forall a, calm env (k a)) -> calm env (let* a := p in k a).
Proof.
  intros Hp Hk s Hs. destruct (Hp s Hs) as [H1 H2].
  unfold state_after, outcome_in in *. rewrite exec_bind.
  destruct (exec env p s) as [[t [a|e|]] s1]; simpl in *.
  - specialize (Hk a s1 H1). unfold state_after, outcome_in in Hk.
    destruct (exec env (k a) s1) as [[t' o] s2]. exact Hk.
  - split; [exact H1|discriminate].
  - congruence.
Qed.

Lemma calm_quiet {A : Type} (p : Prog A) :
  issues (fun c => lock_quiet c = true) p -> calm env p.
Proof.
  intros Hp s Hs. destruct (exec_lock_quiet p s Hp) as [Hl Hb].
  split; [|exact Hb]. intros l b. rewrite Hl. apply Hs.
Qed.

Lemma calm_new (cls : class) (args : list value) : calm env (perform (New cls args)).
Proof.
  intros s Hs. unfold state_after, outcome_in. rewrite exec_perform. simpl.
  split; [|discriminate]. intros l b.
  destruct cls; try apply Hs. simpl.
  destruct (decide (l = next_ref s)) as [->|Hne].
  - rewrite lookup_insert_eq. congruence.
  - rewrite lookup_insert_ne by congruence. apply Hs.
Qed.

(** [async with lock: body], for a body that touches no lock: the lock is
    taken at once and is free again afterwards. *)
Lemma calm_async_with {A : Type} (l : value) (body : Prog A) :
  issues (fun c => lock_quiet c = true) body -> calm env (async_with l body).
Proof.
  intros Hb s Hs. unfold async_with, state_after, outcome_in.
  rewrite exec_bind, exec_perform. cbn [step_call]. unfold acquire.
  destruct l as [| |k]; try (simpl; split; [exact Hs|discriminate]).
  destruct (locks s !! k) as [[|]|] eqn:Ek.
  - specialize (Hs _ _ Ek). discriminate.
  - cbn [and_then outcome_of]. rewrite exec_try_finally.
    set (s0 := set_locks s (<[k := true]> (locks s))).
    destruct (exec_lock_quiet body s0 Hb) as [Hl Hnb].
    unfold state_after, outcome_in in Hl, Hnb.
    destruct (exec env body s0) as [[t o] s1]. cbn [fst snd] in *.
    assert (Hk1 : locks s1 !! k = Some true)
      by (rewrite Hl; simpl; apply lookup_insert_eq).
    assert (Hfree : all_free (set_locks s1 (<[k := false]> (locks s1)))).
    { intros l b. simpl. destruct (decide (l = k)) as [->|Hne].
      - rewrite lookup_insert_eq. congruence.
      - rewrite lookup_insert_ne by congruence. rewrite Hl. simpl.
        rewrite lookup_insert_ne by congruence. apply Hs. }
    destruct o as [a|e|]; [| |congruence];
      run_perform; simpl; unfold release; rewrite Hk1; simpl;
      (split; [exact Hfree|discriminate]).
  - simpl. split; [exact Hs|discriminate].
Qed.

Lemma calm_invoke (m : method) :
  calm env (invoke WIZARD_SPEED calculate_perfect_yaw m).
Proof.
  destruct m; unfold invoke;
    try solve [apply calm_quiet;
         unfold discard, ClientCode.Client_new, ClientCode.Client_init,
           ClientCode.process_id, ClientCode.stats, ClientCode.body, ClientCode.duel,
           ClientCode.quest_position, ClientCode.accessor, ClientCode.is_running,
           ClientCode.close, ClientCode.is_running, ClientCode.in_battle,
           ClientCode.duel, ClientCode.accessor, ClientCode.activate_hooks,
           ClientCode.login, ClientCode.send_key, ClientCode.set_mouse_position,
           ClientCode.goto, ClientCode.teleport, ClientCode.body, ClientCode.accessor,
           truediv;
         issues_tac].
  unfold ClientCode.click.
  apply calm_bind; [apply calm_quiet; issues_tac|]. intros click_lock.
  apply calm_bind.
  - destruct click_lock; try (apply calm_quiet; exact I).
    apply calm_bind; [apply calm_new|]. intros l. apply calm_quiet. issues_tac.
  - intros _. apply calm_bind; [apply calm_quiet; issues_tac|]. intros l.
    apply calm_async_with.
    eapply issues_weaken; [|apply click_section_issues].
    intros c. destruct c; simpl; congruence.
Qed.

Lemma reachable_all_free (s : State) :
  reachable env WIZARD_SPEED calculate_perfect_yaw s -> all_free s.
Proof.
  induction 1 as [w|s m _ IH].
  - intros l b H. simpl in H. rewrite lookup_empty in H. discriminate.
  - apply (calm_invoke m s IH).
Qed.

(** Used one call after the other, the class never waits for a lock and
    never leaves one held: in every store the class can produce all locks
    are free, and no use of the class blocks from there. *)
Theorem locks_released (s : State) :
  reachable env WIZARD_SPEED calculate_perfect_yaw s ->
  all_free s /\
  forall m, outcome_in env (invoke WIZARD_SPEED calculate_perfect_yaw m) s <> Blocked.
Proof.
  intros Hr. pose proof (reachable_all_free s Hr) as Hf.
  split; [exact Hf|]. intros m. apply (calm_invoke m s Hf).
Qed.

(** ** Attributes across uses of the class *)

Section Stable.

Variable keepo : option (ref * string * value).
Hypothesis keep_lock :
  forall r0 n0 v0, keepo = Some (r0, n0, v0) -> n0 = "click_lock" -> v0 <> VNone.

Lemma preserves_store_at (o : value) (n : string) (v : value) :
  not_kept keepo o n -> (forall k, v <> VRef k) ->
  preserves env keepo (perform (SetAttr o n v)).
Proof.
  intros Hn Hv. eapply triple_preserves with (Q := fun _ _ => True).
  intros s Hs _. apply (triple_set_attr keepo o n v s Hs).
  split; [|left; exact Hn].
  destruct v as [| |k]; try exact I. exfalso. exact (Hv k eq_refl).
Qed.

Lemma preserves_set_at {B : Type} (o : value) (n : string) (v : value) (rest : Prog B) :
  not_kept keepo o n -> (forall k, v <> VRef k) -> preserves env keepo rest ->
  preserves env keepo (let* _ := perform (SetAttr o n v) in rest).
Proof.
  intros Hn Hv Hrest. apply preserves_bind; [apply preserves_store_at; assumption|].
  intros _. exact Hrest.
Qed.

Lemma preserves_new_store_at (cls : class) (args : list value) (o : value) (n : string) :
  not_kept keepo o n ->
  preserves env keepo (let* v := perform (New cls args) in perform (SetAttr o n v)).
Proof.
  intros Hn. eapply triple_preserves with (Q := fun _ _ => True).
  eapply triple_bind with (Q := fun v s => storable s v).
  - intros s Hs _.
    destruct (triple_new keepo cls args 0%nat n (attr s 0%nat n) s Hs eq_refl) as [H1 H2].
    split; [exact H1|]. intros a Ha. apply (H2 a Ha).
  - intros v s Hs Hv. apply (triple_set_attr keepo o n v s Hs).
    split; [exact Hv|left; exact Hn].
Qed.

Lemma preserves_new_set_at {B : Type} (cls : class) (args : list value) (o : value)
    (n : string) (rest : value -> Prog B) :
  not_kept keepo o n -> (forall v, preserves env keepo (rest v)) ->
  preserves env keepo
    (let* v := perform (New cls args) in
     let* _ := perform (SetAttr o n v) in rest v).
Proof.
  intros Hn Hrest. eapply triple_preserves with (Q := fun _ _ => True).
  eapply triple_bind with (Q := fun v s => storable s v).
  - intros s Hs _.
    destruct (triple_new keepo cls args 0%nat n (attr s 0%nat n) s Hs eq_refl) as [H1 H2].
    split; [exact H1|]. intros a Ha. apply (H2 a Ha).
  - intros v. eapply triple_bind with (Q := fun _ _ => True).
    + intros s Hs Hv. apply (triple_set_attr keepo o n v s Hs).
      split; [exact Hv|left; exact Hn].
    + intros _. apply preserves_triple, Hrest.
Qed.

Ltac stable_step :=
  lazymatch goal with
  | |- preserves _ _ (ClientCode.process_id _) => apply preserves_process_id
  | |- preserves _ _ (ClientCode.accessor _ _ _) => apply preserves_accessor
  | |- preserves _ _ (discard _) => apply preserves_discard
  | |- preserves _ _ (bind (perform (New _ _)) _) =>
      apply preserves_new_set_at; [solve [auto]|]
  | |- preserves _ _ (bind (perform (SetAttr _ _ _)) _) =>
      apply preserves_set_at; [solve [auto]|discriminate|]
  | |- preserves _ _ (perform (SetAttr _ _ _)) =>
      apply preserves_store_at; [solve [auto]|discriminate]
  | |- preserves _ _ (bind _ _) => apply preserves_bind
  | |- preserves _ _ (getattr _ _) => apply preserves_getattr
  | |- preserves _ _ (perform (Acquire ?l)) =>
      exact (preserves_lock keepo (Acquire l) (or_introl eq_refl))
  | |- preserves _ _ (perform (Release ?l)) =>
      exact (preserves_lock keepo (Release l) (or_intror eq_refl))
  | |- preserves _ _ (perform ?c) => exact (preserves_perform keepo c eq_refl)
  | |- preserves _ _ (try_finally _ _) => apply preserves_try_finally
  | |- preserves _ _ (try_except _ _ _) => apply preserves_try_except
  | |- preserves _ _ (truediv _ _) => unfold truediv
  | |- preserves _ _ (async_with _ _) => unfold async_with
  | |- preserves _ _ (Ret _) => apply preserves_ret
  | |- preserves _ _ (Throw _) => apply preserves_throw
  | |- preserves _ _ (if ?b then _ else _) => destruct b
  | |- preserves _ _ (match ?v with _ => _ end) => destruct v
  | |- forall _, _ => intro; cbn [resp] in *
  | H : Some _ = Some _ |- _ => injection H as <-
  | H : None = Some _ |- _ => discriminate H
  | H : match ?e with _ => _ end = Some _ |- _ => destruct e
  end.

(** [__init__] on an instance other than the one singled out. *)
Lemma preserves_init_at (self : value) (window_handle : Z) :
  (forall n, not_kept keepo self n) ->
  preserves env keepo (ClientCode.Client_init self window_handle).
Proof.
  intros Hself. unfold ClientCode.Client_init. repeat stable_step.
Qed.

Lemma getattr_done (s : State) (o : value) (n : string) (a : value) :
  outcome_in env (getattr o n) s = Done a ->
  forall r, o = VRef r -> attr s r n = Some a.
Proof.
  intros H r ->. unfold outcome_in, getattr in H. simpl in H.
  unfold attr. destruct (objs s !! r) as [d|]; [|discriminate].
  simpl in H. destruct (d !! n); [|discriminate]. simpl in H. congruence.
Qed.

Lemma state_after_getattr (s : State) (o : value) (n : string) :
  state_after env (getattr o n) s = s.
Proof.
  unfold state_after, getattr. simpl. destruct (lookup_attr o n s) as [[v|]|e]; reflexivity.
Qed.

Lemma preserves_click_at (self : value) (px py : Z) (right_click : bool)
    (sleep_duration : float) (use_post : bool) :
  preserves env keepo
    (ClientCode.click self px py right_click sleep_duration use_post).
Proof using keep_lock.
  unfold ClientCode.click. eapply triple_preserves with (Q := fun _ _ => True).
  eapply triple_bind
    with (Q := fun v s => forall r, self = VRef r -> attr s r "click_lock" = Some v).
  - intros s Hs _. split; [apply preserves_getattr, Hs|].
    intros a Ha. rewrite state_after_getattr. apply (getattr_done s self _ a Ha).
  - intros v. eapply triple_bind with (Q := fun _ _ => True).
    + destruct v as [|i|k]; try (apply preserves_triple, preserves_ret).
      intros s Hs Hv. split; [|auto].
      apply preserves_new_store_at; [|exact Hs].
      intros r0 n0 v0 Ek -> <-.
      pose proof (proj2 Hs _ _ _ Ek) as Hk. rewrite (Hv r0 eq_refl) in Hk.
      injection Hk as <-. exact (keep_lock _ _ _ Ek eq_refl eq_refl).
    + intros _. apply preserves_triple.
      unfold ClientCode.click_section, ClientCode.set_mouse_position.
      repeat stable_step.
Qed.

Lemma preserves_invoke_at (m : method) :
  preserves env keepo (invoke WIZARD_SPEED calculate_perfect_yaw m).
Proof using keep_lock.
  destruct m; unfold invoke.
  - unfold ClientCode.Client_new. apply preserves_discard.
    eapply triple_preserves with (Q := fun _ _ => True).
    eapply triple_bind with (Q := fun v _ => forall n, not_kept keepo v n).
    + intros s Hs _. split; [apply preserves_new, Hs|].
      unfold outcome_in. simpl. intros a [= <-] n r0 n0 v0 Ek [= <-] _.
      destruct (kept_owned_alloc keepo Client s Hs) as (_ & _ & Hf).
      exact (Hf _ _ _ Ek eq_refl).
    + intros self s Hs Hself. split; [|auto]. revert s Hs.
      change (preserves env keepo
                (let* _ := ClientCode.Client_init self window_handle in Ret self)).
      apply preserves_bind; [apply preserves_init_at, Hself|]. intros _.
      apply preserves_ret.
  - repeat stable_step.
  - unfold ClientCode.stats. repeat stable_step.
  - unfold ClientCode.body. repeat stable_step.
  - unfold ClientCode.duel. repeat stable_step.
  - unfold ClientCode.quest_position. repeat stable_step.
  - unfold ClientCode.is_running. repeat stable_step.
  - unfold ClientCode.close, ClientCode.is_running. repeat stable_step.
  - unfold ClientCode.in_battle, ClientCode.duel. repeat stable_step.
  - unfold ClientCode.activate_hooks. repeat stable_step.
  - unfold ClientCode.login. repeat stable_step.
  - unfold ClientCode.send_key. repeat stable_step.
  - apply preserves_click_at.
  - unfold ClientCode.set_mouse_position. repeat stable_step.
  - unfold ClientCode.goto, ClientCode.body. repeat stable_step.
  - unfold ClientCode.teleport, ClientCode.body. repeat stable_step.
Qed.

End Stable.

(** No use of the class rebinds an attribute of an existing instance:
    whatever an attribute holds in a store the class can produce, it
    holds after any further uses of the class.  The one exception is in
    [click], which replaces a [click_lock] of [None] by a new lock; a lock
    once stored is kept. *)
Theorem attributes_stable (s s' : State) (r : ref) (n : string) (v : value) :
  reachable env WIZARD_SPEED calculate_perfect_yaw s ->
  later env WIZARD_SPEED calculate_perfect_yaw s s' ->
  attr s r n = Some v -> (n = "click_lock" -> v <> VNone) ->
  attr s' r n = Some v.
Proof.
  intros Hr Hl Hv Hn.
  assert (Hk : forall r0 n0 v0, Some (r, n, v) = Some (r0, n0, v0) ->
               n0 = "click_lock" -> v0 <> VNone)
    by (intros r0 n0 v0 [= _ <- <-]; exact Hn).
  assert (Hs : kept_owned (Some (r, n, v)) s).
  { split; [apply reachable_owned, Hr|]. intros r0 n0 v0 [= <- <- <-]. exact Hv. }
  assert (Hs' : kept_owned (Some (r, n, v)) s').
  { clear Hr Hv. induction Hl as [|s' m _ IH]; [exact Hs|].
    apply (preserves_invoke_at (Some (r, n, v)) Hk m s' IH). }
  exact (proj2 Hs' r n v eq_refl).
Qed.

(** ** The lock of click *)

(** [click] builds a lock only when the client has none: one
    [asyncio.Lock()] when [click_lock] is [None], none when a lock is
    stored.  Afterwards the client holds that lock, the lock is free, and
    the window handle, pymem and hook handler are as before. *)
Theorem click_lock_created (s : State) (r : ref) (wh pm hh : value) (px py : Z)
    (right_click : bool) (d : float) (use_post : bool) :
  constructed s r wh pm hh -> lock_free s r ->
  let l := click_lock_of s r in
  let run := exec env (ClientCode.click (VRef r) px py right_click d use_post) s in
  count builds_lock run.1.1
  = match attr s r "click_lock" with Some (VRef _) => 0%nat | _ => 1%nat end /\
  attr run.2 r "click_lock" = Some (VRef l) /\
  locks run.2 !! l = Some false /\
  constructed run.2 r wh pm hh.
Proof.
  intros (Hw & Hp & Hh) Hl l run.
  set (send := if use_post then PostMessageW else SendMessageW).
  set (down := if right_click then 0x204 else 0x201).
  set (sec := ClientCode.click_section (VRef r) px py send down d).
  assert (Hsec : forall s0, locks s0 !! l = Some true ->
    exec env (try_finally sec (perform (Release (VRef l)))) s0
    = ((exec env sec s0).1.1 ++ [Release (VRef l)], (exec env sec s0).1.2,
       set_locks (exec env sec s0).2 (<[l := false]> (locks (exec env sec s0).2)))).
  { intros s0 Hs0. rewrite exec_try_finally.
    destruct (exec_reads_only sec s0 (click_section_issues _ _ _ _ _ _))
      as (_ & Hlk & _ & Hnb).
    unfold state_after, outcome_in in *.
    destruct (exec env sec s0) as [[t o] s1]. cbn [fst snd] in *.
    destruct o as [[]|e|]; [| |congruence];
      run_perform; simpl; unfold release; rewrite Hlk, Hs0; reflexivity. }
  assert (Hbody : forall s0, count builds_lock (exec env sec s0).1.1 = 0%nat).
  { intros s0. apply count_none.
    eapply Forall_impl;
      [apply (issues_trace _ sec s0 (click_section_issues _ _ _ _ _ _))|].
    intros c. destruct c; simpl; congruence. }
  assert (Hobjs : forall s0, objs (exec env sec s0).2 = objs s0).
  { intros s0. apply (exec_reads_only sec s0 (click_section_issues _ _ _ _ _ _)). }
  destruct (attr_inv _ _ _ _ Hw) as (dict & Hd & _).
  subst run. unfold ClientCode.click, async_with. fold send down sec.
  clearbody sec.
  assert (Hcons : forall c t, count builds_lock (c :: t)
                  = ((if builds_lock c then 1 else 0) + count builds_lock t)%nat).
  { intros c t. unfold count. simpl. destruct (builds_lock c); reflexivity. }
  destruct Hl as [Hnone | (l0 & Hsome & Hfree)].
  - assert (El : l = next_ref s) by (unfold l, click_lock_of; rewrite Hnone; reflexivity).
    clearbody l. subst l. rewrite Hnone.
    run_getattr. run_perform. cbn [step_call and_then outcome_of].
    run_perform. cbn [step_call].
    rewrite (set_attr_ok (alloc Lock s) r dict) by exact Hd. run_simpl.
    set (s1 := set_objs (alloc Lock s) _).
    assert (H1 : attr s1 r "click_lock" = Some (VRef (next_ref s)))
      by apply attr_set_objs_same.
    assert (H2 : locks s1 !! next_ref s = Some false)
      by (simpl; apply lookup_insert_eq).
    run_getattr. run_perform. cbn [step_call]. unfold acquire. rewrite H2. run_simpl.
    rewrite Hsec by (simpl; apply lookup_insert_eq). run_simpl.
    set (s2 := set_locks s1 _).
    unfold constructed, attr. cbn [objs set_locks fst snd]. rewrite (Hobjs s2).
    split; [|split; [|split]].
    + rewrite !Hcons, count_app, (Hbody s2). reflexivity.
    + exact H1.
    + apply lookup_insert_eq.
    + unfold attr in Hw, Hp, Hh. rewrite Hd in Hw, Hp, Hh.
      simpl. rewrite lookup_insert_eq.
      rewrite !lookup_insert_ne by discriminate. auto.
  - assert (El : l = l0) by (unfold l, click_lock_of; rewrite Hsome; reflexivity).
    clearbody l. subst l0. rewrite Hsome.
    run_getattr. run_getattr. run_perform. cbn [step_call]. unfold acquire.
    rewrite Hfree. run_simpl.
    rewrite Hsec by (simpl; apply lookup_insert_eq). run_simpl.
    set (s2 := set_locks s _).
    unfold constructed, attr. cbn [objs set_locks fst snd]. rewrite (Hobjs s2).
    split; [|split; [|split]].
    + rewrite !Hcons, count_app, (Hbody s2). reflexivity.
    + exact Hsome.
    + apply lookup_insert_eq.
    + auto.
Qed.

(** ** Synchronous uses *)

Lemma run_atomic_immediate {R : Type} (p : Prog R) (s : State) :
  issues (fun c => immediate c = true) p ->
  finished (run_atomic env p s).1.2 /\
  (run_atomic env p s).1.1 = trace_of env p s /\
  (run_atomic env p s).2 = state_after env p s.
Proof.
  unfold trace_of, state_after. revert s.
  induction p as [a|e|c k IH]; intros s Hp; simpl; try (repeat split; exact I).
  destruct Hp as [Hc Hk]. unfold immediate in Hc.
  apply andb_prop in Hc. destruct Hc as [Ha Hq].
  apply negb_true_iff in Ha, Hq. rewrite Ha.
  destruct (step_call_some c s Hq) as [[res s1] E]. rewrite E.
  specialize (IH res s1 (Hk res)).
  destruct (run_atomic env (k res) s1) as [[t p'] s2].
  destruct (exec env (k res) s1) as [[t' o] s2']. simpl in *.
  destruct IH as (H1 & H2 & H3). subst. auto.
Qed.

(** The construction, the properties, [is_running] and [login] are not
    coroutines: none of their calls is awaited and none takes a lock, so
    a task that runs one of them reaches its end without giving control
    back to the event loop. *)
Theorem synchronous_uses_atomic (m : method) (s : State) :
  synchronous m = true ->
  issues (fun c => immediate c = true) (invoke WIZARD_SPEED calculate_perfect_yaw m) /\
  finished (run_atomic env (invoke WIZARD_SPEED calculate_perfect_yaw m) s).1.2 /\
  (run_atomic env (invoke WIZARD_SPEED calculate_perfect_yaw m) s).2
  = state_after env (invoke WIZARD_SPEED calculate_perfect_yaw m) s.
Proof.
  intros Hm.
  assert (Hi : issues (fun c => immediate c = true)
                 (invoke WIZARD_SPEED calculate_perfect_yaw m)).
  { destruct m; try discriminate Hm; unfold invoke, discard, ClientCode.Client_new,
      ClientCode.Client_init, ClientCode.process_id, ClientCode.stats, ClientCode.body,
      ClientCode.duel, ClientCode.quest_position, ClientCode.accessor,
      ClientCode.is_running, ClientCode.login; issues_tac. }
  split; [exact Hi|]. destruct (run_atomic_immediate _ s Hi) as (H1 & _ & H3).
  split; assumption.
Qed.

(** ** Failures inside click *)

(** When the conversion of the point fails, [click] raises the
    [RuntimeError] of [set_mouse_position]: the conversion is its only
    collaborator call, no button message is sent, and the lock is free
    afterwards. *)
Theorem click_conversion_failure (s : State) (r : ref) (wh pm hh : value) (px py : Z)
    (right_click : bool) (d : float) (use_post : bool) (pt : Z * Z) :
  constructed s r wh pm hh -> lock_free s r ->
  (env (ClientToScreen wh px py) (world s)).1 = Ok (0, pt) ->
  let run := exec env (ClientCode.click (VRef r) px py right_click d use_post) s in
  run.1.2 = Raised (RuntimeError "Client to screen conversion failed") /\
  external run.1.1 = [ClientToScreen wh px py] /\
  count is_message run.1.1 = 0%nat /\
  locks run.2 !! click_lock_of s r = Some false.
Proof.
  intros Hc Hl Hz run.
  destruct (click_external s r wh pm hh px py right_click d use_post Hc Hl)
    as (s0 & (Hw0 & _ & _) & Hworld & Ht & Ho).
  destruct (click_lock_once s r wh pm hh px py right_click d use_post Hc Hl)
    as (_ & _ & _ & _ & Hfree).
  assert (Hsec : exists s1,
    exec env (ClientCode.click_section (VRef r) px py
                (if use_post then PostMessageW else SendMessageW)
                (if right_click then 0x204 else 0x201) d) s0
    = ([LookupAttr (VRef r) "window_handle"; ClientToScreen wh px py],
       Raised (RuntimeError "Client to screen conversion failed"), s1)).
  { unfold ClientCode.click_section, ClientCode.set_mouse_position.
    run_getattr. run_external. rewrite Hworld.
    destruct (env (ClientToScreen wh px py) (world s)) as [a w]. simpl in Hz. subst a.
    simpl. eexists. reflexivity. }
  destruct Hsec as (s1 & Hsec).
  unfold trace_of, outcome_in in Ht, Ho. rewrite Hsec in Ht, Ho.
  cbn [fst snd] in Ht, Ho.
  subst run. split; [exact Ho|]. split; [exact Ht|]. split; [|exact Hfree].
  rewrite <- (count_external is_message); [rewrite Ht; reflexivity|].
  intros []; simpl; congruence.
Qed.

(** ** What only the construction does *)

(** Apart from the construction, no use of the class builds a client, a
    pymem or a hook handler, and none attaches to a process. *)
Theorem only_construction_attaches (m : method) :
  is_construct m = false ->
  issues (fun c => builds_core c = false /\ is_attach c = false)
         (invoke WIZARD_SPEED calculate_perfect_yaw m).
Proof.
  intros Hm.
  destruct m; try discriminate Hm;
    unfold invoke, discard, ClientCode.process_id, ClientCode.stats, ClientCode.body,
      ClientCode.duel, ClientCode.quest_position, ClientCode.is_running,
      ClientCode.close, ClientCode.is_running, ClientCode.in_battle, ClientCode.duel,
      ClientCode.activate_hooks, ClientCode.login, ClientCode.send_key,
      ClientCode.click, ClientCode.click_section, async_with,
      ClientCode.set_mouse_position, ClientCode.goto, ClientCode.teleport,
      ClientCode.body, ClientCode.accessor, truediv;
    repeat first [ issues_step | split ].
Qed.

(** ** Instances in the stores the class produces *)

Lemma exec_spares {R : Type} (n : string) (p : Prog R) (s : State) (r : ref) :
  issues (fun c => spares n c = true) p ->
  attr (state_after env p s) r n = attr s r n.
Proof.
  intros Hp. apply exec_keeps. eapply issues_weaken; [|exact Hp].
  intros c Hc. destruct c; try reflexivity.
  - destruct cls; try reflexivity. discriminate Hc.
  - simpl in *. destruct o as [| |r']; try reflexivity.
    apply negb_true_iff in Hc. rewrite Hc, andb_false_r. reflexivity.
Qed.

Lemma exec_writes_only {R : Type} (o : value) (p : Prog R) (s : State) (r : ref)
    (n : string) :
  issues (writes_only o) p -> o <> VRef r ->
  attr (state_after env p s) r n = attr s r n.
Proof.
  intros Hp Ho. apply exec_keeps. eapply issues_weaken; [|exact Hp].
  intros c Hc. destruct c; try reflexivity.
  - destruct cls; try reflexivity. destruct Hc.
  - simpl in *. subst o0. destruct o as [| |r']; try reflexivity.
    destruct (Nat.eqb_spec r' r) as [->|Hne]; [congruence|reflexivity].
Qed.

Lemma step_call_locks_grow (c : call) (s s1 : State) (res : result (resp c)) (l : ref) :
  step_call env c s = Some (res, s1) ->
  is_Some (locks s !! l) -> is_Some (locks s1 !! l).
Proof.
  intros E Hl. destruct c; simpl in E;
    try (apply (f_equal (from_option snd s)) in E; simpl in E; subst s1; exact Hl).
  - apply (f_equal (from_option snd s)) in E. simpl in E. subst s1.
    destruct cls; try exact Hl. simpl.
    destruct (decide (l = next_ref s)) as [->|Hne].
    + rewrite lookup_insert_eq. eauto.
    + rewrite lookup_insert_ne by congruence. exact Hl.
  - apply (f_equal (from_option snd s)) in E. simpl in E. subst s1.
    unfold set_attr. destruct o as [| |r]; try exact Hl.
    destruct (objs s !! r); exact Hl.
  - unfold acquire in E. destruct l0 as [| |k].
    + injection E as _ <-. exact Hl.
    + injection E as _ <-. exact Hl.
    + destruct (locks s !! k) as [[|]|] eqn:Ek; [discriminate| |].
      * injection E as _ <-. simpl.
        destruct (decide (l = k)) as [->|Hne].
        -- rewrite lookup_insert_eq. eauto.
        -- rewrite lookup_insert_ne by congruence. exact Hl.
      * injection E as _ <-. exact Hl.
  - apply (f_equal (from_option snd s)) in E. simpl in E. subst s1.
    unfold release. destruct l0 as [| |k]; try exact Hl.
    destruct (locks s !! k) as [[|]|] eqn:Ek; try exact Hl. simpl.
    destruct (decide (l = k)) as [->|Hne].
    + rewrite lookup_insert_eq. eauto.
    + rewrite lookup_insert_ne by congruence. exact Hl.
Qed.

Lemma exec_locks_grow {R : Type} (p : Prog R) (s : State) (l : ref) :
  is_Some (locks s !! l) -> is_Some (locks (state_after env p s) !! l).
Proof.
  unfold state_after. revert s.
  induction p as [a|e|c k IH]; intros s Hl; simpl; try exact Hl.
  destruct (step_call env c s) as [[res s1]|] eqn:E; [|exact Hl].
  specialize (IH res s1 (step_call_locks_grow _ _ _ _ _ E Hl)).
  destruct (exec env (k res) s1) as [[t o] s2]. exact IH.
Qed.

Ltac static_step :=
  first [ issues_step | exact I | reflexivity | discriminate ].

Lemma init_writes_only (self : value) (window_handle : Z) :
  issues (writes_only self) (ClientCode.Client_init self window_handle).
Proof.
  unfold ClientCode.Client_init, ClientCode.process_id. repeat static_step.
Qed.

Lemma invoke_spares_hook_handler (m : method) :
  is_construct m = false ->
  issues (fun c => spares "hook_handler" c = true)
         (invoke WIZARD_SPEED calculate_perfect_yaw m).
Proof.
  intros Hm.
  destruct m; try discriminate Hm;
    unfold invoke, discard, ClientCode.process_id, ClientCode.stats, ClientCode.body,
      ClientCode.duel, ClientCode.quest_position, ClientCode.is_running,
      ClientCode.close, ClientCode.is_running, ClientCode.in_battle, ClientCode.duel,
      ClientCode.activate_hooks, ClientCode.login, ClientCode.send_key,
      ClientCode.click, ClientCode.click_section, async_with,
      ClientCode.set_mouse_position, ClientCode.goto, ClientCode.teleport,
      ClientCode.body, ClientCode.accessor, truediv;
    issues_tac.
Qed.

Lemma invoke_spares_click_lock (m : method) :
  is_construct m = false -> is_click m = false ->
  issues (fun c => spares "click_lock" c = true)
         (invoke WIZARD_SPEED calculate_perfect_yaw m).
Proof.
  intros Hm Hc.
  destruct m; try discriminate Hm; try discriminate Hc;
    unfold invoke, discard, ClientCode.process_id, ClientCode.stats, ClientCode.body,
      ClientCode.duel, ClientCode.quest_position, ClientCode.is_running,
      ClientCode.close, ClientCode.is_running, ClientCode.in_battle, ClientCode.duel,
      ClientCode.activate_hooks, ClientCode.login, ClientCode.send_key,
      ClientCode.set_mouse_position, ClientCode.goto, ClientCode.teleport,
      ClientCode.body, ClientCode.accessor, truediv;
    issues_tac.
Qed.

Lemma invoke_keeps_attr (m : method) (s : State) (r : ref) (n : string) (v : value) :
  owned s -> attr s r n = Some v -> (n = "click_lock" -> v <> VNone) ->
  attr (state_after env (invoke WIZARD_SPEED calculate_perfect_yaw m) s) r n = Some v.
Proof.
  intros Ho Hv Hn.
  assert (Hk : forall r0 n0 v0, Some (r, n, v) = Some (r0, n0, v0) ->
               n0 = "click_lock" -> v0 <> VNone)
    by (intros r0 n0 v0 [= _ <- <-]; exact Hn).
  assert (Hs : kept_owned (Some (r, n, v)) s).
  { split; [exact Ho|]. intros r0 n0 v0 [= <- <- <-]. exact Hv. }
  exact (proj2 (preserves_invoke_at (Some (r, n, v)) Hk m s Hs) r n v eq_refl).
Qed.

Lemma state_after_construct (s : State) (window_handle : Z) :
  state_after env (ClientCode.Client_new window_handle) s
  = state_after env (ClientCode.Client_init (VRef (next_ref s)) window_handle)
      (alloc Client s).
Proof.
  unfold ClientCode.Client_new, state_after.
  cbn [bind perform exec step_call]. rewrite exec_bind.
  destruct (exec env (ClientCode.Client_init (VRef (next_ref s)) window_handle)
              (alloc Client s)) as [[t [a|e|]] s1]; reflexivity.
Qed.

(** What a construction does to the store: the other instances are left
    alone; the new one is complete, or has no hook handler. *)
Lemma construct_effect (s : State) (window_handle : Z) :
  (forall r', is_Some (objs s !! r') -> (r' < next_ref s)%nat) ->
  let s' := state_after env (ClientCode.Client_new window_handle) s in
  (forall r n, r <> next_ref s -> attr s' r n = attr s r n) /\
  locks s' = locks s /\
  ((attr s' (next_ref s) "hook_handler" = None /\
    attr s' (next_ref s) "click_lock" = None) \/
   (exists pid pm,
      attr s' (next_ref s) "window_handle" = Some (VInt window_handle) /\
      attr s' (next_ref s) "_pymem" = Some pm /\
      attr s' (next_ref s) "process_id" = Some (VInt pid) /\
      attr s' (next_ref s) "click_lock" = Some VNone)).
Proof.
  intros Hdom s'. split; [|split].
  - intros r n Hr. subst s'. rewrite state_after_construct.
    rewrite (exec_writes_only (VRef (next_ref s)) _ _ r n
               (init_writes_only _ _)) by congruence.
    apply attr_alloc, Hdom.
  - subst s'. apply exec_lock_quiet.
    unfold ClientCode.Client_new, ClientCode.Client_init, ClientCode.process_id.
    issues_tac.
  - subst s'. unfold state_after.
    destruct (env (get_pid_from_handle (VInt window_handle)) (world s))
      as [[pid|e] w1] eqn:E1.
    + destruct (env (open_process_from_id (VRef (S (next_ref s))) (VInt pid)) w1)
        as [[[]|e] w2] eqn:E2.
      * right. exists pid, (VRef (S (next_ref s))).
        unfold ClientCode.Client_new, ClientCode.Client_init, ClientCode.process_id,
          cached_property, getattr, attr.
        init_run. rewrite E1. init_run. rewrite E2. init_run.
        repeat split; reflexivity.
      * left.
        unfold ClientCode.Client_new, ClientCode.Client_init, ClientCode.process_id,
          cached_property, getattr, attr.
        init_run. rewrite E1. init_run. rewrite E2. init_run.
        split; reflexivity.
    + left.
      unfold ClientCode.Client_new, ClientCode.Client_init, ClientCode.process_id,
        cached_property, getattr, attr.
      init_run. rewrite E1. init_run. split; reflexivity.
Qed.

Lemma click_lock_effect (s : State) (self : value) (px py : Z) (right_click : bool)
    (d : float) (use_post : bool) (r : ref) :
  let s' := state_after env (ClientCode.click self px py right_click d use_post) s in
  attr s' r "click_lock" = attr s r "click_lock" \/
  (attr s r "click_lock" = Some VNone /\
   exists l, attr s' r "click_lock" = Some (VRef l) /\ is_Some (locks s' !! l)).
Proof.
  intros s'. subst s'. unfold state_after, ClientCode.click.
  set (send := if use_post then PostMessageW else SendMessageW).
  set (down := if right_click then 0x204 else 0x201).
  destruct self as [|i|r0]; try (left; reflexivity).
  destruct (objs s !! r0) as [dict|] eqn:Hd;
    [|left; unfold getattr; simpl; rewrite Hd; reflexivity].
  destruct (dict !! "click_lock") as [v|] eqn:Hv;
    [|left; unfold getattr; simpl; rewrite Hd, Hv; reflexivity].
  assert (Ha : attr s r0 "click_lock" = Some v) by (unfold attr; rewrite Hd; exact Hv).
  run_getattr.
  set (rest := let* click_lock := getattr (VRef r0) "click_lock" in
               async_with click_lock
                 (ClientCode.click_section (VRef r0) px py send down d)).
  assert (Hrest : forall s0 r', attr (state_after env rest s0) r' "click_lock"
                          = attr s0 r' "click_lock").
  { intros s0 r'. apply exec_spares.
    unfold rest, async_with, ClientCode.click_section, ClientCode.set_mouse_position.
    issues_tac. }
  assert (Hgrow : forall s0 l, is_Some (locks s0 !! l) ->
                    is_Some (locks (state_after env rest s0) !! l))
    by (intros s0 l; apply exec_locks_grow).
  clearbody rest.
  set (mid := match v with
              | VNone => set_objs (alloc Lock s)
                           (<[r0 := <["click_lock" := VRef (next_ref s)]> dict]>
                              (objs (alloc Lock s)))
              | _ => s
              end).
  assert (Hst : (exec env
                   (let* _ := match v with
                              | VNone =>
                                  let* l := perform (New Lock []) in
                                  perform (SetAttr (VRef r0) "click_lock" l)
                              | _ => Ret tt
                              end in rest) s).2
                = state_after env rest mid).
  { unfold state_after, mid. rewrite exec_bind. destruct v as [|i|k].
    - run_perform. cbn [step_call and_then outcome_of].
      run_perform. cbn [step_call].
      rewrite (set_attr_ok (alloc Lock s) r0 dict) by exact Hd. run_simpl.
      destruct (exec env rest _) as [[t o] s2]. reflexivity.
    - run_simpl. destruct (exec env rest s) as [[t o] s2]. reflexivity.
    - run_simpl. destruct (exec env rest s) as [[t o] s2]. reflexivity. }
  destruct (exec env _ s) as [[t o] s2]. cbn [fst snd] in *. subst s2.
  rewrite Hrest. unfold mid. destruct v as [|i|k]; try (left; reflexivity).
  destruct (decide (r = r0)) as [->|Hne].
  - right. split; [exact Ha|]. exists (next_ref s). split.
    + apply attr_set_objs_same.
    + apply Hgrow. simpl. rewrite lookup_insert_eq. eauto.
  - left. unfold attr. simpl. rewrite lookup_insert_ne by congruence. reflexivity.
Qed.


Lemma well_formed_invoke (m : method) (s : State) :
  owned s -> well_formed s ->
  well_formed (state_after env (invoke WIZARD_SPEED calculate_perfect_yaw m) s).
Proof.
  intros Ho [Hwf Hlk]. destruct (is_construct m) eqn:Hc.
  - destruct m; try discriminate Hc. unfold invoke. rewrite state_after_discard.
    destruct (construct_effect s window_handle (proj1 Ho)) as (Hother & Hlocks & Hnew).
    split.
    + intros r hh Hh. destruct (decide (r = next_ref s)) as [->|Hne].
      * destruct Hnew as [[Hn _]|(pid & pm & H1 & H2 & H3 & H4)]; [congruence|].
        repeat split; eauto.
      * rewrite (Hother r _ Hne) in Hh. rewrite !(Hother r _ Hne).
        exact (Hwf r hh Hh).
    + intros r v Hv. rewrite Hlocks. destruct (decide (r = next_ref s)) as [->|Hne].
      * destruct Hnew as [[_ Hn]|(pid & pm & _ & _ & _ & H4)]; [congruence|].
        left. congruence.
      * rewrite (Hother r _ Hne) in Hv. exact (Hlk r v Hv).
  - set (s' := state_after env (invoke WIZARD_SPEED calculate_perfect_yaw m) s).
    assert (Hhh : forall r, attr s' r "hook_handler" = attr s r "hook_handler").
    { intros r. apply exec_spares, invoke_spares_hook_handler, Hc. }
    assert (Hcl : forall r,
              attr s' r "click_lock" = attr s r "click_lock" \/
              (attr s r "click_lock" = Some VNone /\
               exists l, attr s' r "click_lock" = Some (VRef l) /\
                         is_Some (locks s' !! l))).
    { intros r. destruct (is_click m) eqn:Hk.
      - destruct m; try discriminate Hk. apply click_lock_effect.
      - left. apply exec_spares, invoke_spares_click_lock; assumption. }
    split.
    + intros r hh Hh. rewrite Hhh in Hh.
      destruct (Hwf r hh Hh) as ((wh & H1) & (pm & H2) & (pid & H3) & (v & H4)).
      split; [exists wh; apply invoke_keeps_attr; [exact Ho|exact H1|discriminate]|].
      split; [exists pm; apply invoke_keeps_attr; [exact Ho|exact H2|discriminate]|].
      split; [exists pid; apply invoke_keeps_attr; [exact Ho|exact H3|discriminate]|].
      destruct (Hcl r) as [E|(_ & l & E & _)]; rewrite E; eauto.
    + intros r v Hv. destruct (Hcl r) as [E|(_ & l & E & Hl)].
      * rewrite E in Hv. destruct (Hlk r v Hv) as [->|(l & -> & Hl)]; [left; reflexivity|].
        right. exists l. split; [reflexivity|]. apply exec_locks_grow, Hl.
      * rewrite E in Hv. injection Hv as <-. right. exists l. auto.
Qed.

Lemma reachable_well_formed (s : State) :
  reachable env WIZARD_SPEED calculate_perfect_yaw s -> well_formed s.
Proof.
  intros Hr. induction Hr as [w|s m Hr IH].
  - split; intros r v H; unfold attr in H; simpl in H; rewrite lookup_empty in H;
      discriminate.
  - apply well_formed_invoke; [apply reachable_owned, Hr|exact IH].
Qed.

(** In every store the class can produce, an instance that has a hook
    handler is a complete client: it has an integer window handle, a
    pymem, its process id in the cache, and a click lock that is [None] or
    a lock nobody holds.  These are the conditions under which the
    methods were characterised. *)
Theorem instances_complete (s : State) (r : ref) (hh : value) :
  reachable env WIZARD_SPEED calculate_perfect_yaw s ->
  attr s r "hook_handler" = Some hh ->
  exists wh pm pid,
    constructed s r (VInt wh) pm hh /\
    attr s r "process_id" = Some (VInt pid) /\
    lock_free s r.
Proof.
  intros Hr Hh. destruct (reachable_well_formed s Hr) as [Hwf Hlk].
  destruct (Hwf r hh Hh) as ((wh & H1) & (pm & H2) & (pid & H3) & (v & H4)).
  exists wh, pm, pid. split; [repeat split; assumption|]. split; [exact H3|].
  destruct (Hlk r v H4) as [->|(l & -> & [b Hb])]; [left; exact H4|].
  right. exists l. split; [exact H4|].
  rewrite Hb. f_equal. exact (reachable_all_free s Hr l b Hb).
Qed.
End Proofs.

(** * The methods on a concrete client *)

Lemma demo_constructed :
  constructed demo_state 0%nat (VInt 99) (VRef 1) (VRef 2) /\ lock_free demo_state 0%nat.
Proof. repeat split; try (left; vm_compute; reflexivity); vm_compute; reflexivity. Qed.

Lemma close_guarded_witness :
  (outcome_in (scripted fair_weather) (ClientCode.close demo_self) stopped_state = Done tt /\
   count is_hook_call
     (trace_of (scripted fair_weather) (ClientCode.close demo_self) stopped_state) = 0%nat) /\
  (external (trace_of (scripted fair_weather) (ClientCode.close demo_self) demo_state)
   = external (trace_of (scripted fair_weather) (ClientCode.is_running demo_self) demo_state)
     ++ [hook_close (VRef 2)] /\
   count is_hook_call
     (trace_of (scripted fair_weather) (ClientCode.close demo_self) demo_state) = 1%nat).
Proof.
  split.
  - apply (close_guarded _ (scripted fair_weather) stopped_state 0%nat (VRef 2));
      vm_compute; reflexivity.
  - apply (close_guarded _ (scripted fair_weather) demo_state 0%nat (VRef 2));
      vm_compute; reflexivity.
Defined.

(** Closing twice while the process is alive: the second [close()] calls
    into the hook subsystem again, and [hook_handler.close()] runs twice. *)
Lemma close_twice_counterexample :
  outcome_in (scripted fair_weather) (ClientCode.close demo_self) demo_state = Done tt /\
  count is_hook_call
    (trace_of (scripted fair_weather) (ClientCode.close demo_self)
       (state_after (scripted fair_weather) (ClientCode.close demo_self) demo_state))
  = 1%nat /\
  count is_hook_close
    (trace_of (scripted fair_weather)
       (let* _ := ClientCode.close demo_self in ClientCode.close demo_self) demo_state)
  = 2%nat.
Proof. vm_compute. auto. Qed.

Lemma in_battle_spec_witness :
  outcome_in (scripted enum_unreadable) (ClientCode.in_battle demo_self) demo_state
    = Done false /\
  outcome_in (scripted duel_over) (ClientCode.in_battle demo_self) demo_state
    = Done false /\
  outcome_in (scripted fair_weather) (ClientCode.in_battle demo_self) demo_state
    = Done true.
Proof.
  split; [|split].
  - apply (in_battle_spec _ (scripted enum_unreadable) demo_state 0%nat (VRef 2));
      vm_compute; reflexivity.
  - apply (proj1 (proj2 (in_battle_spec _ (scripted duel_over) demo_state 0%nat (VRef 2)
                           ltac:(vm_compute; reflexivity))) ended).
    vm_compute; reflexivity.
  - apply (proj1 (proj2 (in_battle_spec _ (scripted fair_weather) demo_state 0%nat (VRef 2)
                           ltac:(vm_compute; reflexivity))) (in_progress 2)).
    vm_compute; reflexivity.
Defined.

Lemma set_mouse_position_conversion_failure_witness :
  let run := exec (scripted conversion_fails)
               (ClientCode.set_mouse_position demo_self 10 20 true false) demo_state in
  run.1.2 = Raised (RuntimeError "Client to screen conversion failed") /\
  external run.1.1 = [ClientToScreen (VInt 99) 10 20] /\
  count is_mouse_write run.1.1 = 0%nat /\
  count is_message run.1.1 = 0%nat.
Proof.
  apply (set_mouse_position_conversion_failure _ (scripted conversion_fails)
           demo_state 0%nat (VInt 99) 10 20 false (0, 0));
    vm_compute; reflexivity.
Defined.

Lemma teleport_writes_witness :
  external (trace_of (scripted fair_weather)
              (ClientCode.teleport demo_self (mkXYZ 1%float 2%float 3%float)
                 (Some 90%float)) demo_state)
  = [write_position (VRef 3) (mkXYZ 1%float 2%float 3%float);
     write_yaw (VRef 3) 90%float].
Proof.
  apply (proj2 (teleport_writes _ (scripted fair_weather) demo_state 0%nat (VRef 2)
                  (mkXYZ 1%float 2%float 3%float) ltac:(vm_compute; reflexivity))
           90%float).
  vm_compute; reflexivity.
Defined.

Lemma goto_moves_witness :
  external (trace_of (scripted fair_weather)
              (ClientCode.goto demo_speed demo_yaw demo_self 10%float 0%float 1%float)
              demo_state)
  = [position (VRef 3); write_yaw (VRef 3) 0%float;
     timed_send_key (VInt 99) W
       (PrimFloat.div 10%float (PrimFloat.mul demo_speed 1%float))].
Proof.
  apply (proj1 (proj1 (proj2 (proj2 (proj2
           (goto_moves _ (scripted fair_weather) demo_speed demo_yaw demo_state 0%nat
              (VInt 99) (VRef 1) (VRef 2) 10%float 0%float 1%float
              (mkXYZ 0%float 0%float 0%float) 0%float
              ltac:(repeat split; vm_compute; reflexivity)
              ltac:(vm_compute; reflexivity)
              ltac:(vm_compute; reflexivity)
              ltac:(vm_compute; reflexivity))))) ltac:(vm_compute; reflexivity))).
Defined.

Lemma click_sequence_witness :
  external (trace_of (scripted fair_weather)
              (ClientCode.click demo_self 10 20 true 0.5%float true) demo_state)
  = [ClientToScreen (VInt 99) 10 20;
     write_mouse_position (VRef 2) 640 480;
     send_message SendMessageW (VInt 99) 0x200 0 0;
     send_message PostMessageW (VInt 99) 0x204 1 0;
     sleep 0.5%float;
     send_message PostMessageW (VInt 99) 0x205 0 0].
Proof.
  apply (proj2 (click_sequence _ (scripted fair_weather) demo_state 0%nat
                  (VInt 99) (VRef 1) (VRef 2) 10 20 true 0.5%float true
                  ltac:(repeat split; vm_compute; reflexivity)
                  ltac:(left; vm_compute; reflexivity))).
  vm_compute; reflexivity.
Defined.

Lemma click_use_post_witness :
  Forall (delivery true (640, 480))
    (trace_of (scripted fair_weather)
       (ClientCode.click demo_self 10 20 false 0%float true) demo_state) /\
  external (trace_of (scripted fair_weather)
              (ClientCode.click demo_self 10 20 false 0%float true) demo_state)
  = [ClientToScreen (VInt 99) 10 20;
     write_mouse_position (VRef 2) 640 480;
     send_message SendMessageW (VInt 99) 0x200 0 0;
     send_message PostMessageW (VInt 99) 0x201 1 0;
     send_message PostMessageW (VInt 99) 0x202 0 0].
Proof.
  destruct (click_use_post _ (scripted fair_weather) demo_state 0%nat
              (VInt 99) (VRef 1) (VRef 2) 10 20 false 0%float true
              ltac:(repeat split; vm_compute; reflexivity)
              ltac:(left; vm_compute; reflexivity)) as (_ & H2 & _ & H4).
  split; [exact H2|]. refine (eq_trans H4 _). vm_compute. reflexivity.
Defined.

Lemma click_sleep_witness :
  count is_sleep (trace_of (scripted fair_weather)
                    (ClientCode.click demo_self 10 20 false (-1)%float false)
                    demo_state) = 0%nat /\
  count is_sleep (trace_of (scripted fair_weather)
                    (ClientCode.click demo_self 10 20 false 0.5%float false)
                    demo_state) = 1%nat.
Proof.
  split.
  - apply (proj1 (click_sleep _ (scripted fair_weather) demo_state 0%nat
                    (VInt 99) (VRef 1) (VRef 2) 10 20 false (-1)%float false
                    ltac:(repeat split; vm_compute; reflexivity)
                    ltac:(left; vm_compute; reflexivity))).
    vm_compute; reflexivity.
  - apply (proj2 (proj2 (click_sleep _ (scripted fair_weather) demo_state 0%nat
                    (VInt 99) (VRef 1) (VRef 2) 10 20 false 0.5%float false
                    ltac:(repeat split; vm_compute; reflexivity)
                    ltac:(left; vm_compute; reflexivity))));
      vm_compute; reflexivity.
Defined.

(** Two clicks with a hold, scheduled in turn: the second task waits for
    the lock while the first sleeps. *)
Example two_clicks_in_turn :
  let L := run_schedule (scripted fair_weather) [0; 1; 0; 1; 0; 1; 1; 1]%nat
             (two_clicks 0%nat demo_click0 demo_click1 demo_state) in
  tasks L = [Ret tt; Ret tt] /\
  buttons (log L)
  = [(0%nat, send_message SendMessageW (VInt 99) 0x201 1 0);
     (0%nat, send_message SendMessageW (VInt 99) 0x202 0 0);
     (1%nat, send_message PostMessageW (VInt 99) 0x204 1 0);
     (1%nat, send_message PostMessageW (VInt 99) 0x205 0 0)].
Proof. vm_compute. split; reflexivity. Qed.

Lemma click_lock_serialises_witness :
  (let run := exec (scripted button_down_fails)
                (ClientCode.click demo_self 10 20 false 0%float false) demo_state in
   count is_acquire run.1.1 = 1%nat /\ count is_release run.1.1 = 1%nat /\
   run.1.2 <> Blocked) /\
  (let L := run_schedule (scripted fair_weather) [0; 1; 0; 1; 0; 1; 1; 1]%nat
              (two_clicks 0%nat demo_click0 demo_click1 demo_state) in
   buttons (log L) <> interleaved 0 1 (VInt 99) demo_click0 demo_click1).
Proof.
  split.
  - destruct (proj1 (click_lock_serialises _ (scripted button_down_fails) demo_state 0%nat
                       (VInt 99) (VRef 1) (VRef 2)
                       ltac:(repeat split; vm_compute; reflexivity)
                       ltac:(left; vm_compute; reflexivity))
                10 20 false 0%float false) as (_ & Ha & Hr & Hb & _).
    repeat split; assumption.
  - destruct (proj2 (click_lock_serialises _ (scripted fair_weather) demo_state 0%nat
                       (VInt 99) (VRef 1) (VRef 2)
                       ltac:(repeat split; vm_compute; reflexivity)
                       ltac:(left; vm_compute; reflexivity))
                demo_click0 demo_click1 [0; 1; 0; 1; 0; 1; 1; 1]%nat)
      as (m0 & m1 & _ & _ & _ & _ & _ & H & _).
    exact H.
Defined.

(** The client of [demo_state] has its process id cached by [__init__];
    the instance of [half_built] has none, and the next read computes it. *)
Lemma cached_properties_witness :
  exec (scripted fair_weather) (ClientCode.process_id demo_self) demo_state
  = ([LookupAttr demo_self "process_id"], Done (VInt 4242), demo_state) /\
  (count is_pid_query (trace_of moody (ClientCode.process_id demo_self) half_built)
   = 1%nat /\
   outcome_in moody (ClientCode.process_id demo_self) half_built = Done (VInt 4242) /\
   attr (state_after moody (ClientCode.process_id demo_self) half_built) 0%nat
     "process_id" = Some (VInt 4242)) /\
  (outcome_in (scripted fair_weather) (ClientCode.body demo_self) demo_state
   = Done (VRef 3) /\
   count builds_view (trace_of (scripted fair_weather) (ClientCode.body demo_self)
                        demo_state) = 1%nat).
Proof.
  split; [|split].
  - apply (proj1 (cached_properties _ (scripted fair_weather) demo_speed demo_yaw
                    demo_state
                    (@reachable_invoke _ (scripted fair_weather) demo_speed demo_yaw _
                       (construct 99)
                       (@reachable_boot _ (scripted fair_weather) demo_speed demo_yaw
                          demo_alive)
                     <: reachable (scripted fair_weather) demo_speed demo_yaw
                          demo_state))
            0%nat (VInt 4242)).
    vm_compute. reflexivity.
  - destruct (proj1 (proj2 (cached_properties _ moody demo_speed demo_yaw half_built
                    (@reachable_invoke _ moody demo_speed demo_yaw _
                       (construct 99)
                       (@reachable_boot _ moody demo_speed demo_yaw [false; true])
                     <: reachable moody demo_speed demo_yaw half_built)))
                0%nat (VInt 99) ltac:(vm_compute; reflexivity)
                ltac:(vm_compute; reflexivity)) as [H1 H2].
    split; [exact H1|]. exact H2.
  - destruct (proj1 (proj2 (proj2 (proj2
                (cached_properties _ (scripted fair_weather) demo_speed demo_yaw
                    demo_state
                    (@reachable_invoke _ (scripted fair_weather) demo_speed demo_yaw _
                       (construct 99)
                       (@reachable_boot _ (scripted fair_weather) demo_speed demo_yaw
                          demo_alive)
                     <: reachable (scripted fair_weather) demo_speed demo_yaw
                          demo_state)))))
                0%nat (VRef 2) the_body ltac:(vm_compute; reflexivity))
      as (H1 & H2 & _).
    split; [exact H1|exact H2].
Defined.

(** ** The rest of the class on the concrete client *)

Lemma is_running_asks_witness :
  (exec (scripted fair_weather) (ClientCode.is_running demo_self) demo_state).1.2
  = Done true.
Proof.
  destruct (is_running_asks _ (scripted fair_weather) demo_state 0%nat (VRef 1)
              ltac:(vm_compute; reflexivity)) as (_ & _ & _ & H).
  exact (proj2 H).
Defined.

Lemma close_propagates_witness :
  outcome_in (scripted fair_weather) (ClientCode.close demo_self) demo_state = Done tt.
Proof.
  exact (proj2 (close_propagates _ (scripted fair_weather) demo_state 0%nat (VRef 2)
                  ltac:(vm_compute; reflexivity))
           ltac:(vm_compute; reflexivity)).
Defined.

Lemma activate_hooks_forwards_witness :
  external (exec (scripted fair_weather) (ClientCode.activate_hooks demo_self)
              demo_state).1.1
  = [activate_all_hooks (VRef 2)].
Proof.
  exact (proj1 (activate_hooks_forwards _ (scripted fair_weather) demo_state 0%nat
                  (VRef 2) ltac:(vm_compute; reflexivity))).
Defined.

Lemma login_forwards_witness :
  external (exec (scripted fair_weather) (ClientCode.login demo_self "wizard" "secret")
              demo_state).1.1
  = [instance_login (VInt 99) "wizard" "secret"].
Proof.
  exact (proj1 (login_forwards _ (scripted fair_weather) demo_state 0%nat (VInt 99)
                  "wizard" "secret" ltac:(vm_compute; reflexivity))).
Defined.

Lemma send_key_forwards_witness :
  external (exec (scripted fair_weather) (ClientCode.send_key demo_self (key 65) 0.5%float)
              demo_state).1.1
  = [timed_send_key (VInt 99) (key 65) 0.5%float].
Proof.
  exact (proj1 (send_key_forwards _ (scripted fair_weather) demo_state 0%nat (VInt 99)
                  (key 65) 0.5%float ltac:(vm_compute; reflexivity))).
Defined.

Lemma set_mouse_position_converts_witness :
  external (exec (scripted fair_weather)
              (ClientCode.set_mouse_position demo_self 10 20 true true) demo_state).1.1
  = [ClientToScreen (VInt 99) 10 20; write_mouse_position (VRef 2) 640 480;
     send_message PostMessageW (VInt 99) 0x200 0 0].
Proof.
  exact (proj1 (set_mouse_position_converts _ (scripted fair_weather) demo_state 0%nat
                  (VInt 99) (VRef 2) 10 20 true 1 640 480
                  ltac:(vm_compute; reflexivity) ltac:(vm_compute; reflexivity)
                  ltac:(reflexivity) ltac:(discriminate))).
Defined.

Lemma set_mouse_position_raw_witness :
  external (exec (scripted fair_weather)
              (ClientCode.set_mouse_position demo_self 10 20 false false) demo_state).1.1
  = [write_mouse_position (VRef 2) 10 20;
     send_message SendMessageW (VInt 99) 0x200 0 0].
Proof.
  exact (proj1 (proj2 (set_mouse_position_raw _ (scripted fair_weather) demo_state 0%nat
                  (VInt 99) (VRef 2) 10 20 false
                  ltac:(vm_compute; reflexivity) ltac:(vm_compute; reflexivity)))).
Defined.

Lemma in_battle_reads_once_witness :
  external (exec (scripted fair_weather) (ClientCode.in_battle demo_self) demo_state).1.1
  = [duel_phase (cached demo_state 0%nat "duel")].
Proof.
  exact (proj1 (in_battle_reads_once _ (scripted fair_weather) demo_state 0%nat (VRef 2)
                  ltac:(vm_compute; reflexivity))).
Defined.

Lemma goto_stops_early_witness :
  (exec (scripted fair_weather)
     (ClientCode.goto 0%float demo_yaw demo_self 10%float 0%float 1%float)
     demo_state).1.2
  = Raised ZeroDivisionError.
Proof.
  exact (proj1 (goto_stops_early _ (scripted fair_weather) 0%float demo_yaw demo_state
                  0%nat (VInt 99) (VRef 1) (VRef 2) 10%float 0%float 1%float
                  ltac:(repeat split; vm_compute; reflexivity))).
Defined.

Lemma teleport_outcome_witness :
  attr (exec (scripted fair_weather)
          (ClientCode.teleport demo_self (mkXYZ 1%float 2%float 3%float) (Some 0.5%float))
          demo_state).2 0%nat "body"
  = Some (cached demo_state 0%nat "body").
Proof.
  exact (proj2 (teleport_outcome _ (scripted fair_weather) demo_state 0%nat (VRef 2)
                  (mkXYZ 1%float 2%float 3%float) (Some 0.5%float)
                  ltac:(vm_compute; reflexivity))).
Defined.

Lemma construction_builds_witness :
  outcome_in (scripted fair_weather) (ClientCode.Client_new 99) (boot demo_alive)
  = Done (VRef 0).
Proof.
  destruct (construction_builds _ (scripted fair_weather) (boot demo_alive) 99 4242
              demo_alive demo_alive eq_refl eq_refl) as (t & s' & E & _).
  unfold outcome_in. rewrite E. reflexivity.
Defined.

Lemma construction_fails_witness :
  outcome_in moody (ClientCode.Client_new 99) (boot [false; true])
  = Raised (OtherError 3).
Proof.
  destruct (proj1 (construction_fails _ moody (boot [false; true]) 99 (OtherError 3))
              [true] eq_refl) as (t & s' & E & _).
  unfold outcome_in. rewrite E. reflexivity.
Defined.

Lemma attributes_stable_witness :
  attr (state_after (scripted fair_weather)
          (invoke demo_speed demo_yaw (call_click demo_self 10 20 false 0%float false))
          demo_state) 0%nat "hook_handler"
  = Some (VRef 2).
Proof.
  apply (attributes_stable _ (scripted fair_weather) demo_speed demo_yaw demo_state).
  - exact (@reachable_invoke _ (scripted fair_weather) demo_speed demo_yaw _
             (construct 99)
             (@reachable_boot _ (scripted fair_weather) demo_speed demo_yaw demo_alive)
           <: reachable (scripted fair_weather) demo_speed demo_yaw demo_state).
  - apply later_invoke, later_now.
  - vm_compute. reflexivity.
  - discriminate.
Defined.

Lemma locks_released_witness :
  outcome_in (scripted fair_weather)
    (invoke demo_speed demo_yaw (call_click demo_self 10 20 false 0%float false))
    demo_state
  <> Blocked.
Proof.
  apply (locks_released _ (scripted fair_weather) demo_speed demo_yaw demo_state).
  exact (@reachable_invoke _ (scripted fair_weather) demo_speed demo_yaw _
           (construct 99)
           (@reachable_boot _ (scripted fair_weather) demo_speed demo_yaw demo_alive)
         <: reachable (scripted fair_weather) demo_speed demo_yaw demo_state).
Defined.

Lemma click_lock_created_witness :
  attr (exec (scripted fair_weather)
          (ClientCode.click demo_self 10 20 false 0%float false) demo_state).2
       0%nat "click_lock"
  = Some (VRef (click_lock_of demo_state 0%nat)).
Proof.
  exact (proj1 (proj2 (click_lock_created _ (scripted fair_weather) demo_state 0%nat
                  (VInt 99) (VRef 1) (VRef 2) 10 20 false 0%float false
                  ltac:(repeat split; vm_compute; reflexivity)
                  ltac:(left; vm_compute; reflexivity)))).
Defined.

Lemma synchronous_uses_atomic_witness :
  finished (run_atomic (scripted fair_weather)
              (invoke demo_speed demo_yaw (call_is_running demo_self)) demo_state).1.2.
Proof.
  exact (proj1 (proj2 (synchronous_uses_atomic _ (scripted fair_weather) demo_speed
                         demo_yaw (call_is_running demo_self) demo_state eq_refl))).
Defined.

Lemma click_conversion_failure_witness :
  (exec (scripted conversion_fails)
     (ClientCode.click demo_self 10 20 false 0%float false) demo_state).1.2
  = Raised (RuntimeError "Client to screen conversion failed").
Proof.
  exact (proj1 (click_conversion_failure _ (scripted conversion_fails) demo_state 0%nat
                  (VInt 99) (VRef 1) (VRef 2) 10 20 false 0%float false (0, 0)
                  ltac:(repeat split; vm_compute; reflexivity)
                  ltac:(left; vm_compute; reflexivity)
                  ltac:(reflexivity))).
Defined.

Lemma only_construction_attaches_witness :
  issues (fun c => builds_core c = false /\ is_attach c = false)
         (invoke demo_speed demo_yaw (call_close demo_self)).
Proof.
  exact (only_construction_attaches demo_speed demo_yaw (call_close demo_self) eq_refl).
Defined.

Lemma instances_complete_witness :
  exists wh pm pid,
    constructed demo_state 0%nat (VInt wh) pm (VRef 2) /\
    attr demo_state 0%nat "process_id" = Some (VInt pid) /\
    lock_free demo_state 0%nat.
Proof.
  apply (instances_complete _ (scripted fair_weather) demo_speed demo_yaw demo_state).
  - exact (@reachable_invoke _ (scripted fair_weather) demo_speed demo_yaw _
             (construct 99)
             (@reachable_boot _ (scripted fair_weather) demo_speed demo_yaw demo_alive)
           <: reachable (scripted fair_weather) demo_speed demo_yaw demo_state).
  - vm_compute. reflexivity.
Defined.
